(** * Pocker signaling server: session registry, connection registry, event router

    A shallow embedding of
    - [signaling-server/src/services/SessionManager.ts] (module [SessionManager]),
    - [signaling-server/src/services/PlayerManager.ts]  (module [PlayerManager]),
    - [signaling-server/src/server.ts]                  (module [Server]),
    - the client store of [src/lib/realtime.ts]: its reveal, its handler of
      the events the router relays and its admission check, together with
      [joinSession] of the client's session library (module [Store]),
    - [handleReconnection] of the client's socket in [src/lib/realtime.ts]
      (module [WebSocketRealTimeSync]),
    - [removePlayerFromSession] of the compiled build
      [signaling-server/dist/services/SessionManager.js] (module [Dist]).

    Conventions.
    - A JavaScript [number] is an IEEE binary64 value: [float] with the
      kernel's primitive operations.
    - A [Date] is its [getTime()], an integer count of milliseconds ([Z]).
      Every handler receives the clock reading [now] as an argument; the
      several [new Date()] / [Date.now()] of one handler read the same value.
    - [uuidv4()] is an argument [uuid] of the operation that draws it, and
      so is the [generateUserId()] of the client.
    - Of the client store the [session] slice is modelled: no operation
      below reads another slice to compute it.
    - A [Map<string, _>] is a [gmap string _]. A loop over its entries visits
      them in the order of [map_to_list], not in insertion order; within one
      broadcast a socket is sent at most one message, so what each socket
      receives, and in which order, does not depend on it.
    - A plain object used as a dictionary ([Record<string, _>]) is the list
      of its own properties in the order in which [Object.values]
      enumerates them: the keys that are array indices first, ascending,
      then the other keys in the order of their creation. An assignment to
      the key ["__proto__"] of such an object stores nothing.
    - Objects stored in a [Map] are mutated in place by the source; here the
      mutated record is written back under the key it was fetched with.
    - [{ ...round }] pushed on the history is a shallow copy: its fields are
      those of the round at the push, and its [votes] is the round's own
      votes object. [GameSession.shared] counts the entries of the history
      that hold the votes object of the current round, and the operations
      that write to that object write to these entries too. *)

From Stdlib Require Import PrimFloat.
From Stdlib Require Uint63 SpecFloat FloatOps FloatAxioms.
From Stdlib Require Import ZArith.
From stdpp Require Import gmap strings list fin_maps sorting.

(* ================================================================== *)
(** ** JavaScript values *)
(* ================================================================== *)

Module Js.

(** [string | number] *)
Inductive value : Type :=
| VStr (s : string)
| VNum (n : float).

(** [typeof v === 'number'] *)
Definition is_number (v : value) : bool :=
  match v with VNum _ => true | VStr _ => false end.

(** ToBoolean on [string | number]: [""], [0], [-0] and [NaN] are falsy. *)
Definition truthy (v : value) : bool :=
  match v with
  | VStr s => negb (String.eqb s "")
  | VNum n => negb (PrimFloat.eqb n 0 || PrimFloat.is_nan n)
  end.

(** ToBoolean on [string | undefined]. *)
Definition truthy_str (s : option string) : bool :=
  match s with
  | Some s => negb (String.eqb s "")
  | None => false
  end.

(** [arr.filter(v => typeof v === 'number') as number[]] *)
Fixpoint numbers (vs : list value) : list float :=
  match vs with
  | [] => []
  | VNum n :: vs => n :: numbers vs
  | VStr _ :: vs => numbers vs
  end.

(** An array length as a number (exact below 2^53; an array has fewer than
    2^32 elements). *)
Definition of_length (n : nat) : float :=
  PrimFloat.of_uint63 (Uint63.of_Z (Z.of_nat n)).

(** A plain object used as a dictionary, [{}] with the prototype
    [Object.prototype]: the list of its own properties in the order in
    which [Object.values], [Object.keys], a spread and [JSON.stringify]
    enumerate them. That order puts the keys that are array indices first,
    in ascending numeric order, and the other keys after them, in the order
    in which they were created. *)
Abbreviation object A := (list (string * A)).

(** The decimal digits of [s] read as a number; [None] if a character is
    not a digit. *)
Fixpoint digits (acc : N) (s : string) : option N :=
  match s with
  | EmptyString => Some acc
  | String c s' =>
      let d := Ascii.N_of_ascii c in
      if ((48 <=? d) && (d <=? 57))%N
      then digits (10 * acc + (d - 48))%N s'
      else None
  end.

(** An array index: the canonical decimal numeral (no sign, no leading
    zero) of an integer from 0 to 2^32 - 2. *)
Definition array_index (k : string) : option N :=
  match k with
  | EmptyString => None
  | String c rest =>
      if (Ascii.N_of_ascii c =? 48)%N
      then match rest with EmptyString => Some 0%N | String _ _ => None end
      else
        match digits 0 k with
        | Some n => if (n <? 2 ^ 32 - 1)%N then Some n else None
        | None => None
        end
  end.

(** Where a new property with the array index [n] goes: after the array
    indices below [n]. *)
Fixpoint insert_index {A} (n : N) (kv : string * A) (o : object A)
    : object A :=
  match o with
  | [] => [kv]
  | kv' :: o' =>
      match array_index kv'.1 with
      | Some n' =>
          if (n' <? n)%N then kv' :: insert_index n kv o' else kv :: o
      | None => kv :: o
      end
  end.

(** A property that the object does not have is created: an array index
    among the array indices, any other key at the end. *)
Definition prop_create {A} (k : string) (v : A) (o : object A) : object A :=
  match array_index k with
  | Some n => insert_index n (k, v) o
  | None => o ++ [(k, v)]
  end.

(** The own property [k]. The source's [o[k]] also finds the properties
    [o] inherits from [Object.prototype] ([toString], [__proto__], ...);
    the one place that reads a property, [removePlayerFromSession], does
    with an inherited one what it does with none, see [dropVote]. *)
Definition prop_get {A} (k : string) (o : object A) : option A :=
  snd <$> (snd <$> list_find (λ kv, kv.1 = k) o).

(** [o[k] = v] for a string or a number [v]: an own property keeps its
    place and gets the value; a new one is created, except for the key
    ["__proto__"], where the assignment runs the setter that [o] inherits
    from [Object.prototype], which ignores a value that is neither an
    object nor [null] and stores nothing. *)
Definition prop_set {A} (k : string) (v : A) (o : object A) : object A :=
  match list_find (λ kv, kv.1 = k) o with
  | Some (i, _) => <[i := (k, v)]> o
  | None => if decide (k = "__proto__") then o else prop_create k v o
  end.

(** [{ ...o, [k]: v }]: the copy has the properties of [o] in their order;
    a computed key defines the own property [k], also for ["__proto__"]. *)
Definition prop_define {A} (k : string) (v : A) (o : object A) : object A :=
  match list_find (λ kv, kv.1 = k) o with
  | Some (i, _) => <[i := (k, v)]> o
  | None => prop_create k v o
  end.

(** [delete o[k]] *)
Definition prop_delete {A} (k : string) (o : object A) : object A :=
  filter (λ kv, kv.1 ≠ k) o.

(** [Object.values(o)] *)
Definition values {A} (o : object A) : list A := map snd o.

(** An object as the operations above keep it: no key twice, the array
    indices first and ascending. *)
Definition key_before (k1 k2 : string) : Prop :=
  k1 ≠ k2
  ∧ match array_index k1, array_index k2 with
    | Some n1, Some n2 => (n1 ≤ n2)%N
    | Some _, None => True
    | None, Some _ => False
    | None, None => True
    end.

Definition ordered {A} (o : object A) : Prop :=
  StronglySorted key_before o.*1.

End Js.

(* ================================================================== *)
(** ** Types ([signaling-server/src/types]) *)
(* ================================================================== *)

Module Player.
Record t : Type := mk
  { id : string;
    name : string;
    vote : option Js.value;
    isCurrentUser : option bool;
    hasVoted : option bool;
    isOnline : option bool }.

(** [{ ...p, isOnline: b }] *)
Definition with_isOnline (b : bool) (p : t) : t :=
  mk (id p) (name p) (vote p) (isCurrentUser p) (hasVoted p) (Some b).
End Player.

Module VotingRound.
Record t : Type := mk
  { id : string;
    issueName : option string;
    votes : Js.object Js.value;
    startTime : Z;
    endTime : option Z;
    isRevealed : bool;
    average : option float;
    hasAgreement : option bool }.
End VotingRound.

Module GameSettings.
(** ['everyone' | 'facilitator' | string[]] *)
Inductive who : Type :=
| everyone
| facilitator
| listed (ids : list string).

Record t : Type := mk
  { autoReveal : bool;
    showAverage : bool;
    showCountdown : bool;
    enableFunFeatures : bool;
    whoCanReveal : who;
    whoCanManageIssues : who }.

(** The [settings] payload of a SETTINGS_UPDATED event: any subset of the
    fields. *)
Record patch : Type := mkPatch
  { p_autoReveal : option bool;
    p_showAverage : option bool;
    p_showCountdown : option bool;
    p_enableFunFeatures : option bool;
    p_whoCanReveal : option who;
    p_whoCanManageIssues : option who }.

(** [{ ...s, ...p }] *)
Definition merge (s : t) (p : patch) : t :=
  mk (default (autoReveal s) (p_autoReveal p))
     (default (showAverage s) (p_showAverage p))
     (default (showCountdown s) (p_showCountdown p))
     (default (enableFunFeatures s) (p_enableFunFeatures p))
     (default (whoCanReveal s) (p_whoCanReveal p))
     (default (whoCanManageIssues s) (p_whoCanManageIssues p)).
End GameSettings.

Module GameSession.
(** [shared] is not a property of the source's object: it says which
    objects of the server's heap are one object. [revealVotes] pushes
    [{ ...round }] on the history, a copy whose [votes] is the votes
    object of the round itself; the last [shared] entries of [history] are
    the copies pushed since the current round was started, and what
    [updatePlayerVote] and [removePlayerFromSession] write to the votes of
    the round shows in them. The entries before hold the votes objects of
    earlier rounds, which nothing reaches any more. The client's store
    builds a new object on every change and carries the field along. *)
Record t : Type := mk
  { id : string;
    name : string;
    facilitator : string;
    votingSystem : string;
    players : list Player.t;
    currentVote : option VotingRound.t;
    settings : GameSettings.t;
    history : list VotingRound.t;
    createdAt : Z;
    lastActivity : Z;
    shared : nat }.
End GameSession.

(* ================================================================== *)
(** ** SessionManager ([services/SessionManager.ts]) *)
(* ================================================================== *)

Module SessionManager.

(** [private sessions = new Map<string, GameSession>()] *)
Abbreviation t := (gmap string GameSession.t).

Definition createSession (uuid : string) (now : Z)
    (sessionName facilitatorId facilitatorName : string) (sessions : t)
    : GameSession.t * t :=
  let session :=
    GameSession.mk uuid sessionName facilitatorId "simple"
      [Player.mk facilitatorId facilitatorName None None None (Some true)]
      None
      (GameSettings.mk false true true true
         GameSettings.everyone GameSettings.facilitator)
      [] now now 0 in
  (session, <[GameSession.id session := session]> sessions).

Definition getSession (sessionId : string) (sessions : t)
    : option GameSession.t :=
  sessions !! sessionId.

Definition addPlayerToSession (now : Z) (sessionId : string)
    (player : Player.t) (sessions : t) : bool * t :=
  match sessions !! sessionId with
  | None => (false, sessions)
  | Some session =>
      let players := GameSession.players session in
      let players' :=
        match list_find (λ p, Player.id p = Player.id player) players with
        | Some (existingPlayerIndex, _) =>
            <[existingPlayerIndex := Player.with_isOnline true player]> players
        | None => players ++ [Player.with_isOnline true player]
        end in
      (true,
       <[sessionId :=
           GameSession.mk (GameSession.id session) (GameSession.name session)
             (GameSession.facilitator session)
             (GameSession.votingSystem session)
             players'
             (GameSession.currentVote session)
             (GameSession.settings session) (GameSession.history session)
             (GameSession.createdAt session) now
             (GameSession.shared session)]> sessions)
  end.

(** [{ ...r, votes }] *)
Definition with_votes (votes : Js.object Js.value) (r : VotingRound.t)
    : VotingRound.t :=
  VotingRound.mk (VotingRound.id r) (VotingRound.issueName r) votes
    (VotingRound.startTime r) (VotingRound.endTime r)
    (VotingRound.isRevealed r) (VotingRound.average r)
    (VotingRound.hasAgreement r).

(** The history after a write to the votes object of the current round
    [cv]: its last [shared] entries hold that very object. *)
Definition writeThrough (cv : option VotingRound.t) (shared : nat)
    (history : list VotingRound.t) : list VotingRound.t :=
  match cv with
  | None => history
  | Some r =>
      take (length history - shared) history
        ++ (with_votes (VotingRound.votes r)
              <$> drop (length history - shared) history)
  end.

(** The two statements of [removePlayerFromSession] that touch the round:
    [if (currentVote && currentVote.votes[playerId]) delete ...]. Where the
    votes hold no own property [playerId], the read gives [undefined] or a
    property inherited from [Object.prototype]; the [delete] that follows
    an inherited one finds no own property, so the votes stay as they are
    in both cases. *)
Definition dropVote (playerId : string) (cv : option VotingRound.t)
    : option VotingRound.t :=
  match cv with
  | None => None
  | Some r =>
      match Js.prop_get playerId (VotingRound.votes r) with
      | Some v =>
          if Js.truthy v then
            Some (VotingRound.mk (VotingRound.id r) (VotingRound.issueName r)
                    (Js.prop_delete playerId (VotingRound.votes r))
                    (VotingRound.startTime r) (VotingRound.endTime r)
                    (VotingRound.isRevealed r) (VotingRound.average r)
                    (VotingRound.hasAgreement r))
          else Some r
      | None => Some r
      end
  end.

Definition removePlayerFromSession (now : Z) (sessionId playerId : string)
    (sessions : t) : bool * t :=
  match sessions !! sessionId with
  | None => (false, sessions)
  | Some session =>
      (true,
       <[sessionId :=
           GameSession.mk (GameSession.id session) (GameSession.name session)
             (GameSession.facilitator session)
             (GameSession.votingSystem session)
             (filter (λ p, Player.id p ≠ playerId)
                (GameSession.players session))
             (dropVote playerId (GameSession.currentVote session))
             (GameSession.settings session)
             (writeThrough
                (dropVote playerId (GameSession.currentVote session))
                (GameSession.shared session) (GameSession.history session))
             (GameSession.createdAt session) now
             (GameSession.shared session)]> sessions)
  end.

(** [player.vote = vote; player.hasVoted = true] *)
Definition castVote (vote : Js.value) (p : Player.t) : Player.t :=
  Player.mk (Player.id p) (Player.name p) (Some vote)
    (Player.isCurrentUser p) (Some true) (Player.isOnline p).

Definition updatePlayerVote (now : Z) (sessionId playerId : string)
    (vote : Js.value) (sessions : t) : bool * t :=
  match sessions !! sessionId with
  | None => (false, sessions)
  | Some session =>
      match GameSession.currentVote session with
      | None => (false, sessions)
      | Some r =>
          let r' :=
            VotingRound.mk (VotingRound.id r) (VotingRound.issueName r)
              (Js.prop_set playerId vote (VotingRound.votes r))
              (VotingRound.startTime r) (VotingRound.endTime r)
              (VotingRound.isRevealed r) (VotingRound.average r)
              (VotingRound.hasAgreement r) in
          let players := GameSession.players session in
          let players' :=
            match list_find (λ p, Player.id p = playerId) players with
            | Some (i, player) => <[i := castVote vote player]> players
            | None => players
            end in
          (true,
           <[sessionId :=
               GameSession.mk (GameSession.id session)
                 (GameSession.name session)
                 (GameSession.facilitator session)
                 (GameSession.votingSystem session)
                 players' (Some r')
                 (GameSession.settings session)
                 (writeThrough (Some r') (GameSession.shared session)
                    (GameSession.history session))
                 (GameSession.createdAt session) now
                 (GameSession.shared session)]> sessions)
      end
  end.

(** [player.vote = undefined; player.hasVoted = false] *)
Definition clearVote (p : Player.t) : Player.t :=
  Player.mk (Player.id p) (Player.name p) None
    (Player.isCurrentUser p) (Some false) (Player.isOnline p).

Definition startVoting (uuid : string) (now : Z) (sessionId : string)
    (issueName : option string) (sessions : t)
    : option VotingRound.t * t :=
  match sessions !! sessionId with
  | None => (None, sessions)
  | Some session =>
      let votingRound :=
        VotingRound.mk uuid issueName [] now None false None None in
      (Some votingRound,
       <[sessionId :=
           GameSession.mk (GameSession.id session) (GameSession.name session)
             (GameSession.facilitator session)
             (GameSession.votingSystem session)
             (map clearVote (GameSession.players session))
             (Some votingRound)
             (GameSession.settings session) (GameSession.history session)
             (GameSession.createdAt session) now 0]> sessions)
  end.

(** [Object.values(round.votes).filter(v => typeof v === 'number')] *)
Definition numericVotes (r : VotingRound.t) : list float :=
  Js.numbers (Js.values (VotingRound.votes r)).

(** [xs.reduce((sum, vote) => sum + vote, 0) / xs.length] *)
Definition mean (xs : list float) : float :=
  PrimFloat.div (fold_left PrimFloat.add xs 0%float)
                (Js.of_length (length xs)).

(** [xs.every(vote => vote === xs[0])], for a list that starts with [x0] *)
Definition every_equal (x0 : float) (xs : list float) : bool :=
  forallb (λ vote, PrimFloat.eqb vote x0) xs.

(** The round after the statements of [revealVotes] that write to it. *)
Definition revealed (now : Z) (r : VotingRound.t) : VotingRound.t :=
  let numericVotes := numericVotes r in
  match numericVotes with
  | x0 :: _ =>
      VotingRound.mk (VotingRound.id r) (VotingRound.issueName r)
        (VotingRound.votes r) (VotingRound.startTime r) (Some now) true
        (Some (mean numericVotes))
        (Some (every_equal x0 numericVotes))
  | [] =>
      VotingRound.mk (VotingRound.id r) (VotingRound.issueName r)
        (VotingRound.votes r) (VotingRound.startTime r) (Some now) true
        (VotingRound.average r) (VotingRound.hasAgreement r)
  end.

Definition revealVotes (now : Z) (sessionId : string) (sessions : t)
    : bool * t :=
  match sessions !! sessionId with
  | None => (false, sessions)
  | Some session =>
      match GameSession.currentVote session with
      | None => (false, sessions)
      | Some r =>
          let r' := revealed now r in
          (true,
           <[sessionId :=
               GameSession.mk (GameSession.id session)
                 (GameSession.name session)
                 (GameSession.facilitator session)
                 (GameSession.votingSystem session)
                 (GameSession.players session) (Some r')
                 (GameSession.settings session)
                 (GameSession.history session ++ [r'])
                 (GameSession.createdAt session) now
                 (S (GameSession.shared session))]> sessions)
      end
  end.

Definition updateSessionSettings (now : Z) (sessionId : string)
    (settings : option GameSettings.patch)
    (facilitator name votingSystem : option string) (sessions : t)
    : bool * t :=
  match sessions !! sessionId with
  | None => (false, sessions)
  | Some session =>
      let pick (new : option string) (old : string) : string :=
        if Js.truthy_str new then default old new else old in
      (true,
       <[sessionId :=
           GameSession.mk (GameSession.id session)
             (pick name (GameSession.name session))
             (pick facilitator (GameSession.facilitator session))
             (pick votingSystem (GameSession.votingSystem session))
             (GameSession.players session)
             (GameSession.currentVote session)
             (match settings with
              | Some p => GameSettings.merge (GameSession.settings session) p
              | None => GameSession.settings session
              end)
             (GameSession.history session)
             (GameSession.createdAt session) now
             (GameSession.shared session)]> sessions)
  end.

(** [now.getTime() - session.lastActivity.getTime() > maxAge] *)
Definition inactive (now maxAge : Z) (session : GameSession.t) : bool :=
  bool_decide (now - GameSession.lastActivity session > maxAge)%Z.

(** 15 minutes, the default of [maxAge]. *)
Definition defaultMaxAge : Z := 15 * 60 * 1000.

(** The loop over [this.sessions.entries()]: the state is the map and the
    counter [cleaned]. *)
Definition cleanupStep (now maxAge : Z) (acc : nat * t)
    (entry : string * GameSession.t) : nat * t :=
  if inactive now maxAge entry.2
  then (S acc.1, delete entry.1 acc.2)
  else acc.

Definition cleanupInactiveSessions (now maxAge : Z) (sessions : t)
    : nat * t :=
  foldl (cleanupStep now maxAge) (0, sessions) (map_to_list sessions).

Definition getAllSessions (sessions : t) : list GameSession.t :=
  (map_to_list sessions).*2.

(** [revealVotes] called once per clock reading of [times], in order; the
    boolean is the conjunction of the results. *)
Definition revealRepeatedly (times : list Z) (sessionId : string)
    (sessions : t) : bool * t :=
  foldl (λ acc now,
           let r := revealVotes now sessionId acc.2 in (acc.1 && r.1, r.2))
        (true, sessions) times.

(** [this.sessions.get(sessionId)?.currentVote] *)
Definition currentRound (sessionId : string) (sessions : t)
    : option VotingRound.t :=
  sessions !! sessionId ≫= GameSession.currentVote.

(** Well-formedness of a session and of the registry. Roster ids are
    pairwise distinct; the current round holds one vote per participant id;
    a participant flagged [hasVoted] carries the vote the current round
    holds for them, unless their id is ["__proto__"], under which a round
    holds no vote; a session is stored under its own id. *)
Definition rosterUnique (s : GameSession.t) : Prop :=
  NoDup (Player.id <$> GameSession.players s).

Definition votesUnique (s : GameSession.t) : Prop :=
  ∀ r, GameSession.currentVote s = Some r → NoDup (VotingRound.votes r).*1.

Definition votedInRound (s : GameSession.t) : Prop :=
  ∀ p, p ∈ GameSession.players s → Player.hasVoted p = Some true →
    Player.id p ≠ "__proto__" →
    ∃ r v, GameSession.currentVote s = Some r
           ∧ Player.vote p = Some v
           ∧ Js.prop_get (Player.id p) (VotingRound.votes r) = Some v.

Definition wfSession (s : GameSession.t) : Prop :=
  rosterUnique s ∧ votesUnique s ∧ votedInRound s.

Definition wf (sessions : t) : Prop :=
  ∀ k s, sessions !! k = Some s → GameSession.id s = k ∧ wfSession s.

(** The shape of the heap. The votes of the current round are in
    enumeration order and have no own property ["__proto__"]; the history
    has at least [shared] entries, and the last [shared] of them hold the
    votes of the current round. *)
Definition votesOrdered (s : GameSession.t) : Prop :=
  ∀ r, GameSession.currentVote s = Some r →
    Js.ordered (VotingRound.votes r)
    ∧ "__proto__" ∉ (VotingRound.votes r).*1.

Definition historyShares (s : GameSession.t) : Prop :=
  GameSession.shared s ≤ length (GameSession.history s)
  ∧ ∀ i e, GameSession.history s !! i = Some e →
      length (GameSession.history s) - GameSession.shared s ≤ i →
      ∃ r, GameSession.currentVote s = Some r
           ∧ VotingRound.votes e = VotingRound.votes r.

Definition wfHeap (sessions : t) : Prop :=
  ∀ k s, sessions !! k = Some s → votesOrdered s ∧ historyShares s.

End SessionManager.

(* ================================================================== *)
(** ** [removePlayerFromSession] of the compiled build
       ([dist/services/SessionManager.js]) *)
(* ================================================================== *)

Module Dist.

(** [session.players[playerIndex].isOnline = false] *)
Definition removePlayerFromSession (now : Z) (sessionId playerId : string)
    (sessions : SessionManager.t) : bool * SessionManager.t :=
  match sessions !! sessionId with
  | None => (false, sessions)
  | Some session =>
      let players := GameSession.players session in
      let players' :=
        match list_find (λ p, Player.id p = playerId) players with
        | Some (playerIndex, p) =>
            <[playerIndex := Player.with_isOnline false p]> players
        | None => players
        end in
      (true,
       <[sessionId :=
           GameSession.mk (GameSession.id session) (GameSession.name session)
             (GameSession.facilitator session)
             (GameSession.votingSystem session)
             players'
             (GameSession.currentVote session)
             (GameSession.settings session) (GameSession.history session)
             (GameSession.createdAt session) now
             (GameSession.shared session)]> sessions)
  end.

End Dist.

(* ================================================================== *)
(** ** Wire types ([types]: SyncEvent, WebSocketMessage, ServerResponse,
       ConnectedPlayer) *)
(* ================================================================== *)

Module WebSocket.
(** A socket object; two handles are [===] when they are the same number. *)
Definition t : Type := nat.

Inductive state : Type := CONNECTING | OPEN | CLOSING | CLOSED.

Definition is_open (s : state) : bool :=
  match s with OPEN => true | _ => false end.
(** [ws.close()]: the socket starts its closing handshake; its 'close'
    event comes later. *)
Definition close (ws : t) (readyState : t → state) : t → state :=
  λ w, if decide (w = ws) then CLOSING else readyState w.
End WebSocket.

Module SyncEvent.
Inductive t : Type :=
| PLAYER_JOINED (player : option Player.t)
| PLAYER_LEFT (playerId : string)
| VOTE_SUBMITTED (playerId : string) (vote : Js.value)
| VOTING_STARTED (issueName : option string)
| VOTES_REVEALED
| SESSION_UPDATED (session : GameSession.t)
| PLAYER_RECONNECTED (playerId : string)
| PLAYER_DISCONNECTED (playerId : string)
| SETTINGS_UPDATED (settings : option GameSettings.patch)
    (facilitator name votingSystem : option string)
| COUNTDOWN_STARTED
| EMOJI_SENT (fromPlayerId toPlayerId emoji : string).
End SyncEvent.

Module WebSocketMessage.
Inductive type : Type := join | leave | sync_event | heartbeat | unknown.

Record t : Type := mk
  { kind : type;
    sessionId : option string;
    userId : option string;
    userName : option string;
    event : option SyncEvent.t;
    timestamp : Z }.
End WebSocketMessage.

Module ServerResponse.
Inductive type : Type :=
  joined | error | sync_event | heartbeat_ack | session_not_found.

Record t : Type := mk
  { kind : type;
    message : option string;
    event : option SyncEvent.t;
    session : option GameSession.t;
    timestamp : Z }.
End ServerResponse.

Module ConnectedPlayer.
Record t : Type := mk
  { ws : WebSocket.t;
    sessionId : string;
    userId : string;
    userName : string;
    lastHeartbeat : Z }.
End ConnectedPlayer.

(* ================================================================== *)
(** ** PlayerManager ([services/PlayerManager.ts]) *)
(* ================================================================== *)

Module PlayerManager.

Record t : Type := mk
  { connections : gmap string ConnectedPlayer.t;
    userToConnection : gmap string string }.

Definition empty : t := mk ∅ ∅.

(** [`${sessionId}:${userId}`] *)
Definition userKey (sessionId userId : string) : string :=
  sessionId +:+ ":" +:+ userId.

Definition addConnection (now : Z) (connectionId : string) (ws : WebSocket.t)
    (sessionId userId userName : string) (pm : t) : t :=
  let player := ConnectedPlayer.mk ws sessionId userId userName now in
  mk (<[connectionId := player]> (connections pm))
     (<[userKey sessionId userId := connectionId]> (userToConnection pm)).

Definition removeConnection (connectionId : string) (pm : t)
    : option ConnectedPlayer.t * t :=
  match connections pm !! connectionId with
  | Some player =>
      (Some player,
       mk (delete connectionId (connections pm))
          (delete (userKey (ConnectedPlayer.sessionId player)
                           (ConnectedPlayer.userId player))
                  (userToConnection pm)))
  | None => (None, pm)
  end.

Definition getConnection (connectionId : string) (pm : t)
    : option ConnectedPlayer.t :=
  connections pm !! connectionId.

Definition getConnectionsBySession (sessionId : string) (pm : t)
    : list ConnectedPlayer.t :=
  filter (λ player, ConnectedPlayer.sessionId player = sessionId)
         (map_to_list (connections pm)).*2.

Definition updateHeartbeat (now : Z) (connectionId : string) (pm : t)
    : bool * t :=
  match connections pm !! connectionId with
  | Some player =>
      (true,
       mk (<[connectionId :=
               ConnectedPlayer.mk (ConnectedPlayer.ws player)
                 (ConnectedPlayer.sessionId player)
                 (ConnectedPlayer.userId player)
                 (ConnectedPlayer.userName player) now]> (connections pm))
          (userToConnection pm))
  | None => (false, pm)
  end.

(** [now.getTime() - player.lastHeartbeat.getTime() > maxAge] *)
Definition stale (now maxAge : Z) (player : ConnectedPlayer.t) : bool :=
  bool_decide (now - ConnectedPlayer.lastHeartbeat player > maxAge)%Z.

(** 30 seconds, the default of [maxAge]. *)
Definition defaultMaxAge : Z := 30000.

(** The loop over [this.connections.entries()]: the state is the counter
    [cleaned], the manager and the [readyState] of the sockets. *)
Definition staleStep (now maxAge : Z)
    (acc : nat * t * (WebSocket.t → WebSocket.state))
    (entry : string * ConnectedPlayer.t)
    : nat * t * (WebSocket.t → WebSocket.state) :=
  let '(cleaned, pm, readyState) := acc in
  if stale now maxAge entry.2 then
    (S cleaned,
     (removeConnection entry.1 pm).2,
     if WebSocket.is_open (readyState (ConnectedPlayer.ws entry.2))
     then WebSocket.close (ConnectedPlayer.ws entry.2) readyState
     else readyState)
  else acc.

Definition cleanupStaleConnections (now maxAge : Z) (pm : t)
    (readyState : WebSocket.t → WebSocket.state)
    : nat * t * (WebSocket.t → WebSocket.state) :=
  foldl (staleStep now maxAge) (0, pm, readyState)
        (map_to_list (connections pm)).

Definition getAllConnections (pm : t) : list ConnectedPlayer.t :=
  (map_to_list (connections pm)).*2.

End PlayerManager.

(* ================================================================== *)
(** ** The router ([server.ts]) *)
(* ================================================================== *)

Module Server.

(** The two managers, the [readyState] of every socket, and the calls of
    [ws.send] so far, oldest first, each with the socket it was made on. *)
Record t : Type := mk
  { sessionManager : SessionManager.t;
    playerManager : PlayerManager.t;
    readyState : WebSocket.t → WebSocket.state;
    sent : list (WebSocket.t * ServerResponse.t) }.

(** [ws.send(JSON.stringify(response))] *)
Definition send (ws : WebSocket.t) (response : ServerResponse.t) (srv : t)
    : t :=
  mk (sessionManager srv) (playerManager srv) (readyState srv)
     (sent srv ++ [(ws, response)]).

Definition sendSessionNotFound (now : Z) (ws : WebSocket.t)
    (message : string) (srv : t) : t :=
  send ws (ServerResponse.mk ServerResponse.session_not_found
             (Some message) None None now) srv.

Definition sendError (now : Z) (ws : WebSocket.t) (message : string)
    (srv : t) : t :=
  send ws (ServerResponse.mk ServerResponse.error
             (Some message) None None now) srv.

(** [excludeConnectionId &&
     player.ws === playerManager.getConnection(excludeConnectionId)?.ws] *)
Definition excluded (excludeConnectionId : option string)
    (player : ConnectedPlayer.t) (pm : PlayerManager.t) : bool :=
  Js.truthy_str excludeConnectionId &&
  match excludeConnectionId ≫= (λ c, PlayerManager.getConnection c pm) with
  | Some other =>
      bool_decide (ConnectedPlayer.ws player = ConnectedPlayer.ws other)
  | None => false
  end.

(** The body of [connections.forEach(player => ...)]. *)
Definition broadcastStep (message : ServerResponse.t)
    (excludeConnectionId : option string) (srv : t)
    (player : ConnectedPlayer.t) : t :=
  if excluded excludeConnectionId player (playerManager srv) then srv
  else if WebSocket.is_open (readyState srv (ConnectedPlayer.ws player))
       then send (ConnectedPlayer.ws player) message srv
       else srv.

Definition broadcastToSession (sessionId : string)
    (message : ServerResponse.t) (excludeConnectionId : option string)
    (srv : t) : t :=
  foldl (broadcastStep message excludeConnectionId) srv
        (PlayerManager.getConnectionsBySession sessionId (playerManager srv)).

Definition syncEvent (now : Z) (event : SyncEvent.t) : ServerResponse.t :=
  ServerResponse.mk ServerResponse.sync_event None (Some event) None now.

Definition handleJoin (now : Z) (connectionId : string) (ws : WebSocket.t)
    (message : WebSocketMessage.t) (srv : t) : t :=
  match WebSocketMessage.sessionId message, WebSocketMessage.userId message,
        WebSocketMessage.userName message with
  | Some sessionId, Some userId, Some userName =>
      if negb (Js.truthy_str (Some sessionId)) ||
         negb (Js.truthy_str (Some userId)) ||
         negb (Js.truthy_str (Some userName))
      then sendError now ws "Missing required fields for join" srv
      else
        (* Add connection *)
        let pm :=
          PlayerManager.addConnection now connectionId ws sessionId userId
            userName (playerManager srv) in
        let srv := mk (sessionManager srv) pm (readyState srv) (sent srv) in
        match SessionManager.getSession sessionId (sessionManager srv) with
        | None => sendSessionNotFound now ws "Session not found" srv
        | Some _ =>
            (* Add player to session *)
            let '(success, sm) :=
              SessionManager.addPlayerToSession now sessionId
                (Player.mk userId userName None None None (Some true))
                (sessionManager srv) in
            let srv := mk sm pm (readyState srv) (sent srv) in
            if success then
              let session := SessionManager.getSession sessionId sm in
              let srv :=
                send ws (ServerResponse.mk ServerResponse.joined None None
                           session now) srv in
              broadcastToSession sessionId
                (syncEvent now
                   (SyncEvent.PLAYER_JOINED
                      (session ≫= λ s,
                         snd <$> list_find (λ p, Player.id p = userId)
                                   (GameSession.players s))))
                (Some connectionId) srv
            else sendError now ws "Failed to join session" srv
        end
  | _, _, _ => sendError now ws "Missing required fields for join" srv
  end.

(** The [switch (event.type)] of [handleSyncEvent]. *)
Definition applyEvent (uuid : string) (now : Z) (sessionId : string)
    (event : SyncEvent.t) (sm : SessionManager.t) : SessionManager.t :=
  match event with
  | SyncEvent.VOTE_SUBMITTED playerId vote =>
      (SessionManager.updatePlayerVote now sessionId playerId vote sm).2
  | SyncEvent.VOTING_STARTED issueName =>
      (SessionManager.startVoting uuid now sessionId issueName sm).2
  | SyncEvent.VOTES_REVEALED =>
      (SessionManager.revealVotes now sessionId sm).2
  | SyncEvent.SETTINGS_UPDATED settings facilitator name votingSystem =>
      (SessionManager.updateSessionSettings now sessionId settings
         facilitator name votingSystem sm).2
  | SyncEvent.PLAYER_LEFT leftPlayerId =>
      (SessionManager.removePlayerFromSession now sessionId leftPlayerId sm).2
  | _ => sm
  end.

Definition handleSyncEvent (uuid : string) (now : Z) (connectionId : string)
    (message : WebSocketMessage.t) (srv : t) : t :=
  match PlayerManager.getConnection connectionId (playerManager srv),
        WebSocketMessage.event message with
  | Some player, Some event =>
      let sessionId := ConnectedPlayer.sessionId player in
      let sm := applyEvent uuid now sessionId event (sessionManager srv) in
      (* Broadcast event to all players in session *)
      broadcastToSession sessionId (syncEvent now event) None
        (mk sm (playerManager srv) (readyState srv) (sent srv))
  | _, _ => srv
  end.

Definition handleHeartbeat (now : Z) (connectionId : string)
    (ws : WebSocket.t) (srv : t) : t :=
  let pm := (PlayerManager.updateHeartbeat now connectionId
               (playerManager srv)).2 in
  send ws (ServerResponse.mk ServerResponse.heartbeat_ack None None None now)
       (mk (sessionManager srv) pm (readyState srv) (sent srv)).

(** [handleLeave] and the [ws.on('close')] handler differ in the event they
    broadcast only. *)
Definition disconnect (notice : string → SyncEvent.t) (now : Z)
    (connectionId : string) (srv : t) : t :=
  match PlayerManager.removeConnection connectionId (playerManager srv) with
  | (Some player, pm) =>
      let sm :=
        (SessionManager.removePlayerFromSession now
           (ConnectedPlayer.sessionId player) (ConnectedPlayer.userId player)
           (sessionManager srv)).2 in
      broadcastToSession (ConnectedPlayer.sessionId player)
        (syncEvent now (notice (ConnectedPlayer.userId player))) None
        (mk sm pm (readyState srv) (sent srv))
  | (None, _) => srv
  end.

Definition handleLeave : Z → string → t → t :=
  disconnect SyncEvent.PLAYER_LEFT.

Definition onClose : Z → string → t → t :=
  disconnect SyncEvent.PLAYER_DISCONNECTED.

Definition handleMessage (uuid : string) (now : Z) (connectionId : string)
    (ws : WebSocket.t) (message : WebSocketMessage.t) (srv : t) : t :=
  match WebSocketMessage.kind message with
  | WebSocketMessage.join => handleJoin now connectionId ws message srv
  | WebSocketMessage.sync_event =>
      handleSyncEvent uuid now connectionId message srv
  | WebSocketMessage.heartbeat => handleHeartbeat now connectionId ws srv
  | WebSocketMessage.leave => handleLeave now connectionId srv
  | WebSocketMessage.unknown => sendError now ws "Unknown message type" srv
  end.

(** What socket [ws] was sent, oldest first. *)
Definition received (ws : WebSocket.t)
    (log : list (WebSocket.t * ServerResponse.t)) : list ServerResponse.t :=
  (filter (λ m, m.1 = ws) log).*2.

(** The [setInterval] callback. *)
Definition tick (now : Z) (srv : t) : t :=
  let '(staleConnections, pm, rs) :=
    PlayerManager.cleanupStaleConnections now PlayerManager.defaultMaxAge
      (playerManager srv) (readyState srv) in
  let '(inactiveSessions, sm) :=
    SessionManager.cleanupInactiveSessions now SessionManager.defaultMaxAge
      (sessionManager srv) in
  mk sm pm rs (sent srv).

(** [app.post('/sessions')] with the three body fields as strings: [None]
    is the 400 answer, [Some session] the created session. *)
Definition postSessions (uuid : string) (now : Z)
    (name facilitatorId facilitatorName : option string) (srv : t)
    : option GameSession.t * t :=
  match name, facilitatorId, facilitatorName with
  | Some name, Some facilitatorId, Some facilitatorName =>
      if negb (Js.truthy_str (Some name)) ||
         negb (Js.truthy_str (Some facilitatorId)) ||
         negb (Js.truthy_str (Some facilitatorName))
      then (None, srv)
      else
        let '(session, sm) :=
          SessionManager.createSession uuid now name facilitatorId
            facilitatorName (sessionManager srv) in
        (Some session, mk sm (playerManager srv) (readyState srv) (sent srv))
  | _, _, _ => (None, srv)
  end.

(** One row of the answer of [app.get('/sessions')]. *)
Record summary : Type := mkSummary
  { id : string;
    name : string;
    playerCount : nat;
    lastActivity : Z }.

Definition getSessions (srv : t) : list summary :=
  (λ session,
     mkSummary (GameSession.id session) (GameSession.name session)
       (length (filter (λ p, Player.isOnline p = Some true)
                       (GameSession.players session)))
       (GameSession.lastActivity session))
  <$> SessionManager.getAllSessions (sessionManager srv).

(** What the process reacts to: a frame on a socket (parsed, or not
    parsable), the close of a socket, the timer, a POST on /sessions, and a
    socket changing its [readyState]. *)
Inductive input : Type :=
| Message (uuid : string) (now : Z) (connectionId : string)
    (ws : WebSocket.t) (message : WebSocketMessage.t)
| Malformed (now : Z) (ws : WebSocket.t)
| Closed (now : Z) (connectionId : string)
| Tick (now : Z)
| Post (uuid : string) (now : Z)
    (name facilitatorId facilitatorName : option string)
| ReadyState (ws : WebSocket.t) (state : WebSocket.state).

Definition react (srv : t) (i : input) : t :=
  match i with
  | Message uuid now connectionId ws message =>
      handleMessage uuid now connectionId ws message srv
  | Malformed now ws => sendError now ws "Invalid message format" srv
  | Closed now connectionId => onClose now connectionId srv
  | Tick now => tick now srv
  | Post uuid now name facilitatorId facilitatorName =>
      (postSessions uuid now name facilitatorId facilitatorName srv).2
  | ReadyState ws state =>
      mk (sessionManager srv) (playerManager srv)
         (λ w, if decide (w = ws) then state else readyState srv w)
         (sent srv)
  end.

(** The process after a sequence of inputs. *)
Definition run (inputs : list input) (srv : t) : t := foldl react srv inputs.

(** The process at start: no session, no connection, nothing sent. *)
Definition initial (readyState : WebSocket.t → WebSocket.state) : t :=
  mk ∅ PlayerManager.empty readyState [].

End Server.

(* ================================================================== *)
(** ** The reveal of the client store ([src/lib/realtime.ts]) *)
(* ================================================================== *)

Module Store.

(** [{ average: number; hasAgreement: boolean }] *)
Record results : Type := mkResults
  { average : float;
    hasAgreement : bool }.

Definition calculateResults (session : option GameSession.t) : results :=
  match session ≫= GameSession.currentVote with
  | None => mkResults 0 false
  | Some currentVote =>
      let votes := Js.values (VotingRound.votes currentVote) in
      let numericVotes := Js.numbers votes in
      match numericVotes with
      | [] => mkResults 0 false
      | x0 :: _ =>
          mkResults
            (PrimFloat.div (fold_left PrimFloat.add numericVotes 0%float)
                           (Js.of_length (length numericVotes)))
            (bool_decide (0 < length numericVotes) &&
             forallb (λ vote, PrimFloat.eqb vote x0) numericVotes)
      end
  end.

(** The [session] slice of the store after [revealVotes]. *)
Definition revealVotes (now : Z) (session : option GameSession.t)
    : option GameSession.t :=
  match session with
  | None => None
  | Some s =>
      match GameSession.currentVote s with
      | None => Some s
      | Some currentVote =>
          let results := calculateResults session in
          let updatedCurrentVote :=
            VotingRound.mk (VotingRound.id currentVote)
              (VotingRound.issueName currentVote)
              (VotingRound.votes currentVote)
              (VotingRound.startTime currentVote)
              (Some now) true
              (Some (average results)) (Some (hasAgreement results)) in
          Some (GameSession.mk (GameSession.id s) (GameSession.name s)
                  (GameSession.facilitator s) (GameSession.votingSystem s)
                  (GameSession.players s) (Some updatedCurrentVote)
                  (GameSession.settings s)
                  (GameSession.history s ++ [updatedCurrentVote])
                  (GameSession.createdAt s) (GameSession.lastActivity s)
                  (GameSession.shared s))
      end
  end.

(** The [session] slice of the store after [startVoting]: [uuid] is the
    [generateUserId()] drawn for the round. *)
Definition startVoting (uuid : string) (now : Z) (issueName : option string)
    (session : option GameSession.t) : option GameSession.t :=
  match session with
  | None => None
  | Some s =>
      let newVotingRound :=
        VotingRound.mk uuid issueName [] now None false None None in
      Some (GameSession.mk (GameSession.id s) (GameSession.name s)
              (GameSession.facilitator s) (GameSession.votingSystem s)
              (map SessionManager.clearVote (GameSession.players s))
              (Some newVotingRound)
              (GameSession.settings s) (GameSession.history s)
              (GameSession.createdAt s) (GameSession.lastActivity s)
              (GameSession.shared s))
  end.

(** [players.map(p => p.id === playerId ? f(p) : p)] *)
Definition mapPlayer (playerId : string) (f : Player.t → Player.t)
    (players : list Player.t) : list Player.t :=
  map (λ p, if decide (Player.id p = playerId) then f p else p) players.

(** [{ ...session, players }] *)
Definition with_players (players : list Player.t) (s : GameSession.t)
    : GameSession.t :=
  GameSession.mk (GameSession.id s) (GameSession.name s)
    (GameSession.facilitator s) (GameSession.votingSystem s) players
    (GameSession.currentVote s) (GameSession.settings s)
    (GameSession.history s) (GameSession.createdAt s)
    (GameSession.lastActivity s) (GameSession.shared s).

(** The handler the store registers with [sync.onEvent], on the [session]
    slice. The outer [None] stands for a PLAYER_JOINED event that carries
    no player, which the event type rules out: the handler then throws on
    [newPlayer.id] if the roster is not empty and appends [undefined] to an
    empty one. *)
Definition onEvent (uuid : string) (now : Z) (event : SyncEvent.t)
    (session : option GameSession.t) : option (option GameSession.t) :=
  match session with
  | None => Some None
  | Some s =>
      match event with
      | SyncEvent.PLAYER_JOINED None => None
      | SyncEvent.PLAYER_JOINED (Some newPlayer) =>
          match list_find (λ p, Player.id p = Player.id newPlayer)
                  (GameSession.players s) with
          | None =>
              Some (Some (with_players (GameSession.players s ++ [newPlayer])
                            s))
          | Some _ => Some (Some s)
          end
      | SyncEvent.PLAYER_LEFT playerId
      | SyncEvent.PLAYER_DISCONNECTED playerId =>
          Some (Some (with_players
                        (mapPlayer playerId (Player.with_isOnline false)
                           (GameSession.players s)) s))
      | SyncEvent.VOTE_SUBMITTED playerId vote =>
          Some (Some
            (GameSession.mk (GameSession.id s) (GameSession.name s)
               (GameSession.facilitator s) (GameSession.votingSystem s)
               (mapPlayer playerId (SessionManager.castVote vote)
                  (GameSession.players s))
               (match GameSession.currentVote s with
                | Some r =>
                    Some (VotingRound.mk (VotingRound.id r)
                            (VotingRound.issueName r)
                            (Js.prop_define playerId vote (VotingRound.votes r))
                            (VotingRound.startTime r) (VotingRound.endTime r)
                            (VotingRound.isRevealed r) (VotingRound.average r)
                            (VotingRound.hasAgreement r))
                | None => None
                end)
               (GameSession.settings s) (GameSession.history s)
               (GameSession.createdAt s) (GameSession.lastActivity s)
               (GameSession.shared s)))
      | SyncEvent.VOTING_STARTED issueName =>
          Some (startVoting uuid now issueName session)
      | SyncEvent.VOTES_REVEALED => Some (revealVotes now session)
      | SyncEvent.SESSION_UPDATED updatedSessionData =>
          Some (Some updatedSessionData)
      | SyncEvent.PLAYER_RECONNECTED playerId =>
          Some (Some (with_players
                        (mapPlayer playerId (Player.with_isOnline true)
                           (GameSession.players s)) s))
      | SyncEvent.SETTINGS_UPDATED settings facilitator name votingSystem =>
          let pick (new : option string) (old : string) : string :=
            if Js.truthy_str new then default old new else old in
          Some (Some
            (GameSession.mk (GameSession.id s)
               (pick name (GameSession.name s))
               (pick facilitator (GameSession.facilitator s))
               (pick votingSystem (GameSession.votingSystem s))
               (GameSession.players s) (GameSession.currentVote s)
               (match settings with
                | Some p => GameSettings.merge (GameSession.settings s) p
                | None => GameSession.settings s
                end)
               (GameSession.history s) (GameSession.createdAt s)
               (GameSession.lastActivity s) (GameSession.shared s)))
      | SyncEvent.COUNTDOWN_STARTED
      | SyncEvent.EMOJI_SENT _ _ _ => Some (Some s)
      end
  end.

(** What the client's copy of a session and the session of the registry
    agree on when they are in step. A roster record: all but
    [isCurrentUser], which only the client sets. A round: all but the id and
    the start and end times, which each side draws and reads for itself. A
    session: id, name, facilitator, voting system, settings, the roster
    record by record, and the current round. *)
Definition samePlayer (client server : Player.t) : Prop :=
  Player.id client = Player.id server
  ∧ Player.name client = Player.name server
  ∧ Player.vote client = Player.vote server
  ∧ Player.hasVoted client = Player.hasVoted server
  ∧ Player.isOnline client = Player.isOnline server.

Definition sameRound (client server : VotingRound.t) : Prop :=
  VotingRound.issueName client = VotingRound.issueName server
  ∧ VotingRound.votes client = VotingRound.votes server
  ∧ VotingRound.isRevealed client = VotingRound.isRevealed server
  ∧ VotingRound.average client = VotingRound.average server
  ∧ VotingRound.hasAgreement client = VotingRound.hasAgreement server.

Definition inStep (client server : GameSession.t) : Prop :=
  GameSession.id client = GameSession.id server
  ∧ GameSession.name client = GameSession.name server
  ∧ GameSession.facilitator client = GameSession.facilitator server
  ∧ GameSession.votingSystem client = GameSession.votingSystem server
  ∧ GameSession.settings client = GameSession.settings server
  ∧ Forall2 samePlayer (GameSession.players client)
      (GameSession.players server)
  ∧ option_Forall2 sameRound (GameSession.currentVote client)
      (GameSession.currentVote server).

Section names.
(** [String.prototype.toLowerCase] *)
Variable toLowerCase : string → string.

(** [players.some(p => p.name.toLowerCase() === name.toLowerCase())] *)
Definition nameExists (name : string) (players : list Player.t) : bool :=
  existsb (λ p, bool_decide (toLowerCase (Player.name p) = toLowerCase name))
          players.

(** The [session] slice of the store after [addPlayer], or the message of
    the Error it throws; [playerId] is the [generateUserId()] drawn. *)
Definition addPlayer (playerId : string) (name : string)
    (session : option GameSession.t) : string + option GameSession.t :=
  match session with
  | None => inr None
  | Some s =>
      if bool_decide (10 ≤ length (GameSession.players s))
      then inl "Session is full (maximum 10 players)"
      else if nameExists name (GameSession.players s)
      then inl "A player with this name already exists"
      else
        let newPlayer :=
          Player.mk playerId name None None None (Some true) in
        inr (Some (with_players (GameSession.players s ++ [newPlayer]) s))
  end.

(** [joinSession] of the session library: the updated session and the id
    drawn for the participant, or the message of the Error it throws. *)
Definition joinSession (playerId : string) (session : GameSession.t)
    (playerName : string) : string + GameSession.t * string :=
  if bool_decide (10 ≤ length (GameSession.players session))
  then inl "Session is full (maximum 10 players)"
  else if nameExists playerName (GameSession.players session)
  then inl "A player with this name already exists in the session"
  else
    let newPlayer :=
      Player.mk playerId playerName None (Some true) None (Some true) in
    inr (with_players (GameSession.players session ++ [newPlayer]) session,
         playerId).

End names.

End Store.

(* ================================================================== *)
(** ** Reconnection of the client ([WebSocketRealTimeSync] of
       [src/lib/realtime.ts]) *)
(* ================================================================== *)

Module WebSocketRealTimeSync.

Inductive ConnectionStatus : Type :=
  disconnected | connecting | connected | error.

(** The fields [handleReconnection] reads and writes. *)
Record t : Type := mk
  { status : ConnectionStatus;
    reconnectAttempts : Z;
    lastReconnectTime : Z }.

Definition maxReconnectAttempts : Z := 5.
Definition minReconnectInterval : Z := 5000.

(** [Math.max(5000, Math.min(1000 * Math.pow(2, attempts), 30000))]. For a
    count [attempts ≥ 0] the product is either an integer that binary64
    holds exactly or larger than 30000, so the integer computation gives
    the number the source computes. *)
Definition delay (attempts : Z) : Z :=
  Z.max 5000 (Z.min (1000 * 2 ^ attempts) 30000).

(** [handleReconnection] called when the clock reads [now]: the fields
    after the call and, if a reconnection was scheduled, the delay of its
    timer. *)
Definition handleReconnection (now : Z) (sync : t) : t * option Z :=
  if bool_decide (now - lastReconnectTime sync < minReconnectInterval)%Z
  then (sync, None)
  else if bool_decide (reconnectAttempts sync >= maxReconnectAttempts)%Z
  then (mk error (reconnectAttempts sync) (lastReconnectTime sync), None)
  else
    let attempts := (reconnectAttempts sync + 1)%Z in
    (mk connecting attempts now, Some (delay attempts)).

(** [ws.onopen]: the status and the two counters. *)
Definition onopen (sync : t) : t := mk connected 0 0.

(** [handleReconnection] called once per clock reading of [times], in
    order: the fields at the end and the reconnections scheduled, oldest
    first, each as the clock reading of its call and the delay of its
    timer. *)
Definition reconnections (times : list Z) (sync : t) : t * list (Z * Z) :=
  foldl (λ acc now,
           let r := handleReconnection now acc.1 in
           (r.1,
            acc.2 ++ match r.2 with Some d => [(now, d)] | None => [] end))
        (sync, []) times.

End WebSocketRealTimeSync.

(* ================================================================== *)
(** ** A session played through the registry, used in the examples *)
(* ================================================================== *)

Module Sample.

Definition bob : Player.t := Player.mk "bob" "Bob" None None None (Some true).

(** Alice creates "Sprint 4" ... *)
Definition created : SessionManager.t :=
  (SessionManager.createSession "s1" 0 "Sprint 4" "alice" "Alice" ∅).2.

(** ... Bob joins ... *)
Definition joined : SessionManager.t :=
  (SessionManager.addPlayerToSession 1 "s1" bob created).2.

(** ... Alice starts a round on "Login bug" ... *)
Definition started : SessionManager.t :=
  (SessionManager.startVoting "r1" 2 "s1" (Some "Login bug") joined).2.

(** ... Alice votes 3, Bob votes 5 ... *)
Definition voted : SessionManager.t :=
  (SessionManager.updatePlayerVote 4 "s1" "bob" (Js.VNum 5)
     (SessionManager.updatePlayerVote 3 "s1" "alice" (Js.VNum 3) started).2).2.

(** ... and the round is revealed. *)
Definition revealedOnce : SessionManager.t :=
  (SessionManager.revealVotes 5 "s1" voted).2.

(** Alice and Bob both vote 5 and the round is revealed ... *)
Definition agreed : SessionManager.t :=
  (SessionManager.revealVotes 5 "s1"
     (SessionManager.updatePlayerVote 4 "s1" "bob" (Js.VNum 5)
        (SessionManager.updatePlayerVote 3 "s1" "alice" (Js.VNum 5)
           started).2).2).2.

(** ... then both change their vote to "?" and the round is revealed
    again. *)
Definition abstained : SessionManager.t :=
  (SessionManager.revealVotes 8 "s1"
     (SessionManager.updatePlayerVote 7 "s1" "bob" (Js.VStr "?")
        (SessionManager.updatePlayerVote 6 "s1" "alice" (Js.VStr "?")
           agreed).2).2).2.

(** A round with the given votes, as [startVoting] and [updatePlayerVote]
    leave it. *)
Definition roundOf (votes : Js.object Js.value) : VotingRound.t :=
  VotingRound.mk "r" None votes 0 None false None None.

(** A server holding the session of [joined], no connection yet, every
    socket open. *)
Definition server0 : Server.t :=
  Server.mk joined PlayerManager.empty (λ _, WebSocket.OPEN) [].

Definition joinMessage (sessionId userId userName : string)
    : WebSocketMessage.t :=
  WebSocketMessage.mk WebSocketMessage.join
    (Some sessionId) (Some userId) (Some userName) None 0.

Definition eventMessage (event : SyncEvent.t) : WebSocketMessage.t :=
  WebSocketMessage.mk WebSocketMessage.sync_event None None None
    (Some event) 0.

(** Alice joins on connection c1 (socket 1), Bob on c2 (socket 2), and a
    round is started from c1. *)
Definition server2 : Server.t :=
  Server.handleSyncEvent "r1" 12 "c1"
    (eventMessage (SyncEvent.VOTING_STARTED None))
    (Server.handleJoin 11 "c2" 2 (joinMessage "s1" "bob" "Bob")
       (Server.handleJoin 10 "c1" 1 (joinMessage "s1" "alice" "Alice")
          server0)).

(** Socket [ws] leaves the OPEN state; its 'close' event has not been
    handled yet. *)
Definition closing (ws : WebSocket.t) (srv : Server.t) : Server.t :=
  Server.mk (Server.sessionManager srv) (Server.playerManager srv)
    (λ w, if decide (w = ws) then WebSocket.CLOSING
          else Server.readyState srv w)
    (Server.sent srv).

End Sample.

(* ================================================================== *)
(** * Properties *)
(* ================================================================== *)

(** ** Lists and objects *)

Section list_find_facts.
Context {A : Type} (P : A → Prop) `{!∀ x, Decision (P x)}.

Lemma list_find_insert_other (l : list A) (i : nat) (x y : A) :
  l !! i = Some x → ¬ P x → ¬ P y →
  list_find P (<[i := y]> l) = list_find P l.
Proof.
  revert i. induction l as [|z l IH]; intros [|i] Hi Hx Hy; simplify_eq/=.
  - by rewrite !decide_False.
  - by rewrite IH.
Qed.

Lemma list_find_snoc_other (l : list A) (y : A) :
  ¬ P y → list_find P (l ++ [y]) = list_find P l.
Proof.
  intros Hy. induction l as [|z l IH]; simpl.
  - by rewrite decide_False.
  - by rewrite IH.
Qed.

Lemma list_find_insert_here (l : list A) (i : nat) (x y : A) :
  list_find P l = Some (i, x) → P y →
  list_find P (<[i := y]> l) = Some (i, y).
Proof.
  intros (Hi & _ & Hleast)%list_find_Some Hy. apply list_find_Some.
  split_and!; [|done|].
  - apply list_lookup_insert_eq. by eapply lookup_lt_Some.
  - intros j z Hj Hlt. rewrite list_lookup_insert_ne in Hj by lia. eauto.
Qed.

Lemma list_find_snoc_here (l : list A) (y : A) :
  list_find P l = None → P y →
  list_find P (l ++ [y]) = Some (length l, y).
Proof.
  intros Hnone Hy. rewrite list_find_app_r by done. simpl.
  by rewrite decide_True.
Qed.

End list_find_facts.

Section object_facts.
Context {A : Type}.
Implicit Types (o : Js.object A) (k : string) (v : A).

Lemma insert_index_Permutation (n : N) (kv : string * A) o :
  Js.insert_index n kv o ≡ₚ kv :: o.
Proof.
  induction o as [|kv' o IH]; [done|]. cbn [Js.insert_index].
  destruct (Js.array_index kv'.1) as [n'|]; [|done].
  destruct (n' <? n)%N; [|done]. rewrite IH. apply Permutation_swap.
Qed.

Lemma prop_create_Permutation k v o : Js.prop_create k v o ≡ₚ (k, v) :: o.
Proof.
  unfold Js.prop_create. destruct (Js.array_index k).
  - apply insert_index_Permutation.
  - by rewrite Permutation_app_comm.
Qed.


(** Where the new property is found, and that a write to it keeps its
    place. *)
Lemma list_find_insert_index (n : N) k v o :
  list_find (λ kv, kv.1 = k) o = None →
  ∃ i,
    list_find (λ kv, kv.1 = k) (Js.insert_index n (k, v) o) = Some (i, (k, v))
    ∧ ∀ v', <[i := (k, v')]> (Js.insert_index n (k, v) o)
            = Js.insert_index n (k, v') o.
Proof.
  induction o as [|kv' o IH]; intros Hnone.
  - exists 0. cbn. by rewrite decide_True.
  - cbn [list_find] in Hnone.
    destruct (decide (kv'.1 = k)) as [|Hk]; [done|].
    destruct (list_find _ o) as [[]|] eqn:Ho; [done|].
    cbn [Js.insert_index].
    destruct (Js.array_index kv'.1) as [n'|];
      [destruct (n' <? n)%N|];
      try (exists 0; cbn; by rewrite decide_True).
    destruct (IH eq_refl) as (i & Hfind & Hwrite). exists (S i).
    cbn [list_find]. rewrite decide_False by done. rewrite Hfind.
    split; [done|]. intros v'. cbn. by rewrite Hwrite.
Qed.

Lemma list_find_prop_create k v o :
  list_find (λ kv, kv.1 = k) o = None →
  ∃ i,
    list_find (λ kv, kv.1 = k) (Js.prop_create k v o) = Some (i, (k, v))
    ∧ ∀ v', <[i := (k, v')]> (Js.prop_create k v o) = Js.prop_create k v' o.
Proof.
  intros Hnone. unfold Js.prop_create.
  destruct (Js.array_index k) as [n|]; [by apply list_find_insert_index|].
  exists (length o). split; [by apply list_find_snoc_here|].
  intros v'. rewrite insert_app_r_alt by done. by rewrite Nat.sub_diag.
Qed.

Lemma list_find_insert_index_other (Q : string * A → Prop)
    `{!∀ x, Decision (Q x)} (n : N) (kv : string * A) o :
  ¬ Q kv →
  snd <$> list_find Q (Js.insert_index n kv o) = snd <$> list_find Q o.
Proof.
  intros Hkv. induction o as [|kv' o IH].
  - cbn. by rewrite decide_False.
  - assert (snd <$> list_find Q (kv :: kv' :: o)
            = snd <$> list_find Q (kv' :: o)) as Hskip.
    { cbn [list_find]. rewrite (decide_False (P := Q kv)) by done.
      destruct (decide (Q kv')); [done|].
      destruct (list_find Q o) as [[]|]; done. }
    cbn [Js.insert_index].
    destruct (Js.array_index kv'.1) as [n'|]; [|done].
    destruct (n' <? n)%N; [|done].
    cbn [list_find]. destruct (decide (Q kv')); [done|].
    destruct (list_find Q (Js.insert_index n kv o)) as [[]|],
      (list_find Q o) as [[]|]; cbn in *; congruence.
Qed.

Lemma prop_get_create_ne k k' v o :
  k' ≠ k → Js.prop_get k' (Js.prop_create k v o) = Js.prop_get k' o.
Proof.
  intros Hne. unfold Js.prop_get, Js.prop_create. f_equal.
  destruct (Js.array_index k).
  - by apply (list_find_insert_index_other (λ kv, kv.1 = k')).
  - rewrite (list_find_snoc_other (λ kv, kv.1 = k')); naive_solver.
Qed.

Lemma prop_get_None k o :
  Js.prop_get k o = None ↔ list_find (λ kv, kv.1 = k) o = None.
Proof.
  unfold Js.prop_get. by destruct (list_find _ o) as [[]|].
Qed.

Lemma prop_set_define k v o :
  k ≠ "__proto__" ∨ is_Some (Js.prop_get k o) →
  Js.prop_set k v o = Js.prop_define k v o.
Proof.
  unfold Js.prop_set, Js.prop_define.
  destruct (list_find _ o) as [[]|] eqn:Hfind; [done|].
  intros [Hk|[x Hx]].
  - by rewrite decide_False.
  - apply prop_get_None in Hfind. congruence.
Qed.

(** A string or number assigned to ["__proto__"] is not stored. *)
Lemma prop_set_proto v o :
  Js.prop_get "__proto__" o = None → Js.prop_set "__proto__" v o = o.
Proof.
  intros Hnone%prop_get_None. unfold Js.prop_set. by rewrite Hnone.
Qed.

Lemma prop_get_define_eq k v o :
  Js.prop_get k (Js.prop_define k v o) = Some v.
Proof.
  unfold Js.prop_get, Js.prop_define.
  destruct (list_find _ o) as [[i kv]|] eqn:Hfind.
  - by erewrite list_find_insert_here.
  - destruct (list_find_prop_create k v o Hfind) as (i & -> & _). done.
Qed.

Lemma prop_get_define_ne k k' v o :
  k' ≠ k → Js.prop_get k' (Js.prop_define k v o) = Js.prop_get k' o.
Proof.
  intros Hne. unfold Js.prop_define.
  destruct (list_find (λ kv, kv.1 = k) o) as [[i kv]|] eqn:Hfind.
  - apply list_find_Some in Hfind as (Hi & Hk & _). unfold Js.prop_get.
    erewrite (list_find_insert_other (λ kv, kv.1 = k')); naive_solver.
  - by apply prop_get_create_ne.
Qed.

Lemma prop_define_define k v1 v2 o :
  Js.prop_define k v2 (Js.prop_define k v1 o) = Js.prop_define k v2 o.
Proof.
  unfold Js.prop_define at 2 3.
  destruct (list_find _ o) as [[i kv]|] eqn:Hfind.
  - unfold Js.prop_define. erewrite list_find_insert_here; [|done..].
    by rewrite list_insert_insert_eq.
  - destruct (list_find_prop_create k v1 o Hfind) as (i & Hi & Hwrite).
    unfold Js.prop_define. rewrite Hi. apply Hwrite.
Qed.

Lemma prop_get_set_eq k v o :
  k ≠ "__proto__" ∨ is_Some (Js.prop_get k o) →
  Js.prop_get k (Js.prop_set k v o) = Some v.
Proof.
  intros Hk. rewrite prop_set_define by done. apply prop_get_define_eq.
Qed.

Lemma prop_get_set_ne k k' v o :
  k' ≠ k → Js.prop_get k' (Js.prop_set k v o) = Js.prop_get k' o.
Proof.
  intros Hne. unfold Js.prop_set.
  destruct (list_find (λ kv, kv.1 = k) o) as [[i kv]|] eqn:Hfind.
  - apply list_find_Some in Hfind as (Hi & Hk & _). unfold Js.prop_get.
    erewrite (list_find_insert_other (λ kv, kv.1 = k')); naive_solver.
  - case_decide; [done|]. by apply prop_get_create_ne.
Qed.

End object_facts.

Lemma prop_get_delete_eq {A} (k : string) (o : Js.object A) :
  Js.prop_get k (Js.prop_delete k o) = None.
Proof.
  unfold Js.prop_get, Js.prop_delete.
  rewrite (proj2 (list_find_None _ _)); [done|].
  apply Forall_forall. intros kv [Hk _]%list_elem_of_filter. naive_solver.
Qed.


Lemma elem_of_numbers (n : float) (vs : list Js.value) :
  n ∈ Js.numbers vs ↔ Js.VNum n ∈ vs.
Proof.
  induction vs as [|[s|m] vs IH]; simpl.
  - by rewrite !elem_of_nil.
  - rewrite IH, elem_of_cons. split; [by right|]. by intros [?|?].
  - rewrite !elem_of_cons, IH. split; (intros [Heq|?]; [left|by right]);
      congruence.
Qed.

(** ** startVoting *)



(** ** addPlayerToSession *)

(** C7. On an existing session, [addPlayerToSession] with an id already in the
    roster overwrites the first record with that id by the given one with
    [isOnline] forced to [true]; the roster keeps its length and its sequence
    of ids. With a new id the record is appended. [lastActivity] is refreshed
    in both cases. *)
Theorem addPlayerToSession_rejoin (now : Z) (sid : string) (player : Player.t)
    (sessions : SessionManager.t) (s : GameSession.t) :
  sessions !! sid = Some s →
  ∃ s' p',
    SessionManager.addPlayerToSession now sid player sessions
      = (true, <[sid := s']> sessions)
    ∧ GameSession.lastActivity s' = now
    ∧ Player.id p' = Player.id player
    ∧ Player.name p' = Player.name player
    ∧ Player.vote p' = Player.vote player
    ∧ Player.hasVoted p' = Player.hasVoted player
    ∧ Player.isOnline p' = Some true
    ∧ ((∃ p, p ∈ GameSession.players s ∧ Player.id p = Player.id player) →
       ∃ i old,
         GameSession.players s !! i = Some old
         ∧ Player.id old = Player.id player
         ∧ (∀ j q, GameSession.players s !! j = Some q → j < i →
                   Player.id q ≠ Player.id player)
         ∧ GameSession.players s' = <[i := p']> (GameSession.players s)
         ∧ GameSession.players s' !! i = Some p'
         ∧ length (GameSession.players s') = length (GameSession.players s)
         ∧ (Player.id <$> GameSession.players s')
             = (Player.id <$> GameSession.players s))
    ∧ ((∀ p, p ∈ GameSession.players s → Player.id p ≠ Player.id player) →
       GameSession.players s' = GameSession.players s ++ [p']).
Proof.
  intros Hs. unfold SessionManager.addPlayerToSession. rewrite Hs.
  eexists _, (Player.with_isOnline true player).
  split; [reflexivity|]. simpl. split_and!; try done.
  - intros (p & Hp & Hid).
    destruct (list_find _ (GameSession.players s)) as [[i old]|] eqn:Hfind.
    + apply list_find_Some in Hfind as (Hi & Hold & Hleast).
      exists i, old. split_and!; try done.
      * apply list_lookup_insert_eq. by eapply lookup_lt_Some.
      * by rewrite length_insert.
      * rewrite list_fmap_insert. simpl. apply list_insert_id.
        by rewrite list_lookup_fmap, Hi, <- Hold.
    + apply list_find_None in Hfind.
      rewrite Forall_forall in Hfind. by destruct (Hfind p Hp).
  - intros Hfresh.
    destruct (list_find _ (GameSession.players s)) as [[i old]|] eqn:Hfind;
      [|done].
    apply list_find_Some in Hfind as (Hi & Hold & _).
    destruct (Hfresh old); [by eapply list_elem_of_lookup_2|done].
Qed.

Lemma addPlayerToSession_rejoin_witness :
  ∃ s',
    (SessionManager.addPlayerToSession 7 "s1"
       (Player.mk "bob" "Robert" None None None None) Sample.voted).2 !! "s1"
      = Some s'
    ∧ GameSession.lastActivity s' = 7%Z
    ∧ length (GameSession.players s') = 2.
Proof.
  edestruct (addPlayerToSession_rejoin 7 "s1"
               (Player.mk "bob" "Robert" None None None None) Sample.voted)
    as (s' & p' & Heq & Hact & _ & _ & _ & _ & _ & Hre & _).
  - vm_compute. reflexivity.
  - destruct Hre as (i & old & _ & _ & _ & _ & _ & Hlen & _).
    + eexists. split.
      * apply list_elem_of_lookup. exists 1. vm_compute. reflexivity.
      * reflexivity.
    + exists s'. rewrite Heq. simpl. rewrite lookup_insert_eq.
      rewrite Hlen. split_and!; [done..|]. vm_compute. reflexivity.
Defined.

(** ** updatePlayerVote *)

(** C1, as the claim states it, fails: a vote on a revealed round is accepted
    and changes the round. Bob's 5 in the revealed round of [Sample] becomes
    ["?"]. *)
Lemma updatePlayerVote_accepts_revealed_round :
  VotingRound.isRevealed <$> SessionManager.currentRound "s1" Sample.revealedOnce
    = Some true
  ∧ VotingRound.votes <$> SessionManager.currentRound "s1" Sample.revealedOnce
    = Some [("alice", Js.VNum 3); ("bob", Js.VNum 5)]
  ∧ (SessionManager.updatePlayerVote 6 "s1" "bob" (Js.VStr "?")
       Sample.revealedOnce).1 = true
  ∧ VotingRound.votes <$>
      SessionManager.currentRound "s1"
        (SessionManager.updatePlayerVote 6 "s1" "bob" (Js.VStr "?")
           Sample.revealedOnce).2
    = Some [("alice", Js.VNum 3); ("bob", Js.VStr "?")].
Proof. vm_compute. by split_and!. Qed.

Lemma length_writeThrough (cv : option VotingRound.t) (n : nat)
    (h : list VotingRound.t) :
  length (SessionManager.writeThrough cv n h) = length h.
Proof.
  destruct cv as [r|]; [|done]. unfold SessionManager.writeThrough.
  rewrite length_app, length_fmap, length_take, length_drop. lia.
Qed.

Lemma writeThrough_lookup (r : VotingRound.t) (n : nat)
    (h : list VotingRound.t) (i : nat) (e : VotingRound.t) :
  h !! i = Some e →
  SessionManager.writeThrough (Some r) n h !! i
  = Some (if decide (i < length h - n) then e
          else SessionManager.with_votes (VotingRound.votes r) e).
Proof.
  intros He. unfold SessionManager.writeThrough.
  pose proof (lookup_lt_Some _ _ _ He) as Hi.
  destruct (decide (i < length h - n)) as [Hlt|Hge].
  - rewrite lookup_app_l by (rewrite length_take; lia).
    by rewrite lookup_take_lt.
  - rewrite lookup_app_r by (rewrite length_take; lia).
    rewrite length_take, list_lookup_fmap, lookup_drop.
    match goal with
    | |- context [h !! ?j] => replace j with i by lia
    end.
    by rewrite He.
Qed.

Lemma writeThrough_writeThrough (r1 r2 : VotingRound.t) (n : nat)
    (h : list VotingRound.t) :
  SessionManager.writeThrough (Some r2) n
    (SessionManager.writeThrough (Some r1) n h)
  = SessionManager.writeThrough (Some r2) n h.
Proof.
  apply list_eq. intros i.
  destruct (h !! i) as [e|] eqn:He.
  - erewrite !writeThrough_lookup; [|done|by erewrite writeThrough_lookup].
    rewrite length_writeThrough. by case_decide.
  - rewrite !(proj2 (lookup_ge_None _ _)); [done|..];
      rewrite ?length_writeThrough; by apply lookup_ge_None.
Qed.

(** C1, amended. On an existing session [updatePlayerVote] fails exactly when
    there is no current round, and then the registry is returned as it was.
    With a current round, revealed or not, it succeeds: the vote is stored
    under the participant id in the round's votes map, except for the id
    ["__proto__"], under which the assignment stores nothing; the other
    entries and the revealed flag are kept; the first roster record with
    that id, if any, gets [vote] and [hasVoted = true]; [lastActivity] is
    refreshed. The history keeps its entries; the copies of this round on
    it, which hold the round's own votes object, show the votes as they are
    now. *)
Theorem updatePlayerVote_spec (now : Z) (sid pid : string) (vote : Js.value)
    (sessions : SessionManager.t) (s : GameSession.t) :
  sessions !! sid = Some s →
  (GameSession.currentVote s = None →
     SessionManager.updatePlayerVote now sid pid vote sessions
       = (false, sessions))
  ∧ (∀ r, GameSession.currentVote s = Some r →
     ∃ s' r',
       SessionManager.updatePlayerVote now sid pid vote sessions
         = (true, <[sid := s']> sessions)
       ∧ GameSession.currentVote s' = Some r'
       ∧ (pid ≠ "__proto__" →
            Js.prop_get pid (VotingRound.votes r') = Some vote)
       ∧ (pid = "__proto__" →
            Js.prop_get pid (VotingRound.votes r) = None →
            VotingRound.votes r' = VotingRound.votes r)
       ∧ (∀ k, k ≠ pid →
            Js.prop_get k (VotingRound.votes r')
              = Js.prop_get k (VotingRound.votes r))
       ∧ VotingRound.isRevealed r' = VotingRound.isRevealed r
       ∧ GameSession.lastActivity s' = now
       ∧ ((∃ p, p ∈ GameSession.players s ∧ Player.id p = pid) →
          ∃ i old p',
            GameSession.players s !! i = Some old
            ∧ Player.id old = pid
            ∧ (∀ j q, GameSession.players s !! j = Some q → j < i →
                      Player.id q ≠ pid)
            ∧ GameSession.players s' = <[i := p']> (GameSession.players s)
            ∧ GameSession.players s' !! i = Some p'
            ∧ Player.id p' = pid
            ∧ Player.name p' = Player.name old
            ∧ Player.isOnline p' = Player.isOnline old
            ∧ Player.vote p' = Some vote
            ∧ Player.hasVoted p' = Some true)
       ∧ ((∀ p, p ∈ GameSession.players s → Player.id p ≠ pid) →
          GameSession.players s' = GameSession.players s)
       ∧ length (GameSession.history s') = length (GameSession.history s)
       ∧ (∀ i e, GameSession.history s !! i = Some e →
            GameSession.history s' !! i
            = Some (if decide (i < length (GameSession.history s)
                                   - GameSession.shared s)
                    then e
                    else VotingRound.mk (VotingRound.id e)
                           (VotingRound.issueName e) (VotingRound.votes r')
                           (VotingRound.startTime e) (VotingRound.endTime e)
                           (VotingRound.isRevealed e) (VotingRound.average e)
                           (VotingRound.hasAgreement e)))).
Proof.
  intros Hs. unfold SessionManager.updatePlayerVote. rewrite Hs. split.
  - by intros ->.
  - intros r ->. eexists _, _. split; [reflexivity|].
    cbn [GameSession.currentVote GameSession.lastActivity GameSession.players
         GameSession.history VotingRound.votes VotingRound.isRevealed].
    split_and!; try done.
    + intros Hpid. apply prop_get_set_eq. by left.
    + intros -> Hnone. by apply prop_set_proto.
    + intros k Hk. by apply prop_get_set_ne.
    + intros (p & Hp & Hid).
      destruct (list_find _ (GameSession.players s)) as [[i old]|] eqn:Hfind.
      * apply list_find_Some in Hfind as (Hi & Hold & Hleast).
        exists i, old, (SessionManager.castVote vote old).
        split_and!; try done.
        apply list_lookup_insert_eq. by eapply lookup_lt_Some.
      * apply list_find_None in Hfind.
        rewrite Forall_forall in Hfind. by destruct (Hfind p Hp).
    + intros Hfresh.
      destruct (list_find _ (GameSession.players s)) as [[i old]|] eqn:Hfind;
        [|done].
      apply list_find_Some in Hfind as (Hi & Hold & _).
      destruct (Hfresh old); [by eapply list_elem_of_lookup_2|done].
    + apply length_writeThrough.
    + intros i e He. by erewrite writeThrough_lookup.
Qed.

Lemma updatePlayerVote_spec_witness :
  SessionManager.updatePlayerVote 3 "s1" "alice" (Js.VNum 3) Sample.joined
    = (false, Sample.joined)
  ∧ (SessionManager.updatePlayerVote 3 "s1" "alice" (Js.VNum 3)
       Sample.started).1 = true.
Proof.
  split.
  - edestruct (updatePlayerVote_spec 3 "s1" "alice" (Js.VNum 3) Sample.joined)
      as [Hnone _].
    + vm_compute. reflexivity.
    + apply Hnone. reflexivity.
  - edestruct (updatePlayerVote_spec 3 "s1" "alice" (Js.VNum 3) Sample.started)
      as [_ Hsome].
    + vm_compute. reflexivity.
    + edestruct Hsome as (s' & r' & -> & _); reflexivity.
Defined.

(** ** revealVotes *)

Lemma revealed_votes (now : Z) (r : VotingRound.t) :
  VotingRound.votes (SessionManager.revealed now r) = VotingRound.votes r.
Proof.
  unfold SessionManager.revealed. by destruct (SessionManager.numericVotes r).
Qed.

Lemma revealed_numericVotes (now : Z) (r : VotingRound.t) :
  SessionManager.numericVotes (SessionManager.revealed now r)
    = SessionManager.numericVotes r.
Proof. unfold SessionManager.numericVotes. by rewrite revealed_votes. Qed.

(** Revealing a round that was already revealed computes the same round
    again, up to the end timestamp. *)
Lemma revealed_revealed (t1 t2 : Z) (r : VotingRound.t) :
  SessionManager.revealed t2 (SessionManager.revealed t1 r)
    = SessionManager.revealed t2 r.
Proof.
  unfold SessionManager.revealed at 1 3. rewrite revealed_numericVotes.
  unfold SessionManager.revealed.
  by destruct (SessionManager.numericVotes r).
Qed.

Lemma revealVotes_step (now : Z) (sid : string) (sessions : SessionManager.t)
    (s : GameSession.t) (r : VotingRound.t) :
  sessions !! sid = Some s → GameSession.currentVote s = Some r →
  ∃ s',
    SessionManager.revealVotes now sid sessions = (true, <[sid := s']> sessions)
    ∧ GameSession.currentVote s' = Some (SessionManager.revealed now r)
    ∧ GameSession.history s'
        = GameSession.history s ++ [SessionManager.revealed now r]
    ∧ GameSession.players s' = GameSession.players s
    ∧ GameSession.lastActivity s' = now
    ∧ GameSession.shared s' = S (GameSession.shared s).
Proof.
  intros Hs Hr. unfold SessionManager.revealVotes. rewrite Hs, Hr.
  eexists. split; [reflexivity|]. by simpl.
Qed.

(** [===] on numbers is a partial equivalence (it fails on [NaN] only). *)
Section float_eq.
Import SpecFloat.

Lemma SFeqb_true (a b : spec_float) :
  SFeqb a b = true ↔
  match a, b with
  | S754_zero _, S754_zero _ => True
  | S754_infinity s1, S754_infinity s2 => s1 = s2
  | S754_finite s1 m1 e1, S754_finite s2 m2 e2 => s1 = s2 ∧ m1 = m2 ∧ e1 = e2
  | _, _ => False
  end.
Proof.
  unfold SFeqb.
  destruct a as [sa|sa| |sa ma ea], b as [sb|sb| |sb mb eb]; simpl;
    try (split; [done|by intros []]); try done;
    try (destruct sa; split; done);
    try (destruct sb; split; done).
  - destruct sa, sb; split; done.
  - destruct sa, sb; try (split; [done|by intros [? _]]).
    + destruct (Z.compare_spec ea eb) as [->|?|?]; simpl.
      * rewrite Pos.compare_cont_spec. simpl.
        destruct (Pos.compare_spec ma mb) as [->|?|?]; simpl;
          split; try done; intros (_ & ? & _); lia.
      * split; [done|]. intros (_ & _ & ?); lia.
      * split; [done|]. intros (_ & _ & ?); lia.
    + destruct (Z.compare_spec ea eb) as [->|?|?]; simpl.
      * rewrite Pos.compare_cont_spec. simpl.
        destruct (Pos.compare_spec ma mb) as [->|?|?]; simpl;
          split; try done; intros (_ & ? & _); lia.
      * split; [done|]. intros (_ & _ & ?); lia.
      * split; [done|]. intros (_ & _ & ?); lia.
Qed.

Lemma float_eqb_sym (a b : float) : PrimFloat.eqb a b = PrimFloat.eqb b a.
Proof.
  rewrite !FloatAxioms.eqb_spec. apply eq_true_iff_eq. rewrite !SFeqb_true.
  destruct (FloatOps.Prim2SF a), (FloatOps.Prim2SF b);
    intuition congruence.
Qed.

Lemma float_eqb_trans (a b c : float) :
  PrimFloat.eqb a b = true → PrimFloat.eqb b c = true →
  PrimFloat.eqb a c = true.
Proof.
  rewrite !FloatAxioms.eqb_spec, !SFeqb_true.
  destruct (FloatOps.Prim2SF a), (FloatOps.Prim2SF b), (FloatOps.Prim2SF c);
    intuition congruence.
Qed.

End float_eq.

(** [every(vote => vote === xs[0])] holds exactly when any two elements of
    the list are [===]. *)
Lemma every_equal_pairwise (x0 : float) (xs : list float) :
  SessionManager.every_equal x0 (x0 :: xs) = true ↔
  ∀ v w, v ∈ x0 :: xs → w ∈ x0 :: xs → PrimFloat.eqb v w = true.
Proof.
  unfold SessionManager.every_equal. rewrite forallb_forall. split.
  - intros Hall v w Hv%list_elem_of_In Hw%list_elem_of_In.
    eapply float_eqb_trans; [by apply Hall|].
    rewrite float_eqb_sym. by apply Hall.
  - intros Hall v Hv%list_elem_of_In. apply Hall; [done|]. apply list_elem_of_here.
Qed.

Lemma numericVotes_omap (r : VotingRound.t) :
  SessionManager.numericVotes r
  = omap (λ kv : string * Js.value,
            match kv.2 with Js.VNum n => Some n | Js.VStr _ => None end)
         (VotingRound.votes r).
Proof.
  unfold SessionManager.numericVotes, Js.values.
  induction (VotingRound.votes r) as [|[k [x|n]] o IH]; cbn; [done|done|].
  by rewrite IH.
Qed.

(** C5, as the claim states it, fails: [average] and [hasAgreement] are not
    left unset, and the agreement is [true], on a round without a numeric
    vote, when an earlier reveal of the round set them. Alice and Bob both
    vote 5, the round is revealed (average 5, agreement), both change their
    vote to ["?"], which a revealed round accepts, and the round is
    revealed again, at time 8. *)
Lemma revealVotes_keeps_earlier_results :
  VotingRound.average <$> SessionManager.currentRound "s1" Sample.agreed
    = Some (Some 5%float)
  ∧ VotingRound.hasAgreement <$> SessionManager.currentRound "s1" Sample.agreed
    = Some (Some true)
  ∧ VotingRound.votes <$> SessionManager.currentRound "s1" Sample.abstained
    = Some [("alice", Js.VStr "?"); ("bob", Js.VStr "?")]
  ∧ VotingRound.endTime <$> SessionManager.currentRound "s1" Sample.abstained
    = Some (Some 8%Z)
  ∧ SessionManager.numericVotes <$>
      SessionManager.currentRound "s1" Sample.abstained
    = Some []
  ∧ VotingRound.average <$> SessionManager.currentRound "s1" Sample.abstained
    = Some (Some 5%float)
  ∧ VotingRound.hasAgreement <$>
      SessionManager.currentRound "s1" Sample.abstained
    = Some (Some true).
Proof. vm_compute. by split_and!. Qed.

(** C5, amended. On a session with a current round, [revealVotes] succeeds,
    marks the round revealed with the end timestamp and keeps its id,
    issue, votes and start time, and appends a copy of the round so updated
    to the history; the copy holds the votes object of the round. The
    numeric votes are the numbers among the values of the votes map, in
    its order. When there is at least one, [average] becomes their sum
    divided by their count and [hasAgreement] becomes a boolean that is
    [true] iff any two of them are [===]; when there is none, [average] and
    [hasAgreement] are not assigned: they keep the value they had, unset
    unless an earlier reveal of the round set them. *)
Theorem revealVotes_spec (now : Z) (sid : string)
    (sessions : SessionManager.t) (s : GameSession.t) (r : VotingRound.t) :
  sessions !! sid = Some s → GameSession.currentVote s = Some r →
  let numeric :=
    omap (λ kv : string * Js.value,
            match kv.2 with Js.VNum n => Some n | Js.VStr _ => None end)
         (VotingRound.votes r) in
  ∃ s' r',
    SessionManager.revealVotes now sid sessions
      = (true, <[sid := s']> sessions)
    ∧ GameSession.currentVote s' = Some r'
    ∧ GameSession.history s' = GameSession.history s ++ [r']
    ∧ GameSession.shared s' = S (GameSession.shared s)
    ∧ GameSession.players s' = GameSession.players s
    ∧ GameSession.lastActivity s' = now
    ∧ VotingRound.isRevealed r' = true
    ∧ VotingRound.endTime r' = Some now
    ∧ VotingRound.id r' = VotingRound.id r
    ∧ VotingRound.issueName r' = VotingRound.issueName r
    ∧ VotingRound.votes r' = VotingRound.votes r
    ∧ VotingRound.startTime r' = VotingRound.startTime r
    ∧ (numeric ≠ [] →
         VotingRound.average r'
           = Some (PrimFloat.div
                     (fold_left PrimFloat.add numeric 0%float)
                     (PrimFloat.of_uint63
                        (Uint63.of_Z (Z.of_nat (length numeric)))))
         ∧ ∃ b, VotingRound.hasAgreement r' = Some b
                ∧ (b = true ↔
                   ∀ v w, v ∈ numeric → w ∈ numeric →
                          PrimFloat.eqb v w = true))
    ∧ (numeric = [] →
         VotingRound.average r' = VotingRound.average r
         ∧ VotingRound.hasAgreement r' = VotingRound.hasAgreement r).
Proof.
  intros Hs Hr numeric. unfold SessionManager.revealVotes. rewrite Hs, Hr.
  eexists _, _. split; [reflexivity|].
  cbn [GameSession.currentVote GameSession.history GameSession.shared
       GameSession.players GameSession.lastActivity].
  do 5 (split; [reflexivity|]).
  unfold SessionManager.revealed. rewrite numericVotes_omap. fold numeric.
  destruct numeric as [|x0 xs] eqn:Hnum;
    cbn [VotingRound.isRevealed VotingRound.endTime VotingRound.id
         VotingRound.issueName VotingRound.votes VotingRound.startTime
         VotingRound.average VotingRound.hasAgreement];
    split_and!; try done.
  intros _. split; [done|]. eexists. split; [done|].
  apply every_equal_pairwise.
Qed.

Lemma revealVotes_spec_witness :
  ∃ r',
    SessionManager.currentRound "s1"
      (SessionManager.revealVotes 5 "s1" Sample.voted).2 = Some r'
    ∧ VotingRound.isRevealed r' = true
    ∧ VotingRound.endTime r' = Some 5%Z
    ∧ VotingRound.average r' = Some 4%float.
Proof.
  edestruct (revealVotes_spec 5 "s1" Sample.voted)
    as (s' & r' & Heq & Hcur & _ & _ & _ & _ & Hrev & Hend & _ & _ & Hvotes
        & _ & Hnum & _).
  - vm_compute. reflexivity.
  - vm_compute. reflexivity.
  - exists r'. rewrite Heq. unfold SessionManager.currentRound.
    cbn [snd]. rewrite lookup_insert_eq. cbn [mbind option_bind].
    rewrite Hcur. split; [reflexivity|]. split; [assumption|].
    split; [assumption|].
    destruct Hnum as [-> _]; [vm_compute; discriminate|].
    vm_compute. reflexivity.
Defined.

(** The three rounds of the specification's reveal property:
    {A:3, B:5, C:3}, {A:5, B:5} and {A:"?", B:5}. The first average is the
    binary64 value nearest to 11/3, printed 3.6666666666666665. *)
Example revealed_spec_examples :
  let r1 := SessionManager.revealed 9
              (Sample.roundOf [("A", Js.VNum 3); ("B", Js.VNum 5);
                               ("C", Js.VNum 3)]) in
  let r2 := SessionManager.revealed 9
              (Sample.roundOf [("A", Js.VNum 5); ("B", Js.VNum 5)]) in
  let r3 := SessionManager.revealed 9
              (Sample.roundOf [("A", Js.VStr "?"); ("B", Js.VNum 5)]) in
  VotingRound.average r1 = Some 0x1.d555555555555p+1%float
  ∧ VotingRound.hasAgreement r1 = Some false
  ∧ VotingRound.average r2 = Some 5%float
  ∧ VotingRound.hasAgreement r2 = Some true
  ∧ VotingRound.average r3 = Some 5%float
  ∧ VotingRound.hasAgreement r3 = Some true.
Proof. vm_compute. by split_and!. Qed.

Example revealed_no_numeric_vote :
  let r := SessionManager.revealed 9
             (Sample.roundOf [("A", Js.VStr "?"); ("B", Js.VStr "coffee")]) in
  VotingRound.average r = None ∧ VotingRound.hasAgreement r = None.
Proof. vm_compute. by split. Qed.

(** The end-to-end scenario of the specification: Alice creates the session,
    Bob joins, Alice starts a round, they vote 3 and 5, the round is
    revealed. *)
Example sample_session_revealed :
  ∃ s r,
    Sample.revealedOnce !! "s1" = Some s
    ∧ Player.name <$> GameSession.players s = ["Alice"; "Bob"]
    ∧ Player.hasVoted <$> GameSession.players s = [Some true; Some true]
    ∧ GameSession.currentVote s = Some r
    ∧ VotingRound.average r = Some 4%float
    ∧ VotingRound.hasAgreement r = Some false
    ∧ GameSession.history s = [r].
Proof. eexists _, _. vm_compute. by split_and!. Qed.

Lemma revealRepeatedly_revealed (times : list Z) (sid : string)
    (sessions : SessionManager.t) (s : GameSession.t) (r : VotingRound.t) :
  sessions !! sid = Some s → GameSession.currentVote s = Some r →
  ∃ sessions' s',
    SessionManager.revealRepeatedly times sid sessions = (true, sessions')
    ∧ sessions' !! sid = Some s'
    ∧ GameSession.history s'
        = GameSession.history s
            ++ ((λ t, SessionManager.revealed t r) <$> times)
    ∧ GameSession.currentVote s'
        = Some (default r
                  (last ((λ t, SessionManager.revealed t r) <$> times)))
    ∧ GameSession.shared s' = GameSession.shared s + length times.
Proof.
  intros Hs Hr. unfold SessionManager.revealRepeatedly.
  assert (∀ r0, (∀ t, SessionManager.revealed t r0 = SessionManager.revealed t r) →
    ∀ sessions0 s0,
    sessions0 !! sid = Some s0 → GameSession.currentVote s0 = Some r0 →
    ∃ sessions' s',
      foldl (λ acc now,
               let res := SessionManager.revealVotes now sid acc.2 in
               (acc.1 && res.1, res.2)) (true, sessions0) times
        = (true, sessions')
      ∧ sessions' !! sid = Some s'
      ∧ GameSession.history s'
          = GameSession.history s0
              ++ ((λ t, SessionManager.revealed t r) <$> times)
      ∧ GameSession.currentVote s'
          = Some (default r0
                    (last ((λ t, SessionManager.revealed t r) <$> times)))
      ∧ GameSession.shared s' = GameSession.shared s0 + length times)
    as Hgen.
  { induction times as [|t times IH]; intros r0 Hr0 sessions0 s0 Hs0 Hcur0.
    - exists sessions0, s0. cbn. rewrite app_nil_r.
      split_and!; [done..|lia].
    - destruct (revealVotes_step t sid sessions0 s0 r0 Hs0 Hcur0)
        as (s1 & Heq & Hcur1 & Hhist1 & _ & _ & Hshared1).
      simpl. rewrite Heq. simpl.
      destruct (IH (SessionManager.revealed t r0)) with
        (sessions0 := <[sid := s1]> sessions0) (s0 := s1)
        as (sessions' & s' & Hrun & Hs' & Hhist & Hcur & Hshared).
      + intros t'. by rewrite revealed_revealed.
      + apply lookup_insert_eq.
      + done.
      + exists sessions', s'. split_and!; [done..| | |].
        * rewrite Hhist, Hhist1, Hr0, <- app_assoc. reflexivity.
        * rewrite Hcur, Hr0. f_equal.
          destruct times as [|t' times']; [done|].
          rewrite !fmap_cons, last_cons_cons.
          generalize (SessionManager.revealed t' r).
          generalize ((λ t0, SessionManager.revealed t0 r) <$> times').
          intros l. induction l as [|y l IHl]; intros x; [done|].
          rewrite last_cons_cons. apply IHl.
        * rewrite Hshared, Hshared1. lia. }
  by apply (Hgen r).
Qed.

(** C10. [revealVotes] does not look at [isRevealed]: on a session with a
    current round, every one of any number of consecutive calls succeeds
    and appends to the history a copy of the round as that call leaves
    it: revealed, ended at the time of the call, with the id, issue, votes
    and start time of the round, and with the average and the agreement
    computed from the round's votes (kept as they were when the round
    holds no numeric vote). The history grows by one entry per call, the
    current round is the round as the last call left it, and every copy
    holds the votes object of the round. *)
Theorem revealVotes_repeated_grows_history (times : list Z) (sid : string)
    (sessions : SessionManager.t) (s : GameSession.t) (r : VotingRound.t) :
  sessions !! sid = Some s → GameSession.currentVote s = Some r →
  let numeric :=
    omap (λ kv : string * Js.value,
            match kv.2 with Js.VNum n => Some n | Js.VStr _ => None end)
         (VotingRound.votes r) in
  let average :=
    match numeric with
    | [] => VotingRound.average r
    | _ :: _ =>
        Some (PrimFloat.div (fold_left PrimFloat.add numeric 0%float)
                (PrimFloat.of_uint63
                   (Uint63.of_Z (Z.of_nat (length numeric)))))
    end in
  let agreement :=
    match numeric with
    | [] => VotingRound.hasAgreement r
    | x0 :: _ => Some (forallb (λ v, PrimFloat.eqb v x0) numeric)
    end in
  let entry t :=
    VotingRound.mk (VotingRound.id r) (VotingRound.issueName r)
      (VotingRound.votes r) (VotingRound.startTime r) (Some t) true
      average agreement in
  ∃ sessions' s',
    SessionManager.revealRepeatedly times sid sessions = (true, sessions')
    ∧ sessions' !! sid = Some s'
    ∧ GameSession.history s' = GameSession.history s ++ (entry <$> times)
    ∧ length (GameSession.history s')
        = length (GameSession.history s) + length times
    ∧ GameSession.currentVote s'
        = Some (match last times with Some t => entry t | None => r end)
    ∧ GameSession.shared s' = GameSession.shared s + length times.
Proof.
  intros Hs Hr numeric average agreement entry.
  destruct (revealRepeatedly_revealed times sid sessions s r Hs Hr)
    as (sessions' & s' & Hrun & Hs' & Hhist & Hcur & Hshared).
  assert (∀ t, SessionManager.revealed t r = entry t) as Hentry.
  { intros t. unfold SessionManager.revealed, entry, average, agreement.
    rewrite numericVotes_omap. fold numeric. by destruct numeric. }
  exists sessions', s'. split_and!; try done.
  - rewrite Hhist. f_equal. apply list_fmap_ext. intros _ t _. apply Hentry.
  - by rewrite Hhist, length_app, length_fmap.
  - rewrite Hcur, fmap_last. destruct (last times) as [t|]; cbn; [|done].
    by rewrite Hentry.
Qed.

Lemma revealVotes_repeated_grows_history_witness :
  ∃ s',
    (SessionManager.revealRepeatedly [6; 7; 8]%Z "s1" Sample.revealedOnce).2
      !! "s1" = Some s'
    ∧ length (GameSession.history s') = 4
    ∧ VotingRound.endTime <$> GameSession.history s'
      = [Some 5; Some 6; Some 7; Some 8]%Z
    ∧ VotingRound.average <$> GameSession.history s'
      = [Some 4; Some 4; Some 4; Some 4]%float.
Proof.
  edestruct (revealVotes_repeated_grows_history [6; 7; 8]%Z "s1"
               Sample.revealedOnce)
    as (sessions' & s' & Heq & Hs' & Hhist & Hlen & _).
  - vm_compute. reflexivity.
  - vm_compute. reflexivity.
  - exists s'. rewrite Heq. split; [exact Hs'|]. rewrite Hlen, Hhist.
    split; [reflexivity|]. split; vm_compute; reflexivity.
Defined.

(** ** The client's reveal against the server's *)

(** C4, as the claim states it, fails: on the round [startVoting] creates,
    before any vote, the server leaves [average] and [hasAgreement] unset
    while the client's [calculateResults] reports 0 and [false], which the
    client's [revealVotes] stores in its round. *)
Lemma reveal_differs_without_numeric_votes :
  VotingRound.average <$>
    SessionManager.currentRound "s1"
      (SessionManager.revealVotes 5 "s1" Sample.started).2 = Some None
  ∧ VotingRound.hasAgreement <$>
    SessionManager.currentRound "s1"
      (SessionManager.revealVotes 5 "s1" Sample.started).2 = Some None
  ∧ Store.calculateResults (Sample.started !! "s1")
    = Store.mkResults 0 false
  ∧ VotingRound.average <$>
    (Store.revealVotes 5 (Sample.started !! "s1") ≫= GameSession.currentVote)
    = Some (Some 0%float)
  ∧ VotingRound.hasAgreement <$>
    (Store.revealVotes 5 (Sample.started !! "s1") ≫= GameSession.currentVote)
    = Some (Some false).
Proof. vm_compute. by split_and!. Qed.

(** C4, amended. On a session with a current round that holds at least one
    numeric vote, the round the client's [revealVotes] builds is the round the
    server's [revealVotes] builds: same average, same agreement. With no
    numeric vote the server does not assign the two fields, while the client
    reports average 0 and agreement [false]. *)
Theorem reveal_client_server (now : Z) (sid : string)
    (sessions : SessionManager.t) (s : GameSession.t) (r : VotingRound.t) :
  sessions !! sid = Some s → GameSession.currentVote s = Some r →
  ∃ s' r' c' rc',
    SessionManager.revealVotes now sid sessions
      = (true, <[sid := s']> sessions)
    ∧ GameSession.currentVote s' = Some r'
    ∧ Store.revealVotes now (Some s) = Some c'
    ∧ GameSession.currentVote c' = Some rc'
    ∧ VotingRound.average rc'
        = Some (Store.average (Store.calculateResults (Some s)))
    ∧ VotingRound.hasAgreement rc'
        = Some (Store.hasAgreement (Store.calculateResults (Some s)))
    ∧ (SessionManager.numericVotes r ≠ [] → rc' = r')
    ∧ (SessionManager.numericVotes r = [] →
         VotingRound.average r' = VotingRound.average r
         ∧ VotingRound.hasAgreement r' = VotingRound.hasAgreement r
         ∧ VotingRound.average rc' = Some 0%float
         ∧ VotingRound.hasAgreement rc' = Some false).
Proof.
  intros Hs Hr.
  destruct (revealVotes_step now sid sessions s r Hs Hr)
    as (s' & Heq & Hcur & _).
  exists s', (SessionManager.revealed now r).
  unfold Store.revealVotes. rewrite Hr. eexists _, _.
  split_and!; try done; unfold Store.calculateResults; simpl; rewrite Hr;
    unfold SessionManager.revealed, SessionManager.numericVotes.
  - destruct (Js.numbers _) as [|x0 xs] eqn:Hnum; [done|]. intros _. simpl.
    reflexivity.
  - intros ->. done.
Qed.

Lemma reveal_client_server_witness :
  ∃ rc',
    Store.revealVotes 5 (Sample.voted !! "s1") ≫= GameSession.currentVote
      = Some rc'
    ∧ SessionManager.currentRound "s1"
        (SessionManager.revealVotes 5 "s1" Sample.voted).2 = Some rc'.
Proof.
  edestruct (reveal_client_server 5 "s1" Sample.voted)
    as (s' & r' & c' & rc' & Heq & Hcur & Hc & Hrc & _ & _ & Hsame & _).
  - vm_compute. reflexivity.
  - vm_compute. reflexivity.
  - exists rc'. split.
    + transitivity (Some c' ≫= GameSession.currentVote).
      * rewrite <- Hc. vm_compute. reflexivity.
      * exact Hrc.
    + rewrite Heq. unfold SessionManager.currentRound. cbn [snd].
      rewrite lookup_insert_eq. cbn [mbind option_bind]. rewrite Hcur.
      f_equal. symmetry. apply Hsame. vm_compute. discriminate.
Defined.

(** ** removePlayerFromSession *)

Lemma list_find_filter_snd {A} (P Q : A → Prop)
    `{!∀ x, Decision (P x), !∀ x, Decision (Q x)} (l : list A) :
  (∀ x, P x → Q x) →
  snd <$> list_find P (filter Q l) = snd <$> list_find P l.
Proof.
  intros HPQ.
  assert (∀ X : option (nat * A), snd <$> (prod_map S id <$> X) = snd <$> X)
    as Hshift by (by intros [[]|]).
  induction l as [|x l IH]; [done|].
  rewrite filter_cons. destruct (decide (Q x)) as [HQ|HQ]; simpl.
  - destruct (decide (P x)); [done|]. by rewrite !Hshift.
  - rewrite decide_False by (intros HP; by apply HQ, HPQ).
    by rewrite Hshift.
Qed.

Lemma prop_get_delete_ne {A} (k k' : string) (o : Js.object A) :
  k' ≠ k → Js.prop_get k' (Js.prop_delete k o) = Js.prop_get k' o.
Proof.
  intros Hne. unfold Js.prop_get, Js.prop_delete.
  by rewrite list_find_filter_snd by (intros x ->; done).
Qed.

(** C2, as the claim states it, fails: Bob, who voted 5 in the running round
    of [Sample], leaves or disconnects. [removePlayerFromSession] drops his
    roster record (it is not kept with [isOnline = false]) and deletes his
    vote from the round. *)
Lemma removePlayerFromSession_drops_record_and_vote :
  let before := Sample.voted in
  let after :=
    (SessionManager.removePlayerFromSession 6 "s1" "bob" Sample.voted).2 in
  fmap Player.id <$> (GameSession.players <$> before !! "s1")
    = Some ["alice"; "bob"]
  ∧ VotingRound.votes <$> SessionManager.currentRound "s1" before
    = Some [("alice", Js.VNum 3); ("bob", Js.VNum 5)]
  ∧ fmap Player.id <$> (GameSession.players <$> after !! "s1")
    = Some ["alice"]
  ∧ VotingRound.votes <$> SessionManager.currentRound "s1" after
    = Some [("alice", Js.VNum 3)].
Proof. vm_compute. by split_and!. Qed.

(** The compiled build and the design notes of the repository hold the
    other policy: the record stays, flagged offline, and the vote stays. *)
Example dist_removePlayerFromSession_flags_offline :
  let after :=
    (Dist.removePlayerFromSession 6 "s1" "bob" Sample.voted).2 in
  fmap (λ p, (Player.id p, Player.isOnline p)) <$>
    (GameSession.players <$> after !! "s1")
    = Some [("alice", Some true); ("bob", Some false)]
  ∧ VotingRound.votes <$> SessionManager.currentRound "s1" after
    = Some [("alice", Js.VNum 3); ("bob", Js.VNum 5)].
Proof. vm_compute. by split_and!. Qed.

(** C2, amended. On an existing session [removePlayerFromSession] succeeds,
    removes from the roster every record with the participant's id and keeps
    the other records, in order; refreshes [lastActivity]; and in the
    current round, if there is one, leaves every other
    participant's vote as it was and deletes the participant's own vote when
    that vote is a non-empty string or a number other than 0 and NaN. *)
Theorem removePlayerFromSession_spec (now : Z) (sid pid : string)
    (sessions : SessionManager.t) (s : GameSession.t) :
  sessions !! sid = Some s →
  ∃ s',
    SessionManager.removePlayerFromSession now sid pid sessions
      = (true, <[sid := s']> sessions)
    ∧ GameSession.lastActivity s' = now
    ∧ GameSession.players s' `sublist_of` GameSession.players s
    ∧ (∀ p, p ∈ GameSession.players s' ↔
            p ∈ GameSession.players s ∧ Player.id p ≠ pid)
    ∧ (GameSession.currentVote s = None → GameSession.currentVote s' = None)
    ∧ (∀ r, GameSession.currentVote s = Some r →
         ∃ r',
           GameSession.currentVote s' = Some r'
           ∧ VotingRound.id r' = VotingRound.id r
           ∧ VotingRound.isRevealed r' = VotingRound.isRevealed r
           ∧ (∀ k, k ≠ pid →
                Js.prop_get k (VotingRound.votes r')
                  = Js.prop_get k (VotingRound.votes r))
           ∧ (∀ v, Js.prop_get pid (VotingRound.votes r) = Some v →
                Js.truthy v = true →
                Js.prop_get pid (VotingRound.votes r') = None)).
Proof.
  intros Hs. unfold SessionManager.removePlayerFromSession. rewrite Hs.
  eexists. split; [reflexivity|]. simpl. split_and!; try done.
  - apply sublist_filter.
  - intros p. rewrite list_elem_of_filter. tauto.
  - by intros ->.
  - intros r ->. unfold SessionManager.dropVote.
    destruct (Js.prop_get pid (VotingRound.votes r)) as [v|] eqn:Hv;
      [destruct (Js.truthy v) eqn:Htruthy|]; eexists;
      (split; [reflexivity|]); simpl; split_and!; try done.
    + intros k Hk. by apply prop_get_delete_ne.
    + intros _ _ _. apply prop_get_delete_eq.
    + intros v' [= <-] Hv'. congruence.
Qed.

Lemma removePlayerFromSession_spec_witness :
  ∃ s',
    (SessionManager.removePlayerFromSession 6 "s1" "bob" Sample.voted).2
      !! "s1" = Some s'
    ∧ GameSession.lastActivity s' = 6%Z.
Proof.
  edestruct (removePlayerFromSession_spec 6 "s1" "bob" Sample.voted)
    as (s' & Heq & Hact & _).
  - vm_compute. reflexivity.
  - exists s'. rewrite Heq. cbn [snd]. rewrite lookup_insert_eq.
    split; [reflexivity|exact Hact].
Defined.

(** ** cleanupInactiveSessions *)

Lemma inactive_spec (now maxAge : Z) (s : GameSession.t) :
  SessionManager.inactive now maxAge s = true
  ↔ (GameSession.lastActivity s < now - maxAge)%Z.
Proof.
  unfold SessionManager.inactive. rewrite bool_decide_eq_true. lia.
Qed.

Section cleanup.
Context (now maxAge : Z).

Local Abbreviation old :=
  (λ e : string * GameSession.t,
     (GameSession.lastActivity e.2 < now - maxAge)%Z).

Lemma cleanupStep_old (acc : nat * SessionManager.t) e :
  old e →
  SessionManager.cleanupStep now maxAge acc e = (S acc.1, delete e.1 acc.2).
Proof.
  intros He%inactive_spec. unfold SessionManager.cleanupStep. by rewrite He.
Qed.

Lemma cleanupStep_young (acc : nat * SessionManager.t) e :
  ¬ old e → SessionManager.cleanupStep now maxAge acc e = acc.
Proof.
  intros He. unfold SessionManager.cleanupStep.
  destruct (SessionManager.inactive now maxAge e.2) eqn:Hin; [|done].
  by apply inactive_spec in Hin.
Qed.

Lemma cleanup_foldl_count (l : list (string * GameSession.t)) n m :
  (foldl (SessionManager.cleanupStep now maxAge) (n, m) l).1
    = n + length (filter old l).
Proof.
  revert n m. induction l as [|e l IH]; intros n m; simpl; [lia|].
  rewrite filter_cons. destruct (decide (old e)) as [He|He].
  - rewrite cleanupStep_old by done. simpl. rewrite IH. lia.
  - rewrite cleanupStep_young by done. apply IH.
Qed.

Lemma cleanup_foldl_lookup (l : list (string * GameSession.t)) n m k :
  (foldl (SessionManager.cleanupStep now maxAge) (n, m) l).2 !! k
    = if decide (Exists (λ e, e.1 = k ∧ old e) l) then None else m !! k.
Proof.
  revert n m. induction l as [|e l IH]; intros n m; cbn [foldl].
  - rewrite decide_False; [done|]. by intros ?%Exists_nil.
  - destruct (decide (old e)) as [He|He].
    + rewrite cleanupStep_old by done. cbn [fst snd]. rewrite IH.
      destruct (decide (e.1 = k)) as [Hk|Hk].
      * rewrite (decide_True (P := Exists _ (e :: l)))
          by (by apply Exists_cons_hd).
        case_decide; [done|]. rewrite Hk. apply lookup_delete_eq.
      * rewrite lookup_delete_ne by done.
        apply decide_ext. rewrite Exists_cons. tauto.
    + rewrite cleanupStep_young by done. rewrite IH.
      apply decide_ext. rewrite Exists_cons. tauto.
Qed.

Lemma cleanup_is_filter (sessions : SessionManager.t) :
  (SessionManager.cleanupInactiveSessions now maxAge sessions).2
    = filter (λ e, ¬ old e) sessions.
Proof.
  apply map_eq. intros k. unfold SessionManager.cleanupInactiveSessions.
  rewrite cleanup_foldl_lookup, map_lookup_filter.
  destruct (sessions !! k) as [s|] eqn:Hk; simpl.
  - destruct (decide (old (k, s))) as [He|He].
    + rewrite decide_True, option_guard_False; [done|by intros []|].
      apply Exists_exists. exists (k, s). split; [|done].
      by apply elem_of_map_to_list.
    + rewrite decide_False, option_guard_True; [done..|].
      intros ([k' s'] & Hin%elem_of_map_to_list & Hk' & Hold)%Exists_exists.
      simpl in Hk'. subst k'. congruence.
  - by case_decide.
Qed.

Lemma cleanup_count (sessions : SessionManager.t) :
  (SessionManager.cleanupInactiveSessions now maxAge sessions).1
    = size (filter old sessions).
Proof.
  unfold SessionManager.cleanupInactiveSessions.
  rewrite cleanup_foldl_count, map_filter_alt, map_size_list_to_map; [done|].
  apply (sublist_NoDup _ ((map_to_list sessions).*1)).
  - apply NoDup_fst_map_to_list.
  - apply fmap_sublist, sublist_filter.
Qed.

End cleanup.

(** C8. [cleanupInactiveSessions] removes exactly the sessions whose
    [lastActivity] is older than [now - maxAge], whoever is in their roster,
    and returns how many it removed: afterwards [getSession] finds none of
    them and finds every other session as it was. *)
Theorem cleanupInactiveSessions_spec (now maxAge : Z)
    (sessions : SessionManager.t) :
  ∃ cleaned sessions',
    SessionManager.cleanupInactiveSessions now maxAge sessions
      = (cleaned, sessions')
    ∧ (∀ sid s, sessions !! sid = Some s →
         (GameSession.lastActivity s < now - maxAge)%Z →
         SessionManager.getSession sid sessions' = None)
    ∧ (∀ sid s, sessions !! sid = Some s →
         ¬ (GameSession.lastActivity s < now - maxAge)%Z →
         SessionManager.getSession sid sessions' = Some s)
    ∧ (∀ sid, sessions !! sid = None →
         SessionManager.getSession sid sessions' = None)
    ∧ cleaned
        = size (filter (λ e, (GameSession.lastActivity e.2 < now - maxAge)%Z)
                       sessions)
    ∧ size sessions = cleaned + size sessions'.
Proof.
  destruct (SessionManager.cleanupInactiveSessions now maxAge sessions)
    as [cleaned sessions'] eqn:Hrun.
  pose proof (cleanup_is_filter now maxAge sessions) as Hmap.
  pose proof (cleanup_count now maxAge sessions) as Hcount.
  rewrite Hrun in Hmap, Hcount. simpl in Hmap, Hcount. subst cleaned sessions'.
  eexists _, _. split; [reflexivity|]. unfold SessionManager.getSession.
  split_and!.
  - intros sid s Hs Hold. apply map_lookup_filter_None. right.
    intros s0 Hs0. simpl. congruence.
  - intros sid s Hs Hyoung. by apply map_lookup_filter_Some.
  - intros sid Hs. apply map_lookup_filter_None. by left.
  - done.
  - rewrite <- map_size_disj_union by apply map_disjoint_filter_complement.
    by rewrite map_filter_union_complement.
Qed.

(** ** The router: joining a session that does not exist *)

(** C3, as the claim states it, fails: the connection is registered before
    the session is looked up and the entry is not removed when the lookup
    fails. Connection c9 was not registered; after its join to the missing
    session "nope" it is. *)
Lemma handleJoin_missing_session_registers :
  let srv :=
    Server.handleJoin 20 "c9" 9 (Sample.joinMessage "nope" "u9" "Zoe")
      Sample.server0 in
  SessionManager.getSession "nope" (Server.sessionManager Sample.server0) = None
  ∧ PlayerManager.getConnection "c9" (Server.playerManager Sample.server0)
    = None
  ∧ Server.sent srv
    = [(9, ServerResponse.mk ServerResponse.session_not_found
             (Some "Session not found") None None 20)]
  ∧ PlayerManager.getConnection "c9" (Server.playerManager srv)
    = Some (ConnectedPlayer.mk 9 "nope" "u9" "Zoe" 20)
  ∧ PlayerManager.getConnectionsBySession "nope" (Server.playerManager srv)
    = [ConnectedPlayer.mk 9 "nope" "u9" "Zoe" 20].
Proof. vm_compute. by split_and!. Qed.

(** C3, amended. A join with its three fields present that names a session
    which does not exist makes one call of [send]: the [session_not_found]
    notice, on the joining socket. No session is touched. The Connection
    Registry holds the entry registered for the connection before the
    lookup, and its other entries are as before. *)
Theorem handleJoin_missing_session (now : Z) (connectionId : string)
    (ws : WebSocket.t) (message : WebSocketMessage.t) (srv : Server.t)
    (sessionId userId userName : string) :
  WebSocketMessage.sessionId message = Some sessionId →
  WebSocketMessage.userId message = Some userId →
  WebSocketMessage.userName message = Some userName →
  sessionId ≠ "" → userId ≠ "" → userName ≠ "" →
  SessionManager.getSession sessionId (Server.sessionManager srv) = None →
  let srv' := Server.handleJoin now connectionId ws message srv in
  Server.sent srv'
    = Server.sent srv
        ++ [(ws, ServerResponse.mk ServerResponse.session_not_found
                   (Some "Session not found") None None now)]
  ∧ Server.sessionManager srv' = Server.sessionManager srv
  ∧ Server.readyState srv' = Server.readyState srv
  ∧ PlayerManager.getConnection connectionId (Server.playerManager srv')
    = Some (ConnectedPlayer.mk ws sessionId userId userName now)
  ∧ (∀ c, c ≠ connectionId →
       PlayerManager.getConnection c (Server.playerManager srv')
         = PlayerManager.getConnection c (Server.playerManager srv)).
Proof.
  intros Hsid Huid Hname Hs Hu Hn Hmissing srv'. subst srv'.
  unfold Server.handleJoin. rewrite Hsid, Huid, Hname.
  assert (∀ x : string, x ≠ "" → Js.truthy_str (Some x) = true) as Htruthy.
  { intros x Hx. simpl. apply negb_true_iff, String.eqb_neq. done. }
  rewrite !Htruthy by done. cbn [negb orb]. cbn [Server.sessionManager].
  rewrite Hmissing. unfold Server.sendSessionNotFound, Server.send.
  cbn [Server.sent Server.sessionManager Server.readyState
       Server.playerManager].
  unfold PlayerManager.getConnection, PlayerManager.addConnection.
  cbn [PlayerManager.connections].
  split_and!; try reflexivity.
  - apply lookup_insert_eq.
  - intros c Hc. by apply lookup_insert_ne.
Qed.

Lemma handleJoin_missing_session_witness :
  Server.sent
    (Server.handleJoin 20 "c9" 9 (Sample.joinMessage "nope" "u9" "Zoe")
       Sample.server2)
  = Server.sent Sample.server2
      ++ [(9, ServerResponse.mk ServerResponse.session_not_found
                (Some "Session not found") None None 20)].
Proof.
  refine (proj1 (handleJoin_missing_session 20 "c9" 9
                   (Sample.joinMessage "nope" "u9" "Zoe") Sample.server2
                   "nope" "u9" "Zoe" _ _ _ _ _ _ _));
    try reflexivity; try discriminate.
Defined.

(** ** The router: broadcasting a domain event *)

Lemma broadcastToSession_all (sessionId : string) (message : ServerResponse.t)
    (srv : Server.t) :
  Server.broadcastToSession sessionId message None srv
  = Server.mk (Server.sessionManager srv) (Server.playerManager srv)
      (Server.readyState srv)
      (Server.sent srv
         ++ ((λ player, (ConnectedPlayer.ws player, message)) <$>
             filter (λ player,
                       WebSocket.is_open
                         (Server.readyState srv (ConnectedPlayer.ws player))
                       = true)
                    (PlayerManager.getConnectionsBySession sessionId
                       (Server.playerManager srv)))).
Proof.
  unfold Server.broadcastToSession.
  generalize (PlayerManager.getConnectionsBySession sessionId
                (Server.playerManager srv)).
  intros l. destruct srv as [sm pm rs log]. simpl. revert log.
  induction l as [|player l IH]; intros log; cbn [foldl].
  - by rewrite app_nil_r.
  - assert (Server.broadcastStep message None (Server.mk sm pm rs log) player
            = Server.mk sm pm rs
                (if WebSocket.is_open (rs (ConnectedPlayer.ws player))
                 then log ++ [(ConnectedPlayer.ws player, message)]
                 else log)) as ->.
    { unfold Server.broadcastStep. simpl.
      by destruct (WebSocket.is_open _). }
    rewrite IH, filter_cons.
    destruct (WebSocket.is_open (rs (ConnectedPlayer.ws player))) eqn:Hopen.
    + rewrite decide_True by done. by rewrite fmap_cons, <- app_assoc.
    + by rewrite decide_False by done.
Qed.

Lemma received_fmap (w : WebSocket.t) (message : ServerResponse.t)
    (l : list ConnectedPlayer.t) :
  Server.received w ((λ player, (ConnectedPlayer.ws player, message)) <$> l)
  = (λ _, message) <$> filter (λ player, ConnectedPlayer.ws player = w) l.
Proof.
  unfold Server.received. induction l as [|player l IH]; [done|].
  rewrite fmap_cons, !filter_cons. cbn [fst].
  destruct (decide (ConnectedPlayer.ws player = w)).
  - rewrite !fmap_cons. cbn [snd]. by rewrite IH.
  - apply IH.
Qed.

Lemma filter_none {A} (P : A → Prop) `{!∀ x, Decision (P x)} (l : list A) :
  (∀ x, x ∈ l → ¬ P x) → filter P l = [].
Proof.
  induction l as [|y l IH]; intros Hall; [done|].
  rewrite filter_cons_False by (apply Hall; left).
  apply IH. intros x Hx. apply Hall. by right.
Qed.

Lemma filter_unique {A B} `{EqDecision B} (f : A → B) (l : list A) (x : A) :
  NoDup (f <$> l) → x ∈ l → filter (λ y, f y = f x) l = [x].
Proof.
  induction l as [|y l IH]; intros Hnodup Hin.
  - by apply elem_of_nil in Hin.
  - rewrite fmap_cons in Hnodup. apply NoDup_cons in Hnodup as [Hy Hnodup].
    rewrite filter_cons. apply elem_of_cons in Hin as [->|Hin].
    + rewrite decide_True by done. f_equal.
      apply filter_none. intros z Hz Heq. apply Hy. rewrite <- Heq.
      by apply list_elem_of_fmap_2.
    + rewrite decide_False; [by apply IH|].
      intros Heq. apply Hy. rewrite Heq. by apply list_elem_of_fmap_2.
Qed.

(** Distinct connections hold distinct sockets: [wss.on('connection')] draws
    one connection id per socket. *)
Lemma registry_sockets_NoDup (connections : gmap string ConnectedPlayer.t) :
  (∀ c1 c2 p1 p2,
     connections !! c1 = Some p1 → connections !! c2 = Some p2 →
     ConnectedPlayer.ws p1 = ConnectedPlayer.ws p2 → c1 = c2) →
  NoDup (ConnectedPlayer.ws <$> (map_to_list connections).*2).
Proof.
  intros Hinj. rewrite <- list_fmap_compose.
  apply NoDup_fmap_2_strong; [|apply NoDup_map_to_list].
  intros [c1 p1] [c2 p2] H1%elem_of_map_to_list H2%elem_of_map_to_list Hws.
  simpl in Hws. assert (c1 = c2) as -> by eauto. congruence.
Qed.

(** What the sockets of a registry receive from a broadcast without
    exclusion: one message on the open sockets of the session's connections,
    nothing elsewhere. *)
Lemma broadcast_received (sessionId : string) (message : ServerResponse.t)
    (pm : PlayerManager.t) (rs : WebSocket.t → WebSocket.state)
    (c : string) (p : ConnectedPlayer.t) :
  (∀ c1 c2 p1 p2,
     PlayerManager.connections pm !! c1 = Some p1 →
     PlayerManager.connections pm !! c2 = Some p2 →
     ConnectedPlayer.ws p1 = ConnectedPlayer.ws p2 → c1 = c2) →
  PlayerManager.connections pm !! c = Some p →
  Server.received (ConnectedPlayer.ws p)
    ((λ player, (ConnectedPlayer.ws player, message)) <$>
     filter (λ player, WebSocket.is_open (rs (ConnectedPlayer.ws player)) = true)
            (PlayerManager.getConnectionsBySession sessionId pm))
  = if decide (ConnectedPlayer.sessionId p = sessionId)
    then if WebSocket.is_open (rs (ConnectedPlayer.ws p))
         then [message] else []
    else [].
Proof.
  intros Hinj Hp. rewrite received_fmap.
  unfold PlayerManager.getConnectionsBySession.
  rewrite !list_filter_filter.
  rewrite (list_filter_iff _
             (λ x, (WebSocket.is_open (rs (ConnectedPlayer.ws x)) = true
                    ∧ ConnectedPlayer.sessionId x = sessionId)
                   ∧ ConnectedPlayer.ws x = ConnectedPlayer.ws p))
    by (intros x; tauto).
  rewrite <- list_filter_filter.
  rewrite (filter_unique ConnectedPlayer.ws).
  - rewrite filter_cons, filter_nil.
    destruct (decide (ConnectedPlayer.sessionId p = sessionId)) as [Hs|Hs];
      destruct (WebSocket.is_open (rs (ConnectedPlayer.ws p))) eqn:Hopen.
    + by rewrite decide_True.
    + rewrite decide_False; [done|]. by intros [? _].
    + rewrite decide_False; [done|]. by intros [_ ?].
    + rewrite decide_False; [done|]. by intros [_ ?].
  - by apply registry_sockets_NoDup.
  - apply (list_elem_of_fmap_2 snd _ (c, p)). by apply elem_of_map_to_list.
Qed.

(** C9, as the claim states it, fails: a connection of the session whose
    socket is not OPEN is left out of the broadcast. Alice (c1, socket 1)
    and Bob (c2, socket 2) are joined to "s1"; socket 2 is closing; Alice
    votes. Socket 1 gets the event, socket 2 gets nothing. *)
Lemma handleSyncEvent_omits_closing_socket :
  let srv := Sample.closing 2 Sample.server2 in
  let vote := SyncEvent.VOTE_SUBMITTED "alice" (Js.VNum 3) in
  let srv' :=
    Server.handleSyncEvent "u" 13 "c1" (Sample.eventMessage vote) srv in
  let new := drop (length (Server.sent srv)) (Server.sent srv') in
  ConnectedPlayer.ws <$>
    PlayerManager.getConnectionsBySession "s1" (Server.playerManager srv)
    = [1; 2]
  ∧ Server.received 1 new = [Server.syncEvent 13 vote]
  ∧ Server.received 2 new = [].
Proof. vm_compute. by split_and!. Qed.

(** C9, amended. When a registered connection submits a domain event, the
    router makes these calls of [send] and no other: one with the
    [sync_event] on the socket of every connection registered for the
    sender's session whose socket is OPEN. The sender is not excluded;
    connections whose socket is not OPEN, and connections of other sessions,
    get nothing. Distinct registry entries are assumed to hold distinct
    sockets, as [wss.on('connection')] sets them up. *)
Theorem handleSyncEvent_broadcast (uuid : string) (now : Z)
    (connectionId : string) (message : WebSocketMessage.t) (srv : Server.t)
    (sender : ConnectedPlayer.t) (event : SyncEvent.t) :
  PlayerManager.getConnection connectionId (Server.playerManager srv)
    = Some sender →
  WebSocketMessage.event message = Some event →
  (∀ c1 c2 p1 p2,
     PlayerManager.getConnection c1 (Server.playerManager srv) = Some p1 →
     PlayerManager.getConnection c2 (Server.playerManager srv) = Some p2 →
     ConnectedPlayer.ws p1 = ConnectedPlayer.ws p2 → c1 = c2) →
  ∃ new,
    Server.sent (Server.handleSyncEvent uuid now connectionId message srv)
      = Server.sent srv ++ new
    ∧ (∀ c p,
         PlayerManager.getConnection c (Server.playerManager srv) = Some p →
         Server.received (ConnectedPlayer.ws p) new
         = if decide (ConnectedPlayer.sessionId p
                        = ConnectedPlayer.sessionId sender)
           then if WebSocket.is_open
                     (Server.readyState srv (ConnectedPlayer.ws p))
                then [Server.syncEvent now event] else []
           else [])
    ∧ Server.received (ConnectedPlayer.ws sender) new
      = if WebSocket.is_open
             (Server.readyState srv (ConnectedPlayer.ws sender))
        then [Server.syncEvent now event] else [].
Proof.
  intros Hsender Hevent Hinj. unfold Server.handleSyncEvent.
  rewrite Hsender, Hevent, broadcastToSession_all.
  cbn [Server.sent Server.playerManager Server.readyState].
  eexists. split; [reflexivity|].
  assert (∀ c p,
    PlayerManager.getConnection c (Server.playerManager srv) = Some p →
    Server.received (ConnectedPlayer.ws p)
      ((λ player, (ConnectedPlayer.ws player, Server.syncEvent now event)) <$>
       filter (λ player,
                 WebSocket.is_open
                   (Server.readyState srv (ConnectedPlayer.ws player)) = true)
              (PlayerManager.getConnectionsBySession
                 (ConnectedPlayer.sessionId sender) (Server.playerManager srv)))
    = if decide (ConnectedPlayer.sessionId p
                   = ConnectedPlayer.sessionId sender)
      then if WebSocket.is_open (Server.readyState srv (ConnectedPlayer.ws p))
           then [Server.syncEvent now event] else []
      else []) as Hall.
  { intros c p Hp. by eapply broadcast_received. }
  split; [exact Hall|].
  rewrite (Hall connectionId sender Hsender). by rewrite decide_True.
Qed.

Lemma NoDup_fmap_elem_inj {A B} (f : A → B) (l : list A) (x y : A) :
  NoDup (f <$> l) → x ∈ l → y ∈ l → f x = f y → x = y.
Proof.
  induction l as [|z l IH]; intros Hnodup Hx Hy Heq.
  - by apply elem_of_nil in Hx.
  - rewrite fmap_cons in Hnodup. apply NoDup_cons in Hnodup as [Hz Hnodup].
    apply elem_of_cons in Hx as [->|Hx]; apply elem_of_cons in Hy as [->|Hy].
    + done.
    + destruct Hz. rewrite Heq. by apply list_elem_of_fmap_2.
    + destruct Hz. rewrite <- Heq. by apply list_elem_of_fmap_2.
    + by apply IH.
Qed.

(** The sockets of a registry are distinct when their list has no
    duplicate, which can be computed on a given registry. *)
Lemma registry_sockets_distinct (pm : PlayerManager.t) :
  bool_decide
    (NoDup (ConnectedPlayer.ws <$>
            (map_to_list (PlayerManager.connections pm)).*2)) = true →
  ∀ c1 c2 p1 p2,
    PlayerManager.getConnection c1 pm = Some p1 →
    PlayerManager.getConnection c2 pm = Some p2 →
    ConnectedPlayer.ws p1 = ConnectedPlayer.ws p2 → c1 = c2.
Proof.
  intros Hnodup%bool_decide_eq_true c1 c2 p1 p2 H1 H2 Hws.
  rewrite <- list_fmap_compose in Hnodup.
  assert ((c1, p1) = (c2, p2)) as Heq; [|congruence].
  eapply NoDup_fmap_elem_inj; [exact Hnodup| | |exact Hws];
    by apply elem_of_map_to_list.
Qed.

Lemma handleSyncEvent_broadcast_witness :
  ∃ new,
    Server.sent
      (Server.handleSyncEvent "u" 13 "c1"
         (Sample.eventMessage (SyncEvent.VOTE_SUBMITTED "alice" (Js.VNum 3)))
         Sample.server2)
    = Server.sent Sample.server2 ++ new
    ∧ Server.received 1 new
      = [Server.syncEvent 13 (SyncEvent.VOTE_SUBMITTED "alice" (Js.VNum 3))]
    ∧ Server.received 2 new
      = [Server.syncEvent 13 (SyncEvent.VOTE_SUBMITTED "alice" (Js.VNum 3))].
Proof.
  edestruct (handleSyncEvent_broadcast "u" 13 "c1"
               (Sample.eventMessage
                  (SyncEvent.VOTE_SUBMITTED "alice" (Js.VNum 3)))
               Sample.server2)
    as (new & Hsent & Hall & _).
  - vm_compute. reflexivity.
  - reflexivity.
  - apply registry_sockets_distinct. vm_compute. reflexivity.
  - exists new. split; [exact Hsent|]. split.
    + refine (eq_trans (Hall "c1" (ConnectedPlayer.mk 1 "s1" "alice" "Alice" 10)
                          _) _); vm_compute; reflexivity.
    + refine (eq_trans (Hall "c2" (ConnectedPlayer.mk 2 "s1" "bob" "Bob" 11)
                          _) _); vm_compute; reflexivity.
Defined.

(** Distinct entries on distinct sockets is an invariant of the registry:
    only [handleJoin] adds entries, and it keeps the property as long as it
    is called, as in [wss.on('connection')], with the one connection id of
    the socket. *)
Lemma broadcastToSession_playerManager (sessionId : string)
    (message : ServerResponse.t) (excludeConnectionId : option string)
    (srv : Server.t) :
  Server.playerManager
    (Server.broadcastToSession sessionId message excludeConnectionId srv)
  = Server.playerManager srv.
Proof.
  unfold Server.broadcastToSession.
  generalize (PlayerManager.getConnectionsBySession sessionId
                (Server.playerManager srv)).
  intros l. revert srv. induction l as [|player l IH]; intros srv; [done|].
  cbn [foldl]. rewrite IH. unfold Server.broadcastStep.
  destruct (Server.excluded _ _ _); [done|].
  by destruct (WebSocket.is_open _).
Qed.

Lemma handleJoin_playerManager (now : Z) (connectionId : string)
    (ws : WebSocket.t) (message : WebSocketMessage.t) (srv : Server.t) :
  Server.playerManager (Server.handleJoin now connectionId ws message srv)
    = Server.playerManager srv
  ∨ ∃ sessionId userId userName,
      Server.playerManager (Server.handleJoin now connectionId ws message srv)
      = PlayerManager.addConnection now connectionId ws sessionId userId
          userName (Server.playerManager srv).
Proof.
  unfold Server.handleJoin.
  destruct (WebSocketMessage.sessionId message) as [sessionId|]; [|by left].
  destruct (WebSocketMessage.userId message) as [userId|]; [|by left].
  destruct (WebSocketMessage.userName message) as [userName|]; [|by left].
  destruct (_ || _); [by left|]. right. exists sessionId, userId, userName.
  cbn [Server.sessionManager].
  destruct (SessionManager.getSession _ _); [|done].
  destruct (SessionManager.addPlayerToSession _ _ _ _) as [[] sm]; [|done].
  by rewrite broadcastToSession_playerManager.
Qed.

Lemma handleJoin_sockets_distinct (now : Z) (connectionId : string)
    (ws : WebSocket.t) (message : WebSocketMessage.t) (srv : Server.t) :
  (∀ c1 c2 p1 p2,
     PlayerManager.getConnection c1 (Server.playerManager srv) = Some p1 →
     PlayerManager.getConnection c2 (Server.playerManager srv) = Some p2 →
     ConnectedPlayer.ws p1 = ConnectedPlayer.ws p2 → c1 = c2) →
  (∀ c p,
     PlayerManager.getConnection c (Server.playerManager srv) = Some p →
     ConnectedPlayer.ws p = ws → c = connectionId) →
  ∀ c1 c2 p1 p2,
    PlayerManager.getConnection c1
      (Server.playerManager (Server.handleJoin now connectionId ws message srv))
      = Some p1 →
    PlayerManager.getConnection c2
      (Server.playerManager (Server.handleJoin now connectionId ws message srv))
      = Some p2 →
    ConnectedPlayer.ws p1 = ConnectedPlayer.ws p2 → c1 = c2.
Proof.
  intros Hinj Hown c1 c2 p1 p2.
  destruct (handleJoin_playerManager now connectionId ws message srv)
    as [->|(sessionId & userId & userName & ->)]; [apply Hinj|].
  unfold PlayerManager.getConnection, PlayerManager.addConnection.
  cbn [PlayerManager.connections].
  intros H1 H2 Hws.
  apply lookup_insert_Some in H1 as [[<- <-]|[Hc1 H1]];
    apply lookup_insert_Some in H2 as [[<- <-]|[Hc2 H2]].
  - done.
  - symmetry. by eapply Hown.
  - by eapply Hown.
  - by eapply Hinj.
Qed.

(* ================================================================== *)
(** * Further properties of the registry *)
(* ================================================================== *)

(** ** Calls on a session that does not exist *)

(** X1. Every mutating operation of the Session Registry called with an id
    under which no session is stored reports failure ([false], or [null] for
    [startVoting]) and returns the registry as it was. *)
Theorem mutators_fail_on_missing_session (uuid : string) (now : Z)
    (sid pid : string) (player : Player.t) (vote : Js.value)
    (issueName : option string) (settings : option GameSettings.patch)
    (facilitator name votingSystem : option string)
    (sessions : SessionManager.t) :
  SessionManager.getSession sid sessions = None →
  SessionManager.addPlayerToSession now sid player sessions = (false, sessions)
  ∧ SessionManager.removePlayerFromSession now sid pid sessions
    = (false, sessions)
  ∧ SessionManager.updatePlayerVote now sid pid vote sessions
    = (false, sessions)
  ∧ SessionManager.startVoting uuid now sid issueName sessions
    = (None, sessions)
  ∧ SessionManager.revealVotes now sid sessions = (false, sessions)
  ∧ SessionManager.updateSessionSettings now sid settings facilitator name
      votingSystem sessions = (false, sessions).
Proof.
  unfold SessionManager.getSession. intros Hmissing.
  unfold SessionManager.addPlayerToSession,
    SessionManager.removePlayerFromSession, SessionManager.updatePlayerVote,
    SessionManager.startVoting, SessionManager.revealVotes,
    SessionManager.updateSessionSettings.
  by rewrite Hmissing.
Qed.

Lemma mutators_fail_on_missing_session_witness :
  SessionManager.revealVotes 9 "nope" Sample.voted = (false, Sample.voted).
Proof.
  refine (proj1 (proj2 (proj2 (proj2 (proj2
    (mutators_fail_on_missing_session "u" 9 "nope" "bob" Sample.bob
       (Js.VNum 1) None None None None None Sample.voted _)))))).
  vm_compute. reflexivity.
Defined.

(** ** Other sessions *)

Lemma insert_frame (sid : string) (s s' : GameSession.t)
    (sessions : SessionManager.t) :
  sessions !! sid = Some s →
  dom (<[sid := s']> sessions) = dom sessions
  ∧ ∀ k, k ≠ sid → <[sid := s']> sessions !! k = sessions !! k.
Proof.
  intros Hs. split.
  - apply dom_insert_lookup_L. by eexists.
  - intros k Hk. by apply lookup_insert_ne.
Qed.

(** X2. No mutating operation of the Session Registry creates or deletes a
    session, and none touches a session other than the one it is called on:
    the set of session ids is the same afterwards and every other session is
    found as it was. *)
Theorem mutators_frame (uuid : string) (now : Z)
    (sid pid : string) (player : Player.t) (vote : Js.value)
    (issueName : option string) (settings : option GameSettings.patch)
    (facilitator name votingSystem : option string)
    (sessions : SessionManager.t) :
  ∀ sessions',
    sessions' = (SessionManager.addPlayerToSession now sid player sessions).2
    ∨ sessions'
      = (SessionManager.removePlayerFromSession now sid pid sessions).2
    ∨ sessions' = (SessionManager.updatePlayerVote now sid pid vote sessions).2
    ∨ sessions' = (SessionManager.startVoting uuid now sid issueName sessions).2
    ∨ sessions' = (SessionManager.revealVotes now sid sessions).2
    ∨ sessions' = (SessionManager.updateSessionSettings now sid settings
                     facilitator name votingSystem sessions).2 →
    dom sessions' = dom sessions
    ∧ ∀ k, k ≠ sid →
        SessionManager.getSession k sessions'
          = SessionManager.getSession k sessions.
Proof.
  unfold SessionManager.getSession.
  unfold SessionManager.addPlayerToSession,
    SessionManager.removePlayerFromSession, SessionManager.updatePlayerVote,
    SessionManager.startVoting, SessionManager.revealVotes,
    SessionManager.updateSessionSettings.
  intros sessions' Hcase.
  destruct (sessions !! sid) as [s|] eqn:Hs.
  - destruct (GameSession.currentVote s) as [r|];
      destruct Hcase as [->|[->|[->|[->|[->| ->]]]]]; cbn [snd];
      first [done | by eapply insert_frame].
  - by destruct Hcase as [->|[->|[->|[->|[->| ->]]]]].
Qed.

Lemma mutators_frame_witness :
  dom (SessionManager.revealVotes 9 "s1" Sample.voted).2 = dom Sample.voted.
Proof.
  refine (proj1 (mutators_frame "u" 9 "s1" "bob" Sample.bob (Js.VNum 1)
                   None None None None None Sample.voted _ _)).
  do 4 right. left. reflexivity.
Defined.

(** ** Changing a vote *)

Lemma prop_set_set {A} (k : string) (v1 v2 : A) (o : Js.object A) :
  Js.prop_set k v2 (Js.prop_set k v1 o) = Js.prop_set k v2 o.
Proof.
  unfold Js.prop_set at 2 3.
  destruct (list_find _ o) as [[i kv]|] eqn:Hfind.
  - unfold Js.prop_set. erewrite list_find_insert_here by done.
    apply list_insert_insert_eq.
  - case_decide as Hk.
    + unfold Js.prop_set. rewrite Hfind. by rewrite decide_True.
    + destruct (list_find_prop_create k v1 o Hfind) as (i & Hi & Hwrite).
      unfold Js.prop_set. rewrite Hi. apply Hwrite.
Qed.

Lemma castVote_twice (v1 v2 : Js.value) (pid : string)
    (players : list Player.t) :
  let cast v l :=
    match list_find (λ p, Player.id p = pid) l with
    | Some (i, player) => <[i := SessionManager.castVote v player]> l
    | None => l
    end in
  cast v2 (cast v1 players) = cast v2 players.
Proof.
  intros cast. unfold cast.
  destruct (list_find _ players) as [[i p]|] eqn:Hfind.
  - erewrite (list_find_insert_here _ players i p
                (SessionManager.castVote v1 p)); [|done|].
    + by rewrite list_insert_insert_eq.
    + apply list_find_Some in Hfind as (_ & Hid & _). done.
  - by rewrite Hfind.
Qed.

(** X3. The last vote wins: recording a vote for a participant who already
    has one recorded in the round leaves exactly the registry that recording
    the second vote alone leaves. The votes map keeps one entry for the
    participant, in its place. *)
Theorem updatePlayerVote_last_wins (t1 t2 : Z) (sid pid : string)
    (v1 v2 : Js.value) (sessions : SessionManager.t) :
  SessionManager.updatePlayerVote t2 sid pid v2
    (SessionManager.updatePlayerVote t1 sid pid v1 sessions).2
  = SessionManager.updatePlayerVote t2 sid pid v2 sessions.
Proof.
  unfold SessionManager.updatePlayerVote.
  destruct (sessions !! sid) as [s|] eqn:Hs; cbn [snd]; [|by rewrite Hs].
  destruct (GameSession.currentVote s) as [r|] eqn:Hr; cbn [snd];
    [|by rewrite Hs, Hr].
  rewrite lookup_insert_eq.
  cbn [GameSession.id GameSession.name GameSession.facilitator
       GameSession.votingSystem GameSession.players GameSession.currentVote
       GameSession.settings GameSession.history GameSession.createdAt
       GameSession.lastActivity GameSession.shared VotingRound.id
       VotingRound.issueName VotingRound.votes VotingRound.startTime
       VotingRound.endTime VotingRound.isRevealed VotingRound.average
       VotingRound.hasAgreement].
  rewrite insert_insert_eq, prop_set_set, writeThrough_writeThrough.
  pose proof (castVote_twice v1 v2 pid (GameSession.players s)) as Hcast.
  cbn zeta in Hcast. by rewrite Hcast.
Qed.



(** ** Settings *)

Lemma merge_merge (s : GameSettings.t) (p : GameSettings.patch) :
  GameSettings.merge (GameSettings.merge s p) p = GameSettings.merge s p.
Proof.
  destruct s, p as [[] [] [] [] [] []]; reflexivity.
Qed.

(** X5. [updateSessionSettings] is a sparse update. The roster, the current
    round and the history are kept and [lastActivity] is refreshed. A
    setting named by the patch takes the patch's value and every other
    setting keeps its own; without a patch the settings are kept. The name,
    the facilitator and the voting system change only when a non-empty
    string is given: an absent or empty one keeps the stored value. The new
    facilitator is not looked up in the roster. *)
Theorem updateSessionSettings_sparse (now : Z) (sid : string)
    (settings : option GameSettings.patch)
    (facilitator name votingSystem : option string)
    (sessions : SessionManager.t) (s : GameSession.t) :
  sessions !! sid = Some s →
  ∃ s',
    SessionManager.updateSessionSettings now sid settings facilitator name
      votingSystem sessions = (true, <[sid := s']> sessions)
    ∧ GameSession.players s' = GameSession.players s
    ∧ GameSession.currentVote s' = GameSession.currentVote s
    ∧ GameSession.history s' = GameSession.history s
    ∧ GameSession.id s' = GameSession.id s
    ∧ GameSession.lastActivity s' = now
    ∧ (settings = None → GameSession.settings s' = GameSession.settings s)
    ∧ (∀ p, settings = Some p →
         let old := GameSession.settings s in
         let new := GameSession.settings s' in
         GameSettings.autoReveal new
           = default (GameSettings.autoReveal old) (GameSettings.p_autoReveal p)
         ∧ GameSettings.showAverage new
           = default (GameSettings.showAverage old)
               (GameSettings.p_showAverage p)
         ∧ GameSettings.showCountdown new
           = default (GameSettings.showCountdown old)
               (GameSettings.p_showCountdown p)
         ∧ GameSettings.enableFunFeatures new
           = default (GameSettings.enableFunFeatures old)
               (GameSettings.p_enableFunFeatures p)
         ∧ GameSettings.whoCanReveal new
           = default (GameSettings.whoCanReveal old)
               (GameSettings.p_whoCanReveal p)
         ∧ GameSettings.whoCanManageIssues new
           = default (GameSettings.whoCanManageIssues old)
               (GameSettings.p_whoCanManageIssues p))
    ∧ (∀ x, x ≠ "" →
         (name = Some x → GameSession.name s' = x)
         ∧ (facilitator = Some x → GameSession.facilitator s' = x)
         ∧ (votingSystem = Some x → GameSession.votingSystem s' = x))
    ∧ (name = None ∨ name = Some "" →
         GameSession.name s' = GameSession.name s)
    ∧ (facilitator = None ∨ facilitator = Some "" →
         GameSession.facilitator s' = GameSession.facilitator s)
    ∧ (votingSystem = None ∨ votingSystem = Some "" →
         GameSession.votingSystem s' = GameSession.votingSystem s).
Proof.
  intros Hs. unfold SessionManager.updateSessionSettings. rewrite Hs.
  eexists. split; [reflexivity|]. cbn.
  assert (∀ x : string, x ≠ "" → (x =? "")%string = false) as Hne.
  { intros x Hx. by apply String.eqb_neq. }
  split_and!; try done.
  - by intros ->.
  - by intros p ->.
  - intros x Hx. split_and!; intros ->; cbn; by rewrite Hne.
  - by intros [-> | ->].
  - by intros [-> | ->].
  - by intros [-> | ->].
Qed.

Lemma updateSessionSettings_sparse_witness :
  ∃ s',
    (SessionManager.updateSessionSettings 9 "s1" None (Some "bob") (Some "")
       None Sample.voted).2 !! "s1" = Some s'
    ∧ GameSession.facilitator s' = "bob"
    ∧ GameSession.name s' = "Sprint 4".
Proof.
  edestruct (updateSessionSettings_sparse 9 "s1" None (Some "bob") (Some "")
               None Sample.voted)
    as (s' & Heq & _ & _ & _ & _ & _ & _ & _ & Hset & Hname & _).
  - vm_compute. reflexivity.
  - exists s'. rewrite Heq. cbn [snd]. rewrite lookup_insert_eq.
    split; [reflexivity|]. split.
    + apply (Hset "bob"); [discriminate|reflexivity].
    + rewrite Hname by (by right). vm_compute. reflexivity.
Defined.

(** X6. Applying the same settings update twice is applying it once: the
    second call changes nothing but [lastActivity]. *)
Theorem updateSessionSettings_idempotent (t1 t2 : Z) (sid : string)
    (settings : option GameSettings.patch)
    (facilitator name votingSystem : option string)
    (sessions : SessionManager.t) :
  SessionManager.updateSessionSettings t2 sid settings facilitator name
    votingSystem
    (SessionManager.updateSessionSettings t1 sid settings facilitator name
       votingSystem sessions).2
  = SessionManager.updateSessionSettings t2 sid settings facilitator name
      votingSystem sessions.
Proof.
  unfold SessionManager.updateSessionSettings.
  destruct (sessions !! sid) as [s|] eqn:Hs; cbn [snd]; [|by rewrite Hs].
  rewrite lookup_insert_eq, insert_insert_eq.
  cbn [GameSession.id GameSession.name GameSession.facilitator
       GameSession.votingSystem GameSession.players GameSession.currentVote
       GameSession.settings GameSession.history GameSession.createdAt].
  assert (∀ (new : option string) (old : string),
    (if Js.truthy_str new then default (if Js.truthy_str new
                                         then default old new else old) new
     else if Js.truthy_str new then default old new else old)
    = (if Js.truthy_str new then default old new else old)) as Hpick.
  { intros [x|] old; cbn; [|done]. by destruct (negb _). }
  rewrite !Hpick. destruct settings as [p|]; [|done].
  by rewrite merge_merge.
Qed.

(** ** Sweeping sessions twice *)

(** X7. [cleanupInactiveSessions] is idempotent: a second sweep at the same
    instant with the same age limit removes nothing, reports 0 and returns
    the registry the first sweep left. *)
Theorem cleanupInactiveSessions_idempotent (now maxAge : Z)
    (sessions : SessionManager.t) :
  SessionManager.cleanupInactiveSessions now maxAge
    (SessionManager.cleanupInactiveSessions now maxAge sessions).2
  = (0, (SessionManager.cleanupInactiveSessions now maxAge sessions).2).
Proof.
  apply injective_projections.
  - rewrite cleanup_count, cleanup_is_filter. cbn [fst].
    apply map_size_empty_iff, map_empty. intros k.
    apply map_lookup_filter_None. right.
    intros s [_ Hyoung]%map_lookup_filter_Some Hold. by apply Hyoung.
  - rewrite cleanup_is_filter. cbn [snd]. rewrite cleanup_is_filter.
    rewrite map_filter_filter. apply map_filter_ext.
    intros k s _. tauto.
Qed.

(** ** Well-formed sessions *)

Lemma elem_of_list_insert_inv {A} (l : list A) (i : nat) (x y : A) :
  y ∈ <[i := x]> l → y = x ∨ ∃ j, j ≠ i ∧ l !! j = Some y.
Proof.
  intros [j Hj]%list_elem_of_lookup.
  apply list_lookup_insert_Some in Hj as [(-> & -> & _)|[Hne Hj]].
  - by left.
  - right. by exists j.
Qed.

Lemma NoDup_fmap_insert_same {A B} (f : A → B) (l : list A) (i : nat)
    (x y : A) :
  l !! i = Some x → f y = f x → f <$> <[i := y]> l = f <$> l.
Proof.
  intros Hi Hf. rewrite list_fmap_insert. apply list_insert_id.
  by rewrite list_lookup_fmap, Hi, Hf.
Qed.

Lemma prop_set_keys_NoDup {A} (k : string) (v : A) (o : Js.object A) :
  NoDup o.*1 → NoDup (Js.prop_set k v o).*1.
Proof.
  intros Hnodup. unfold Js.prop_set.
  destruct (list_find _ o) as [[i [k' v']]|] eqn:Hfind.
  - apply list_find_Some in Hfind as (Hi & Hk & _). simpl in Hk. subst k'.
    by erewrite (NoDup_fmap_insert_same fst).
  - case_decide; [done|].
    rewrite (fmap_Permutation fst _ _ (prop_create_Permutation k v o)).
    rewrite fmap_cons. apply NoDup_cons. split; [|done].
    intros ([k' v'] & Hk & Hin)%list_elem_of_fmap. simpl in Hk.
    apply list_find_None in Hfind. rewrite Forall_forall in Hfind.
    by apply (Hfind _ Hin).
Qed.

Lemma prop_delete_keys_NoDup {A} (k : string) (o : Js.object A) :
  NoDup o.*1 → NoDup (Js.prop_delete k o).*1.
Proof.
  intros Hnodup. apply (sublist_NoDup _ (o.*1)); [done|].
  apply fmap_sublist, sublist_filter.
Qed.

Section wfSession.
Context (s : GameSession.t) (Hwf : SessionManager.wfSession s).

Lemma wfSession_addPlayer (now : Z) (sid : string) (player : Player.t)
    (sessions : SessionManager.t) :
  sessions !! sid = Some s → Player.hasVoted player ≠ Some true →
  ∃ s',
    SessionManager.addPlayerToSession now sid player sessions
      = (true, <[sid := s']> sessions)
    ∧ GameSession.id s' = GameSession.id s ∧ SessionManager.wfSession s'.
Proof.
  destruct Hwf as (Hroster & Hvotes & Hvoted).
  intros Hs Hplayer. unfold SessionManager.addPlayerToSession. rewrite Hs.
  eexists. split; [reflexivity|]. split; [done|].
  unfold SessionManager.wfSession, SessionManager.rosterUnique,
    SessionManager.votesUnique, SessionManager.votedInRound. cbn.
  destruct (list_find _ (GameSession.players s)) as [[i old]|] eqn:Hfind.
  - apply list_find_Some in Hfind as (Hi & Hold & _).
    split_and!; [|done|].
    + by erewrite (NoDup_fmap_insert_same Player.id).
    + intros p [->|(j & _ & Hj)]%elem_of_list_insert_inv Hp Hproto; [done|].
      apply Hvoted; [|done..]. by eapply list_elem_of_lookup_2.
  - apply list_find_None in Hfind. rewrite Forall_forall in Hfind.
    split_and!; [|done|].
    + rewrite fmap_app. apply NoDup_app.
      split_and!; [done| |apply NoDup_singleton].
      intros k (q & -> & Hq)%list_elem_of_fmap ?%list_elem_of_singleton.
      by apply (Hfind q Hq).
    + intros p [Hp| ->%list_elem_of_singleton]%elem_of_app Hv Hproto;
        [|done]. by apply Hvoted.
Qed.

Lemma wfSession_removePlayer (now : Z) (sid pid : string)
    (sessions : SessionManager.t) :
  sessions !! sid = Some s →
  ∃ s',
    SessionManager.removePlayerFromSession now sid pid sessions
      = (true, <[sid := s']> sessions)
    ∧ GameSession.id s' = GameSession.id s ∧ SessionManager.wfSession s'.
Proof.
  destruct Hwf as (Hroster & Hvotes & Hvoted).
  intros Hs. unfold SessionManager.removePlayerFromSession. rewrite Hs.
  eexists. split; [reflexivity|]. split; [done|].
  unfold SessionManager.wfSession, SessionManager.rosterUnique,
    SessionManager.votesUnique, SessionManager.votedInRound. cbn.
  split_and!.
  - apply (sublist_NoDup _ (Player.id <$> GameSession.players s)); [done|].
    apply fmap_sublist, sublist_filter.
  - intros r'. unfold SessionManager.dropVote.
    destruct (GameSession.currentVote s) as [r|] eqn:Hr; [|done].
    destruct (Js.prop_get pid (VotingRound.votes r)) as [v|];
      [destruct (Js.truthy v)|]; intros [= <-]; cbn [VotingRound.votes];
      try apply prop_delete_keys_NoDup; by apply Hvotes.
  - intros p [Hid Hp]%list_elem_of_filter Hv Hproto.
    destruct (Hvoted p Hp Hv Hproto) as (r & v & Hr & Hvote & Hget).
    rewrite Hr. unfold SessionManager.dropVote.
    destruct (Js.prop_get pid (VotingRound.votes r)) as [w|];
      [destruct (Js.truthy w)|]; eexists _, v;
      (split; [reflexivity|]); split; try done.
    cbn [VotingRound.votes]. by rewrite prop_get_delete_ne.
Qed.

Lemma wfSession_updateVote (now : Z) (sid pid : string) (vote : Js.value)
    (sessions : SessionManager.t) :
  sessions !! sid = Some s →
  SessionManager.updatePlayerVote now sid pid vote sessions = (false, sessions)
  ∨ ∃ s',
      SessionManager.updatePlayerVote now sid pid vote sessions
        = (true, <[sid := s']> sessions)
      ∧ GameSession.id s' = GameSession.id s ∧ SessionManager.wfSession s'.
Proof.
  destruct Hwf as (Hroster & Hvotes & Hvoted).
  intros Hs. unfold SessionManager.updatePlayerVote. rewrite Hs.
  destruct (GameSession.currentVote s) as [r|] eqn:Hr; [right|by left].
  eexists. split; [reflexivity|]. split; [done|].
  unfold SessionManager.wfSession, SessionManager.rosterUnique,
    SessionManager.votesUnique, SessionManager.votedInRound. cbn.
  assert (∀ p, p ∈ GameSession.players s → Player.id p ≠ pid →
            Player.hasVoted p = Some true → Player.id p ≠ "__proto__" →
            ∃ r0 v, Some
                      (VotingRound.mk (VotingRound.id r)
                         (VotingRound.issueName r)
                         (Js.prop_set pid vote (VotingRound.votes r))
                         (VotingRound.startTime r) (VotingRound.endTime r)
                         (VotingRound.isRevealed r) (VotingRound.average r)
                         (VotingRound.hasAgreement r)) = Some r0
                    ∧ Player.vote p = Some v
                    ∧ Js.prop_get (Player.id p) (VotingRound.votes r0)
                      = Some v) as Hothers.
  { intros p Hp Hid Hv Hproto.
    destruct (Hvoted p Hp Hv Hproto) as (r0 & v & Hr0 & ? & ?).
    rewrite Hr in Hr0. injection Hr0 as <-.
    eexists _, v. split; [reflexivity|]. split; [done|].
    cbn [VotingRound.votes]. by rewrite prop_get_set_ne. }
  destruct (list_find _ (GameSession.players s)) as [[i old]|] eqn:Hfind.
  - apply list_find_Some in Hfind as (Hi & Hold & _).
    split_and!.
    + by erewrite (NoDup_fmap_insert_same Player.id).
    + intros r' [= <-]. cbn [VotingRound.votes].
      apply prop_set_keys_NoDup. by apply Hvotes.
    + intros p [->|(j & Hj & Hp)]%elem_of_list_insert_inv Hv Hproto.
      * eexists _, vote. split; [reflexivity|]. split; [done|].
        cbn [VotingRound.votes SessionManager.castVote Player.id] in *.
        rewrite Hold. apply prop_get_set_eq. left. by rewrite <- Hold.
      * apply Hothers; [by eapply list_elem_of_lookup_2| |done..].
        intros Hid. apply Hj.
        eapply (NoDup_lookup (Player.id <$> GameSession.players s));
          [done| |].
        -- by rewrite list_lookup_fmap, Hp.
        -- by rewrite list_lookup_fmap, Hi, Hid, <- Hold.
  - apply list_find_None in Hfind. rewrite Forall_forall in Hfind.
    split_and!; [done| |].
    + intros r' [= <-]. cbn [VotingRound.votes].
      apply prop_set_keys_NoDup. by apply Hvotes.
    + intros p Hp Hv Hproto. apply Hothers; [done| |done..].
      by apply Hfind.
Qed.

Lemma wfSession_startVoting (uuid : string) (now : Z) (sid : string)
    (issueName : option string) (sessions : SessionManager.t) :
  sessions !! sid = Some s →
  ∃ s' r,
    SessionManager.startVoting uuid now sid issueName sessions
      = (Some r, <[sid := s']> sessions)
    ∧ GameSession.id s' = GameSession.id s ∧ SessionManager.wfSession s'.
Proof.
  destruct Hwf as (Hroster & Hvotes & Hvoted).
  intros Hs. unfold SessionManager.startVoting. rewrite Hs.
  eexists _, _. split; [reflexivity|]. split; [done|].
  unfold SessionManager.wfSession, SessionManager.rosterUnique,
    SessionManager.votesUnique, SessionManager.votedInRound. cbn.
  split_and!.
  - rewrite <- list_fmap_compose.
    by rewrite (list_fmap_ext _ Player.id (GameSession.players s)).
  - intros r' [= <-]. apply NoDup_nil_2.
  - by intros p (q & -> & _)%list_elem_of_fmap.
Qed.

Lemma wfSession_revealVotes (now : Z) (sid : string)
    (sessions : SessionManager.t) :
  sessions !! sid = Some s →
  SessionManager.revealVotes now sid sessions = (false, sessions)
  ∨ ∃ s',
      SessionManager.revealVotes now sid sessions
        = (true, <[sid := s']> sessions)
      ∧ GameSession.id s' = GameSession.id s ∧ SessionManager.wfSession s'.
Proof.
  destruct Hwf as (Hroster & Hvotes & Hvoted).
  intros Hs. unfold SessionManager.revealVotes. rewrite Hs.
  destruct (GameSession.currentVote s) as [r|] eqn:Hr; [right|by left].
  eexists. split; [reflexivity|]. split; [done|].
  unfold SessionManager.wfSession, SessionManager.rosterUnique,
    SessionManager.votesUnique, SessionManager.votedInRound. cbn.
  split_and!; [done| |].
  - intros r' [= <-]. rewrite revealed_votes. by apply Hvotes.
  - intros p Hp Hv Hproto.
    destruct (Hvoted p Hp Hv Hproto) as (r0 & v & Hr0 & ? & ?).
    rewrite Hr in Hr0. injection Hr0 as <-.
    eexists _, v. split; [reflexivity|]. by rewrite revealed_votes.
Qed.

Lemma wfSession_updateSettings (now : Z) (sid : string)
    (settings : option GameSettings.patch)
    (facilitator name votingSystem : option string)
    (sessions : SessionManager.t) :
  sessions !! sid = Some s →
  ∃ s',
    SessionManager.updateSessionSettings now sid settings facilitator name
      votingSystem sessions = (true, <[sid := s']> sessions)
    ∧ GameSession.id s' = GameSession.id s ∧ SessionManager.wfSession s'.
Proof.
  intros Hs. unfold SessionManager.updateSessionSettings. rewrite Hs.
  eexists. split; [reflexivity|]. split; [done|]. exact Hwf.
Qed.

End wfSession.

Lemma wf_insert (sid : string) (s s' : GameSession.t)
    (sessions : SessionManager.t) :
  SessionManager.wf sessions → sessions !! sid = Some s →
  GameSession.id s' = GameSession.id s → SessionManager.wfSession s' →
  SessionManager.wf (<[sid := s']> sessions).
Proof.
  intros Hwf Hs Hid Hs' k s0 [[<- <-]|[Hk Hs0]]%lookup_insert_Some.
  - split; [|done]. rewrite Hid. by apply (Hwf sid s).
  - by apply Hwf.
Qed.

Lemma wf_applyEvent (uuid : string) (now : Z) (sid : string)
    (event : SyncEvent.t) (sessions : SessionManager.t) :
  SessionManager.wf sessions →
  SessionManager.wf (Server.applyEvent uuid now sid event sessions).
Proof.
  intros Hwf. destruct (sessions !! sid) as [s|] eqn:Hs.
  - destruct (Hwf sid s Hs) as [_ Hs'].
    destruct event; cbn [Server.applyEvent]; try done.
    + edestruct (wfSession_removePlayer s Hs') as (s' & -> & ? & ?);
        [done|]. by eapply wf_insert.
    + edestruct (wfSession_updateVote s Hs') as [-> |(s' & -> & ? & ?)];
        [done|done|]. by eapply wf_insert.
    + edestruct (wfSession_startVoting s Hs') as (s' & r & -> & ? & ?);
        [done|]. by eapply wf_insert.
    + edestruct (wfSession_revealVotes s Hs') as [-> |(s' & -> & ? & ?)];
        [done|done|]. by eapply wf_insert.
    + edestruct (wfSession_updateSettings s Hs') as (s' & -> & ? & ?);
        [done|]. by eapply wf_insert.
  - destruct event; cbn [Server.applyEvent]; try done;
      unfold SessionManager.removePlayerFromSession,
        SessionManager.updatePlayerVote, SessionManager.startVoting,
        SessionManager.revealVotes, SessionManager.updateSessionSettings;
      by rewrite Hs.
Qed.

Lemma broadcastToSession_sessionManager (sessionId : string)
    (message : ServerResponse.t) (excludeConnectionId : option string)
    (srv : Server.t) :
  Server.sessionManager
    (Server.broadcastToSession sessionId message excludeConnectionId srv)
  = Server.sessionManager srv.
Proof.
  unfold Server.broadcastToSession.
  generalize (PlayerManager.getConnectionsBySession sessionId
                (Server.playerManager srv)).
  intros l. revert srv. induction l as [|player l IH]; intros srv; [done|].
  cbn [foldl]. rewrite IH. unfold Server.broadcastStep.
  destruct (Server.excluded _ _ _); [done|].
  by destruct (WebSocket.is_open _).
Qed.

Lemma wf_handleJoin (now : Z) (connectionId : string) (ws : WebSocket.t)
    (message : WebSocketMessage.t) (srv : Server.t) :
  SessionManager.wf (Server.sessionManager srv) →
  SessionManager.wf
    (Server.sessionManager
       (Server.handleJoin now connectionId ws message srv)).
Proof.
  intros Hwf. unfold Server.handleJoin.
  destruct (WebSocketMessage.sessionId message) as [sessionId|]; [|done].
  destruct (WebSocketMessage.userId message) as [userId|]; [|done].
  destruct (WebSocketMessage.userName message) as [userName|]; [|done].
  destruct (_ || _); [done|]. cbn [Server.sessionManager].
  unfold SessionManager.getSession.
  destruct (Server.sessionManager srv !! sessionId) as [s|] eqn:Hs; [|done].
  destruct (Hwf sessionId s Hs) as [_ Hs'].
  edestruct (wfSession_addPlayer s Hs' now sessionId
               (Player.mk userId userName None None None (Some true)))
    as (s' & -> & ? & ?); [done|done|].
  rewrite broadcastToSession_sessionManager. cbn [Server.sessionManager
    Server.send]. by eapply wf_insert.
Qed.

Lemma wf_disconnect (notice : string → SyncEvent.t) (now : Z)
    (connectionId : string) (srv : Server.t) :
  SessionManager.wf (Server.sessionManager srv) →
  SessionManager.wf
    (Server.sessionManager (Server.disconnect notice now connectionId srv)).
Proof.
  intros Hwf. unfold Server.disconnect.
  destruct (PlayerManager.removeConnection _ _) as [[player|] pm]; [|done].
  rewrite broadcastToSession_sessionManager. cbn [Server.sessionManager].
  apply (wf_applyEvent "" now (ConnectedPlayer.sessionId player)
           (SyncEvent.PLAYER_LEFT (ConnectedPlayer.userId player)) _ Hwf).
Qed.

Lemma wf_react (srv : Server.t) (i : Server.input) :
  SessionManager.wf (Server.sessionManager srv) →
  SessionManager.wf (Server.sessionManager (Server.react srv i)).
Proof.
  intros Hwf. destruct i as [uuid now c ws message|now ws|now c|now
                            |uuid now name fid fname|ws st];
    cbn [Server.react]; try done.
  - unfold Server.handleMessage.
    destruct (WebSocketMessage.kind message); try done.
    + by apply wf_handleJoin.
    + by apply wf_disconnect.
    + unfold Server.handleSyncEvent.
      destruct (PlayerManager.getConnection _ _) as [player|]; [|done].
      destruct (WebSocketMessage.event message) as [event|]; [|done].
      rewrite broadcastToSession_sessionManager. cbn [Server.sessionManager].
      by apply wf_applyEvent.
  - by apply wf_disconnect.
  - unfold Server.tick.
    destruct (PlayerManager.cleanupStaleConnections _ _ _ _) as [[n pm] rs].
    destruct (SessionManager.cleanupInactiveSessions _ _ _) as [m sm] eqn:Hrun.
    cbn [Server.sessionManager].
    pose proof (cleanup_is_filter now SessionManager.defaultMaxAge
                  (Server.sessionManager srv)) as Hsm.
    rewrite Hrun in Hsm. cbn [snd] in Hsm. subst sm.
    intros k s [Hs _]%map_lookup_filter_Some. by apply Hwf.
  - unfold Server.postSessions.
    destruct name as [name|]; [|done]. destruct fid as [fid|]; [|done].
    destruct fname as [fname|]; [|done]. destruct (_ || _); [done|].
    cbn. intros k s [[<- <-]|[Hk Hs]]%lookup_insert_Some; [|by apply Hwf].
    split; [done|].
    unfold SessionManager.wfSession, SessionManager.rosterUnique,
      SessionManager.votesUnique, SessionManager.votedInRound. cbn.
    split_and!; [apply NoDup_singleton|done|].
    by intros p ->%list_elem_of_singleton.
Qed.

(** ** The shape of the heap *)

Lemma StronglySorted_sublist {A} (R : A → A → Prop) (l1 l2 : list A) :
  l1 `sublist_of` l2 → StronglySorted R l2 → StronglySorted R l1.
Proof.
  induction 1 as [|x l1 l2 Hsub IH|x l1 l2 Hsub IH];
    rewrite ?StronglySorted_cons; [done| |by intros [_ ?]; apply IH].
  intros [Hall Hl2]. split; [|by apply IH].
  apply Forall_forall. intros y Hy. rewrite Forall_forall in Hall.
  apply Hall. by eapply elem_of_sublist.
Qed.

Section ordered_facts.
Context {A : Type}.
Implicit Types (o : Js.object A) (k : string) (v : A).

Lemma ordered_insert_index (n : N) k v o :
  Js.ordered o → k ∉ o.*1 → Js.array_index k = Some n →
  Js.ordered (Js.insert_index n (k, v) o).
Proof.
  unfold Js.ordered. intros Ho Hk Hn.
  induction o as [|kv' o IH].
  - cbn. apply StronglySorted_cons. split; [done|constructor].
  - rewrite fmap_cons in Ho, Hk.
    apply StronglySorted_cons in Ho as [Hall Ho].
    apply not_elem_of_cons in Hk as [Hne Hk].
    rewrite Forall_forall in Hall.
    cbn [Js.insert_index].
    destruct (Js.array_index kv'.1) as [n'|] eqn:Hn';
      [destruct (n' <? n)%N eqn:Hlt|].
    + rewrite fmap_cons. apply StronglySorted_cons.
      split; [|by apply IH].
      rewrite (fmap_Permutation fst _ _ (insert_index_Permutation n (k, v) o)).
      rewrite fmap_cons. apply Forall_cons. split; [|by apply Forall_forall].
      split; [done|]. cbn [fst]. rewrite Hn', Hn. apply N.ltb_lt in Hlt.
      lia.
    + rewrite !fmap_cons. cbn [fst]. apply StronglySorted_cons. split.
      * apply Forall_cons. split.
        -- split; [done|]. cbn [fst]. rewrite Hn, Hn'.
           apply N.ltb_ge in Hlt. lia.
        -- apply Forall_forall. intros x Hx.
           destruct (Hall x Hx) as [_ Hxn]. rewrite Hn' in Hxn.
           split; [by intros ->|]. cbn [fst]. rewrite Hn.
           destruct (Js.array_index x); [|done].
           apply N.ltb_ge in Hlt. lia.
      * apply StronglySorted_cons. split; [by apply Forall_forall|done].
    + rewrite !fmap_cons. cbn [fst]. apply StronglySorted_cons. split.
      * apply Forall_cons. split.
        -- split; [done|]. cbn [fst]. by rewrite Hn, Hn'.
        -- apply Forall_forall. intros x Hx.
           destruct (Hall x Hx) as [_ Hxn]. rewrite Hn' in Hxn.
           split; [by intros ->|]. cbn [fst]. rewrite Hn.
           by destruct (Js.array_index x).
      * apply StronglySorted_cons. split; [by apply Forall_forall|done].
Qed.

Lemma ordered_prop_set k v o : Js.ordered o → Js.ordered (Js.prop_set k v o).
Proof.
  intros Ho. unfold Js.prop_set.
  destruct (list_find _ o) as [[i [k' v']]|] eqn:Hfind.
  - apply list_find_Some in Hfind as (Hi & Hk & _). simpl in Hk. subst k'.
    unfold Js.ordered. by erewrite (NoDup_fmap_insert_same fst).
  - case_decide; [done|].
    assert (k ∉ o.*1) as Hk.
    { intros ([k' v'] & Hk' & Hin)%list_elem_of_fmap. simpl in Hk'.
      apply list_find_None in Hfind. rewrite Forall_forall in Hfind.
      by apply (Hfind _ Hin). }
    unfold Js.prop_create.
    destruct (Js.array_index k) as [n|] eqn:Hn;
      [by apply ordered_insert_index|].
    unfold Js.ordered. rewrite fmap_app. apply StronglySorted_app.
    split_and!; [|done|repeat constructor].
    intros x1 x2 Hx1 ->%list_elem_of_singleton. cbn [fst].
    split; [by intros ->|]. rewrite Hn. by destruct (Js.array_index x1).
Qed.

Lemma ordered_prop_delete k o :
  Js.ordered o → Js.ordered (Js.prop_delete k o).
Proof.
  apply StronglySorted_sublist, fmap_sublist, sublist_filter.
Qed.

Lemma prop_set_no_proto k v o :
  "__proto__" ∉ o.*1 → "__proto__" ∉ (Js.prop_set k v o).*1.
Proof.
  intros Ho. unfold Js.prop_set.
  destruct (list_find _ o) as [[i [k' v']]|] eqn:Hfind.
  - apply list_find_Some in Hfind as (Hi & Hk & _). simpl in Hk. subst k'.
    by erewrite (NoDup_fmap_insert_same fst).
  - case_decide; [done|].
    rewrite (fmap_Permutation fst _ _ (prop_create_Permutation k v o)).
    rewrite fmap_cons. by apply not_elem_of_cons.
Qed.

Lemma prop_delete_no_proto k o :
  "__proto__" ∉ o.*1 → "__proto__" ∉ (Js.prop_delete k o).*1.
Proof.
  intros Ho Hin. apply Ho. eapply elem_of_sublist; [exact Hin|].
  apply fmap_sublist, sublist_filter.
Qed.

End ordered_facts.

Section heap.

Local Abbreviation heap :=
  (λ s : GameSession.t,
     SessionManager.votesOrdered s ∧ SessionManager.historyShares s).

Lemma heap_insert (sid : string) (s' : GameSession.t)
    (sessions : SessionManager.t) :
  SessionManager.wfHeap sessions → heap s' →
  SessionManager.wfHeap (<[sid := s']> sessions).
Proof.
  intros Hwf Hs' k s [[<- <-]|[Hk Hs]]%lookup_insert_Some; [done|].
  by eapply Hwf.
Qed.

(** Writing the votes of the current round through to the entries that
    hold them keeps the shape. *)
Lemma historyShares_writeThrough (s : GameSession.t)
    (cv : option VotingRound.t) :
  SessionManager.historyShares s →
  (cv = None → GameSession.currentVote s = None) →
  GameSession.shared s ≤ length
    (SessionManager.writeThrough cv (GameSession.shared s)
       (GameSession.history s))
  ∧ ∀ i e,
      SessionManager.writeThrough cv (GameSession.shared s)
        (GameSession.history s) !! i = Some e →
      length (SessionManager.writeThrough cv (GameSession.shared s)
                (GameSession.history s)) - GameSession.shared s ≤ i →
      ∃ r, cv = Some r ∧ VotingRound.votes e = VotingRound.votes r.
Proof.
  intros [Hle Hshares] Hnone. rewrite length_writeThrough.
  split; [done|]. intros i e He Hi.
  destruct cv as [r|].
  - exists r. split; [done|].
    destruct (GameSession.history s !! i) as [e0|] eqn:He0.
    + erewrite writeThrough_lookup in He by done.
      rewrite decide_False in He by lia. by injection He as <-.
    + apply lookup_ge_None in He0. apply lookup_lt_Some in He.
      rewrite length_writeThrough in He. lia.
  - cbn in He. destruct (Hshares i e He Hi) as (r & Hr & _).
    rewrite Hnone in Hr; done.
Qed.

Lemma heap_applyEvent (uuid : string) (now : Z) (sid : string)
    (event : SyncEvent.t) (sessions : SessionManager.t) :
  SessionManager.wfHeap sessions →
  SessionManager.wfHeap (Server.applyEvent uuid now sid event sessions).
Proof.
  intros Hwf.
  destruct event; cbn [Server.applyEvent]; try done;
    unfold SessionManager.removePlayerFromSession,
      SessionManager.updatePlayerVote, SessionManager.startVoting,
      SessionManager.revealVotes, SessionManager.updateSessionSettings;
    (destruct (sessions !! sid) as [s|] eqn:Hs; [|done]);
    destruct (Hwf sid s Hs) as [Hordered Hshares].
  - (* PLAYER_LEFT *)
    cbn [snd]. apply heap_insert; [done|]. split.
    + intros r'. cbn [GameSession.currentVote].
      unfold SessionManager.dropVote.
      destruct (GameSession.currentVote s) as [r|] eqn:Hr; [|done].
      destruct (Hordered r Hr) as [Ho Hproto].
      destruct (Js.prop_get _ (VotingRound.votes r)) as [v|];
        [destruct (Js.truthy v)|]; intros [= <-]; cbn [VotingRound.votes];
        try done.
      split; [by apply ordered_prop_delete|by apply prop_delete_no_proto].
    + unfold SessionManager.historyShares.
      cbn [GameSession.shared GameSession.history GameSession.currentVote].
      apply historyShares_writeThrough; [done|].
      unfold SessionManager.dropVote.
      destruct (GameSession.currentVote s) as [r|]; [|done].
      destruct (Js.prop_get _ (VotingRound.votes r)) as [v|];
        [destruct (Js.truthy v)|]; done.
  - (* VOTE_SUBMITTED *)
    destruct (GameSession.currentVote s) as [r|] eqn:Hr; [|done].
    cbn [snd]. apply heap_insert; [done|].
    destruct (Hordered r Hr) as [Ho Hproto]. split.
    + intros r'. cbn [GameSession.currentVote]. intros [= <-].
      cbn [VotingRound.votes].
      split; [by apply ordered_prop_set|by apply prop_set_no_proto].
    + unfold SessionManager.historyShares.
      cbn [GameSession.shared GameSession.history GameSession.currentVote].
      by apply (historyShares_writeThrough s (Some _)).
  - (* VOTING_STARTED *)
    cbn [snd]. apply heap_insert; [done|]. split.
    + intros r'. cbn [GameSession.currentVote]. intros [= <-].
      cbn [VotingRound.votes]. split; [constructor|apply not_elem_of_nil].
    + unfold SessionManager.historyShares.
      cbn [GameSession.shared GameSession.history]. split; [lia|].
      intros i e He%lookup_lt_Some Hi. lia.
  - (* VOTES_REVEALED *)
    destruct (GameSession.currentVote s) as [r|] eqn:Hr; [|done].
    cbn [snd]. apply heap_insert; [done|].
    destruct Hshares as [Hle Hshares]. split.
    + intros r'. cbn [GameSession.currentVote]. intros [= <-].
      rewrite revealed_votes. by apply Hordered.
    + unfold SessionManager.historyShares.
      cbn [GameSession.shared GameSession.history GameSession.currentVote].
      rewrite length_app. cbn [length]. split; [lia|].
      intros i e He Hi. eexists. split; [reflexivity|].
      rewrite revealed_votes.
      apply lookup_app_Some in He as [He|[Hlen He]].
      * destruct (Hshares i e He) as (r0 & Hr0 & Hvotes); [lia|].
        rewrite Hr in Hr0. by injection Hr0 as <-.
      * apply list_lookup_singleton_Some in He as [_ <-].
        apply revealed_votes.
  - (* SETTINGS_UPDATED *)
    cbn [snd]. by apply heap_insert.
Qed.

Lemma heap_react (srv : Server.t) (i : Server.input) :
  SessionManager.wfHeap (Server.sessionManager srv) →
  SessionManager.wfHeap (Server.sessionManager (Server.react srv i)).
Proof.
  intros Hwf.
  assert (∀ notice now c,
            SessionManager.wfHeap
              (Server.sessionManager (Server.disconnect notice now c srv)))
    as Hdis.
  { intros notice now c. unfold Server.disconnect.
    destruct (PlayerManager.removeConnection _ _) as [[player|] pm]; [|done].
    rewrite broadcastToSession_sessionManager. cbn [Server.sessionManager].
    apply (heap_applyEvent "" now (ConnectedPlayer.sessionId player)
             (SyncEvent.PLAYER_LEFT (ConnectedPlayer.userId player)) _ Hwf). }
  destruct i as [uuid now c ws message|now ws|now c|now
                |uuid now name fid fname|ws st];
    cbn [Server.react]; try done.
  - unfold Server.handleMessage.
    destruct (WebSocketMessage.kind message); try done.
    + unfold Server.handleJoin.
      destruct (WebSocketMessage.sessionId message) as [sessionId|]; [|done].
      destruct (WebSocketMessage.userId message) as [userId|]; [|done].
      destruct (WebSocketMessage.userName message) as [userName|]; [|done].
      destruct (_ || _); [done|]. cbn [Server.sessionManager].
      unfold SessionManager.getSession, SessionManager.addPlayerToSession.
      destruct (Server.sessionManager srv !! sessionId) as [s|] eqn:Hs;
        [|done].
      rewrite broadcastToSession_sessionManager.
      cbn [Server.sessionManager Server.send]. apply heap_insert; [done|].
      exact (Hwf sessionId s Hs).
    + apply Hdis.
    + unfold Server.handleSyncEvent.
      destruct (PlayerManager.getConnection _ _) as [player|]; [|done].
      destruct (WebSocketMessage.event message) as [event|]; [|done].
      rewrite broadcastToSession_sessionManager. cbn [Server.sessionManager].
      by apply heap_applyEvent.
  - apply Hdis.
  - unfold Server.tick.
    destruct (PlayerManager.cleanupStaleConnections _ _ _ _) as [[n pm] rs].
    destruct (SessionManager.cleanupInactiveSessions _ _ _) as [m sm] eqn:Hrun.
    cbn [Server.sessionManager].
    pose proof (cleanup_is_filter now SessionManager.defaultMaxAge
                  (Server.sessionManager srv)) as Hsm.
    rewrite Hrun in Hsm. cbn [snd] in Hsm. subst sm.
    intros k s [Hs _]%map_lookup_filter_Some. by eapply Hwf.
  - unfold Server.postSessions.
    destruct name as [name|]; [|done]. destruct fid as [fid|]; [|done].
    destruct fname as [fname|]; [|done]. destruct (_ || _); [done|].
    cbn [snd Server.sessionManager SessionManager.createSession].
    apply heap_insert; [done|]. split; [done|].
    unfold SessionManager.historyShares. cbn. split; [lia|].
    by intros i e.
Qed.

End heap.

(** X8. In every state the process reaches from its start, whatever frames,
    closes, timer ticks and POSTs it reacts to, every session is stored
    under its own id, its roster holds no id twice, its current round holds
    at most one vote per participant id, and every roster record flagged
    [hasVoted] carries the very vote the current round holds for it, unless
    its id is ["__proto__"]: the votes of a round never hold that key. The
    votes are in enumeration order, the array indices first and ascending,
    and the copies of the current round on the history, as many as it was
    revealed, hold its votes. *)
Theorem reachable_sessions_wf (readyState : WebSocket.t → WebSocket.state)
    (inputs : list Server.input) :
  let sessions :=
    Server.sessionManager (Server.run inputs (Server.initial readyState)) in
  SessionManager.wf sessions ∧ SessionManager.wfHeap sessions.
Proof.
  intros sessions. subst sessions. unfold Server.run.
  assert (SessionManager.wf
            (Server.sessionManager (Server.initial readyState))
          ∧ SessionManager.wfHeap
              (Server.sessionManager (Server.initial readyState))) as Hinit.
  { split; intros k s Hs;
      change ((∅ : gmap string GameSession.t) !! k = Some s) in Hs;
      by rewrite lookup_empty in Hs. }
  revert Hinit. generalize (Server.initial readyState).
  induction inputs as [|i inputs IH]; intros srv [Hwf Hheap]; [done|].
  cbn [foldl]. apply IH. split; [by apply wf_react|by apply heap_react].
Qed.

(** ** The history *)

(** X9. Of the registry calls a domain event or a join triggers, only a
    reveal on a session with a current round adds to the history, and it
    adds one entry; no call ever shortens it. In particular starting a new
    round on a round that was never revealed drops that round: it is not
    added to the history. *)
Theorem history_grows_by_reveal_only (uuid : string) (now : Z) (sid : string)
    (event : SyncEvent.t) (player : Player.t)
    (sessions : SessionManager.t) (s : GameSession.t) :
  sessions !! sid = Some s →
  (∃ s',
     Server.applyEvent uuid now sid event sessions !! sid = Some s'
     ∧ length (GameSession.history s')
       = length (GameSession.history s)
         + match event, GameSession.currentVote s with
           | SyncEvent.VOTES_REVEALED, Some _ => 1
           | _, _ => 0
           end)
  ∧ (∃ s',
       (SessionManager.addPlayerToSession now sid player sessions).2 !! sid
         = Some s'
       ∧ GameSession.history s' = GameSession.history s).
Proof.
  intros Hs. split.
  - destruct event; cbn [Server.applyEvent];
      try (exists s; split; [done|]; lia);
      unfold SessionManager.removePlayerFromSession,
        SessionManager.updatePlayerVote, SessionManager.startVoting,
        SessionManager.revealVotes, SessionManager.updateSessionSettings;
      rewrite Hs; destruct (GameSession.currentVote s) as [r|];
      cbn [snd]; rewrite ?lookup_insert_eq;
      eexists; (split; [done|]); cbn [GameSession.history];
      rewrite ?length_writeThrough, ?length_app; cbn [length]; lia.
  - unfold SessionManager.addPlayerToSession. rewrite Hs. cbn [snd].
    rewrite lookup_insert_eq. by eexists.
Qed.

Lemma history_grows_by_reveal_only_witness :
  ∃ s',
    Server.applyEvent "r2" 9 "s1" (SyncEvent.VOTING_STARTED None) Sample.voted
      !! "s1" = Some s'
    ∧ length (GameSession.history s') = 0.
Proof.
  edestruct (history_grows_by_reveal_only "r2" 9 "s1"
               (SyncEvent.VOTING_STARTED None) Sample.bob Sample.voted)
    as [(s' & Hs' & Hlen) _].
  - vm_compute. reflexivity.
  - exists s'. split; [exact Hs'|]. rewrite Hlen. vm_compute. reflexivity.
Defined.

(* ================================================================== *)
(** * Properties of the Connection Registry *)
(* ================================================================== *)

Lemma getConnectionsBySession_elem (sessionId : string)
    (pm : PlayerManager.t) (player : ConnectedPlayer.t) :
  player ∈ PlayerManager.getConnectionsBySession sessionId pm
  ↔ ∃ c, PlayerManager.getConnection c pm = Some player
         ∧ ConnectedPlayer.sessionId player = sessionId.
Proof.
  unfold PlayerManager.getConnectionsBySession, PlayerManager.getConnection.
  rewrite list_elem_of_filter, list_elem_of_fmap. split.
  - intros [Hsid ([c p] & -> & Hin%elem_of_map_to_list)]. by exists c.
  - intros (c & Hc & Hsid). split; [done|]. exists (c, player).
    split; [done|]. by apply elem_of_map_to_list.
Qed.

(** X10. [getConnectionsBySession] lists the records of the connections
    registered for the session and nothing else, one list entry per
    registered connection id. *)
Theorem getConnectionsBySession_spec (sessionId : string)
    (pm : PlayerManager.t) :
  (∀ player,
     player ∈ PlayerManager.getConnectionsBySession sessionId pm
     ↔ ∃ c, PlayerManager.getConnection c pm = Some player
            ∧ ConnectedPlayer.sessionId player = sessionId)
  ∧ length (PlayerManager.getConnectionsBySession sessionId pm)
    = size (filter (λ e, ConnectedPlayer.sessionId e.2 = sessionId)
                   (PlayerManager.connections pm)).
Proof.
  split; [intros player; apply getConnectionsBySession_elem|].
  unfold PlayerManager.getConnectionsBySession.
  rewrite map_filter_alt, map_size_list_to_map.
  - generalize (map_to_list (PlayerManager.connections pm)). intros l.
    induction l as [|[c p] l IH]; [done|].
    rewrite fmap_cons, !filter_cons. cbn [snd].
    destruct (decide (ConnectedPlayer.sessionId p = sessionId));
      cbn [length]; by rewrite IH.
  - apply (sublist_NoDup _ ((map_to_list (PlayerManager.connections pm)).*1)).
    + apply NoDup_fst_map_to_list.
    + apply fmap_sublist, sublist_filter.
Qed.

(** X11. Registering a connection under an id that is not registered and
    unregistering it again is a round trip on the connections: in between
    the record is found by its id and listed under its session;
    [removeConnection] hands the record back and leaves the connections as
    they were before; a second [removeConnection] finds nothing and changes
    nothing. The secondary index loses the participant's key whether or
    not the key led to this connection. *)
Theorem addConnection_removeConnection (now : Z) (connectionId : string)
    (ws : WebSocket.t) (sessionId userId userName : string)
    (pm : PlayerManager.t) :
  PlayerManager.getConnection connectionId pm = None →
  let player := ConnectedPlayer.mk ws sessionId userId userName now in
  let pm1 :=
    PlayerManager.addConnection now connectionId ws sessionId userId userName
      pm in
  let pm2 := (PlayerManager.removeConnection connectionId pm1).2 in
  PlayerManager.getConnection connectionId pm1 = Some player
  ∧ player ∈ PlayerManager.getConnectionsBySession sessionId pm1
  ∧ (PlayerManager.removeConnection connectionId pm1).1 = Some player
  ∧ PlayerManager.connections pm2 = PlayerManager.connections pm
  ∧ PlayerManager.userToConnection pm2
    = delete (PlayerManager.userKey sessionId userId)
             (PlayerManager.userToConnection pm)
  ∧ PlayerManager.removeConnection connectionId pm2 = (None, pm2).
Proof.
  intros Hfresh player pm1 pm2. unfold PlayerManager.getConnection in *.
  assert (PlayerManager.connections pm1 !! connectionId = Some player)
    as Hget by apply lookup_insert_eq.
  assert (PlayerManager.removeConnection connectionId pm1
          = (Some player,
             PlayerManager.mk (PlayerManager.connections pm)
               (delete (PlayerManager.userKey sessionId userId)
                       (PlayerManager.userToConnection pm)))) as Hrm.
  { unfold PlayerManager.removeConnection. rewrite Hget. f_equal.
    subst pm1 player. cbn. f_equal.
    - rewrite delete_insert_eq. by apply delete_id.
    - by rewrite delete_insert_eq. }
  subst pm2. rewrite Hrm. cbn [fst snd PlayerManager.connections
    PlayerManager.userToConnection].
  split_and!; try done.
  - apply getConnectionsBySession_elem. by exists connectionId.
  - unfold PlayerManager.removeConnection.
    cbn [PlayerManager.connections]. by rewrite Hfresh.
Qed.

Lemma addConnection_removeConnection_witness :
  PlayerManager.connections
    (PlayerManager.removeConnection "c3"
       (PlayerManager.addConnection 20 "c3" 3 "s1" "carol" "Carol"
          (Server.playerManager Sample.server2))).2
  = PlayerManager.connections (Server.playerManager Sample.server2).
Proof.
  refine (proj1 (proj2 (proj2 (proj2
    (addConnection_removeConnection 20 "c3" 3 "s1" "carol" "Carol"
       (Server.playerManager Sample.server2) _))))).
  vm_compute. reflexivity.
Defined.

(** ** Sweeping stale connections *)

Lemma removeConnection_connections (c : string) (pm : PlayerManager.t) :
  PlayerManager.connections (PlayerManager.removeConnection c pm).2
  = delete c (PlayerManager.connections pm).
Proof.
  unfold PlayerManager.removeConnection.
  destruct (PlayerManager.connections pm !! c) eqn:Hc; [done|].
  cbn [snd]. by rewrite delete_id.
Qed.

Section sweep.
Context (now maxAge : Z).

Local Abbreviation staleP :=
  (λ e : string * ConnectedPlayer.t,
     PlayerManager.stale now maxAge e.2 = true).

Lemma staleStep_stale n pm rs (e : string * ConnectedPlayer.t) :
  staleP e →
  PlayerManager.staleStep now maxAge (n, pm, rs) e
  = (S n, (PlayerManager.removeConnection e.1 pm).2,
     if WebSocket.is_open (rs (ConnectedPlayer.ws e.2))
     then WebSocket.close (ConnectedPlayer.ws e.2) rs else rs).
Proof. intros He. unfold PlayerManager.staleStep. by rewrite He. Qed.

Lemma staleStep_fresh acc (e : string * ConnectedPlayer.t) :
  ¬ staleP e → PlayerManager.staleStep now maxAge acc e = acc.
Proof.
  intros He. unfold PlayerManager.staleStep. destruct acc as [[n pm] rs].
  destruct (PlayerManager.stale now maxAge e.2) eqn:Hstale; [|done].
  by destruct He.
Qed.

Lemma stale_foldl_count (l : list (string * ConnectedPlayer.t)) n pm rs :
  (foldl (PlayerManager.staleStep now maxAge) (n, pm, rs) l).1.1
  = n + length (filter staleP l).
Proof.
  revert n pm rs. induction l as [|e l IH]; intros n pm rs; cbn [foldl].
  - cbn. lia.
  - rewrite filter_cons. destruct (decide (staleP e)) as [He|He].
    + rewrite staleStep_stale by done. rewrite IH. cbn [length]. lia.
    + rewrite staleStep_fresh by done. apply IH.
Qed.

Lemma stale_foldl_lookup (l : list (string * ConnectedPlayer.t)) n pm rs k :
  PlayerManager.connections
    (foldl (PlayerManager.staleStep now maxAge) (n, pm, rs) l).1.2 !! k
  = if decide (Exists (λ e, e.1 = k ∧ staleP e) l) then None
    else PlayerManager.connections pm !! k.
Proof.
  revert n pm rs. induction l as [|e l IH]; intros n pm rs; cbn [foldl].
  - rewrite decide_False; [done|]. by intros ?%Exists_nil.
  - destruct (decide (staleP e)) as [He|He].
    + rewrite staleStep_stale by done. rewrite IH.
      rewrite removeConnection_connections.
      destruct (decide (e.1 = k)) as [Hk|Hk].
      * rewrite (decide_True (P := Exists _ (e :: l)))
          by (by apply Exists_cons_hd).
        case_decide; [done|]. rewrite Hk. apply lookup_delete_eq.
      * rewrite lookup_delete_ne by done.
        apply decide_ext. rewrite Exists_cons. tauto.
    + rewrite staleStep_fresh by done. rewrite IH.
      apply decide_ext. rewrite Exists_cons. tauto.
Qed.

Lemma stale_foldl_readyState (l : list (string * ConnectedPlayer.t))
    n pm rs w :
  (foldl (PlayerManager.staleStep now maxAge) (n, pm, rs) l).2 w
  = if decide (Exists (λ e, ConnectedPlayer.ws e.2 = w ∧ staleP e) l)
    then if WebSocket.is_open (rs w) then WebSocket.CLOSING else rs w
    else rs w.
Proof.
  revert n pm rs. induction l as [|e l IH]; intros n pm rs; cbn [foldl].
  - rewrite decide_False; [done|]. by intros ?%Exists_nil.
  - destruct (decide (staleP e)) as [He|He].
    + rewrite staleStep_stale by done. rewrite IH.
      destruct (decide (ConnectedPlayer.ws e.2 = w)) as [Hw|Hw].
      * rewrite (decide_True (P := Exists _ (e :: l)))
          by (by apply Exists_cons_hd).
        rewrite Hw.
        destruct (WebSocket.is_open (rs w)) eqn:Hopen.
        -- unfold WebSocket.close. rewrite !(decide_True (P := w = w)) by done.
           cbn [WebSocket.is_open]. by case_decide.
        -- rewrite Hopen. by case_decide.
      * assert ((if WebSocket.is_open (rs (ConnectedPlayer.ws e.2))
                 then WebSocket.close (ConnectedPlayer.ws e.2) rs else rs) w
                = rs w) as ->.
        { destruct (WebSocket.is_open _); [|done].
          unfold WebSocket.close. by rewrite decide_False by done. }
        apply decide_ext. rewrite Exists_cons. tauto.
    + rewrite staleStep_fresh by done. rewrite IH.
      apply decide_ext. rewrite Exists_cons. tauto.
Qed.

Lemma sweep_connections (pm : PlayerManager.t)
    (rs : WebSocket.t → WebSocket.state) :
  PlayerManager.connections
    (PlayerManager.cleanupStaleConnections now maxAge pm rs).1.2
  = filter (λ e, ¬ staleP e) (PlayerManager.connections pm).
Proof.
  apply map_eq. intros k. unfold PlayerManager.cleanupStaleConnections.
  rewrite stale_foldl_lookup, map_lookup_filter.
  destruct (PlayerManager.connections pm !! k) as [p|] eqn:Hk; simpl.
  - destruct (decide (staleP (k, p))) as [He|He].
    + rewrite decide_True, option_guard_False; [done|by intros []|].
      apply Exists_exists. exists (k, p). split; [|done].
      by apply elem_of_map_to_list.
    + rewrite decide_False, option_guard_True; [done..|].
      intros ([k' p'] & Hin%elem_of_map_to_list & Hk' & Hold)%Exists_exists.
      simpl in Hk'. subst k'. congruence.
  - by case_decide.
Qed.

(** X12. [cleanupStaleConnections] unregisters exactly the connections
    whose last heartbeat is more than [maxAge] before [now], leaves the
    records of the others as they were, and returns how many it removed.
    The socket of every removed connection is not OPEN afterwards: it is
    closed if it was open. No other socket changes its state. *)
Theorem cleanupStaleConnections_spec (pm : PlayerManager.t)
    (rs : WebSocket.t → WebSocket.state) :
  ∃ cleaned pm' rs',
    PlayerManager.cleanupStaleConnections now maxAge pm rs
      = (cleaned, pm', rs')
    ∧ (∀ c p, PlayerManager.getConnection c pm = Some p →
         (ConnectedPlayer.lastHeartbeat p < now - maxAge)%Z →
         PlayerManager.getConnection c pm' = None
         ∧ WebSocket.is_open (rs' (ConnectedPlayer.ws p)) = false)
    ∧ (∀ c p, PlayerManager.getConnection c pm = Some p →
         ¬ (ConnectedPlayer.lastHeartbeat p < now - maxAge)%Z →
         PlayerManager.getConnection c pm' = Some p)
    ∧ (∀ c, PlayerManager.getConnection c pm = None →
         PlayerManager.getConnection c pm' = None)
    ∧ size (PlayerManager.connections pm)
      = cleaned + size (PlayerManager.connections pm')
    ∧ (∀ w, rs' w = rs w ∨ (rs w = WebSocket.OPEN ∧ rs' w = WebSocket.CLOSING))
    ∧ (∀ w, (∀ c p, PlayerManager.getConnection c pm = Some p →
                    (ConnectedPlayer.lastHeartbeat p < now - maxAge)%Z →
                    ConnectedPlayer.ws p ≠ w) →
            rs' w = rs w).
Proof.
  assert (∀ p, PlayerManager.stale now maxAge p = true
               ↔ (ConnectedPlayer.lastHeartbeat p < now - maxAge)%Z)
    as Hstale.
  { intros p. unfold PlayerManager.stale. rewrite bool_decide_eq_true. lia. }
  unfold PlayerManager.getConnection.
  destruct (PlayerManager.cleanupStaleConnections now maxAge pm rs)
    as [[cleaned pm'] rs'] eqn:Hrun.
  unfold PlayerManager.cleanupStaleConnections in Hrun.
  pose proof (stale_foldl_count (map_to_list (PlayerManager.connections pm))
                0 pm rs) as Hcount.
  pose proof (sweep_connections pm rs) as Hmap.
  unfold PlayerManager.cleanupStaleConnections in Hmap.
  pose proof (stale_foldl_readyState
                (map_to_list (PlayerManager.connections pm)) 0 pm rs)
    as Hrs.
  rewrite Hrun in Hcount, Hmap, Hrs. cbn [fst snd] in Hcount, Hmap, Hrs.
  exists cleaned, pm', rs'. split; [done|]. split_and!.
  - intros c p Hc Hold%Hstale. split.
    + rewrite Hmap. apply map_lookup_filter_None. right.
      intros p' Hp'. simpl. intros Hn. apply Hn. congruence.
    + rewrite Hrs, decide_True.
      * by destruct (WebSocket.is_open (rs (ConnectedPlayer.ws p))) eqn:Ho.
      * apply Exists_exists. exists (c, p). split; [|done].
        by apply elem_of_map_to_list.
  - intros c p Hc Hyoung. rewrite Hmap. apply map_lookup_filter_Some.
    split; [done|]. simpl. by rewrite Hstale.
  - intros c Hc. rewrite Hmap. apply map_lookup_filter_None. by left.
  - rewrite Hmap, Hcount. cbn [plus].
    rewrite <- (map_size_list_to_map
                  (filter staleP (map_to_list (PlayerManager.connections pm)))).
    + rewrite <- map_filter_alt.
      rewrite <- map_size_disj_union by apply map_disjoint_filter_complement.
      by rewrite map_filter_union_complement.
    + apply (sublist_NoDup _
               ((map_to_list (PlayerManager.connections pm)).*1)).
      * apply NoDup_fst_map_to_list.
      * apply fmap_sublist, sublist_filter.
  - intros w. rewrite Hrs. case_decide; [|by left].
    destruct (rs w) eqn:Hw; cbn; auto.
  - intros w Hw. rewrite Hrs, decide_False; [done|].
    intros ([c p] & Hin%elem_of_map_to_list & Hws & Hold)%Exists_exists.
    simpl in *. by eapply (Hw c p), Hws; [|apply Hstale].
Qed.

End sweep.

Lemma sweep_keeps_fresh (now maxAge : Z) (c : string) (pm : PlayerManager.t)
    (rs : WebSocket.t → WebSocket.state) (p : ConnectedPlayer.t) :
  PlayerManager.getConnection c pm = Some p →
  (now - ConnectedPlayer.lastHeartbeat p ≤ maxAge)%Z →
  PlayerManager.getConnection c
    (PlayerManager.cleanupStaleConnections now maxAge pm rs).1.2 = Some p.
Proof.
  intros Hc Hfresh. unfold PlayerManager.getConnection.
  rewrite sweep_connections. apply map_lookup_filter_Some. split; [done|].
  cbn [snd]. unfold PlayerManager.stale. rewrite bool_decide_eq_true. lia.
Qed.

Lemma sweep_drops_stale (now maxAge : Z) (c : string) (pm : PlayerManager.t)
    (rs : WebSocket.t → WebSocket.state) (p : ConnectedPlayer.t) :
  PlayerManager.getConnection c pm = Some p →
  (now - ConnectedPlayer.lastHeartbeat p > maxAge)%Z →
  PlayerManager.getConnection c
    (PlayerManager.cleanupStaleConnections now maxAge pm rs).1.2 = None.
Proof.
  intros Hc Hstale. unfold PlayerManager.getConnection.
  rewrite sweep_connections. apply map_lookup_filter_None. right.
  intros p' Hp' Hn. apply Hn. cbn [snd]. unfold PlayerManager.stale.
  rewrite bool_decide_eq_true.
  unfold PlayerManager.getConnection in Hc. congruence.
Qed.

(** X13. A heartbeat keeps a connection registered. [updateHeartbeat] on a
    registered connection succeeds and touches no other connection, and a
    sweep at any time up to [maxAge] after the heartbeat finds the
    connection with its record unchanged but for the time of the
    heartbeat, however old its previous heartbeat was. *)
Theorem heartbeat_survives_sweep (t now maxAge : Z) (c : string)
    (pm : PlayerManager.t) (rs : WebSocket.t → WebSocket.state)
    (p : ConnectedPlayer.t) :
  PlayerManager.getConnection c pm = Some p →
  (now - t ≤ maxAge)%Z →
  let pm1 := (PlayerManager.updateHeartbeat t c pm).2 in
  (PlayerManager.updateHeartbeat t c pm).1 = true
  ∧ (∀ c', c' ≠ c →
       PlayerManager.getConnection c' pm1 = PlayerManager.getConnection c' pm)
  ∧ PlayerManager.getConnection c
      (PlayerManager.cleanupStaleConnections now maxAge pm1 rs).1.2
    = Some (ConnectedPlayer.mk (ConnectedPlayer.ws p)
              (ConnectedPlayer.sessionId p) (ConnectedPlayer.userId p)
              (ConnectedPlayer.userName p) t).
Proof.
  intros Hc Hfresh pm1. subst pm1.
  unfold PlayerManager.getConnection in Hc.
  unfold PlayerManager.updateHeartbeat. rewrite Hc. cbn [fst snd].
  split_and!; [done| |].
  - intros c' Hc'. unfold PlayerManager.getConnection.
    cbn [PlayerManager.connections]. by rewrite lookup_insert_ne.
  - apply sweep_keeps_fresh; [|done]. unfold PlayerManager.getConnection.
    cbn [PlayerManager.connections]. by rewrite lookup_insert_eq.
Qed.

Lemma heartbeat_survives_sweep_witness :
  PlayerManager.getConnection "c1"
    (PlayerManager.cleanupStaleConnections 50000 PlayerManager.defaultMaxAge
       (PlayerManager.updateHeartbeat 40000 "c1"
          (Server.playerManager Sample.server2)).2
       (λ _, WebSocket.OPEN)).1.2
  = Some (ConnectedPlayer.mk 1 "s1" "alice" "Alice" 40000).
Proof.
  refine (proj2 (proj2
    (heartbeat_survives_sweep 40000 50000 PlayerManager.defaultMaxAge "c1"
       (Server.playerManager Sample.server2) (λ _, WebSocket.OPEN)
       (ConnectedPlayer.mk 1 "s1" "alice" "Alice" 10) _ _))).
  - vm_compute. reflexivity.
  - vm_compute. discriminate.
Defined.

(** ** The timer *)

Lemma tick_fields (now : Z) (srv : Server.t) :
  Server.sessionManager (Server.tick now srv)
  = (SessionManager.cleanupInactiveSessions now SessionManager.defaultMaxAge
       (Server.sessionManager srv)).2
  ∧ Server.playerManager (Server.tick now srv)
    = (PlayerManager.cleanupStaleConnections now PlayerManager.defaultMaxAge
         (Server.playerManager srv) (Server.readyState srv)).1.2
  ∧ Server.readyState (Server.tick now srv)
    = (PlayerManager.cleanupStaleConnections now PlayerManager.defaultMaxAge
         (Server.playerManager srv) (Server.readyState srv)).2
  ∧ Server.sent (Server.tick now srv) = Server.sent srv.
Proof.
  unfold Server.tick.
  destruct (PlayerManager.cleanupStaleConnections _ _ _ _) as [[n pm] rs].
  by destruct (SessionManager.cleanupInactiveSessions _ _ _) as [m sm].
Qed.

Lemma tick_keeps_session (now : Z) (srv : Server.t) (sid : string)
    (s : GameSession.t) :
  SessionManager.getSession sid (Server.sessionManager srv) = Some s →
  (now - GameSession.lastActivity s ≤ SessionManager.defaultMaxAge)%Z →
  SessionManager.getSession sid (Server.sessionManager (Server.tick now srv))
  = Some s.
Proof.
  intros Hs Hyoung. destruct (tick_fields now srv) as (-> & _).
  rewrite cleanup_is_filter. unfold SessionManager.getSession.
  apply map_lookup_filter_Some. split; [done|]. cbn [snd]. lia.
Qed.

Lemma tick_drops_session (now : Z) (srv : Server.t) (sid : string)
    (s : GameSession.t) :
  SessionManager.getSession sid (Server.sessionManager srv) = Some s →
  (now - GameSession.lastActivity s > SessionManager.defaultMaxAge)%Z →
  SessionManager.getSession sid (Server.sessionManager (Server.tick now srv))
  = None.
Proof.
  intros Hs Hold. destruct (tick_fields now srv) as (-> & _).
  rewrite cleanup_is_filter. unfold SessionManager.getSession in *.
  apply map_lookup_filter_None. right. intros s' Hs' Hn. apply Hn.
  cbn [snd]. assert (s' = s) as -> by congruence. lia.
Qed.

Lemma disconnect_unregistered (notice : string → SyncEvent.t) (now : Z)
    (c : string) (srv : Server.t) :
  PlayerManager.getConnection c (Server.playerManager srv) = None →
  Server.disconnect notice now c srv = srv.
Proof.
  intros Hc. unfold Server.disconnect, PlayerManager.removeConnection.
  unfold PlayerManager.getConnection in Hc. by rewrite Hc.
Qed.

(** X14. The timer evicts a stale connection silently. When the sweep runs
    more than 30 seconds after the last heartbeat of a registered
    connection, the connection is unregistered and nothing is sent to
    anyone; the [close] or [leave] that follows for this connection finds
    no registration and does nothing at all. So the participant's session,
    unless it expired in the same sweep, is exactly as before: the roster
    record and the vote of the evicted participant stay, and no
    PLAYER_DISCONNECTED is broadcast. *)
Theorem tick_evicts_silently (now : Z) (c : string) (srv : Server.t)
    (p : ConnectedPlayer.t) :
  PlayerManager.getConnection c (Server.playerManager srv) = Some p →
  (now - ConnectedPlayer.lastHeartbeat p > PlayerManager.defaultMaxAge)%Z →
  let srv1 := Server.tick now srv in
  Server.sent srv1 = Server.sent srv
  ∧ PlayerManager.getConnection c (Server.playerManager srv1) = None
  ∧ (∀ now', Server.onClose now' c srv1 = srv1)
  ∧ (∀ now', Server.handleLeave now' c srv1 = srv1)
  ∧ (∀ s,
       SessionManager.getSession (ConnectedPlayer.sessionId p)
         (Server.sessionManager srv) = Some s →
       (now - GameSession.lastActivity s ≤ SessionManager.defaultMaxAge)%Z →
       SessionManager.getSession (ConnectedPlayer.sessionId p)
         (Server.sessionManager srv1) = Some s).
Proof.
  intros Hc Hstale srv1.
  assert (PlayerManager.getConnection c (Server.playerManager srv1) = None)
    as Hgone.
  { subst srv1. destruct (tick_fields now srv) as (_ & -> & _).
    by eapply sweep_drops_stale. }
  split_and!; [apply tick_fields|done| | |].
  - intros now'. by apply disconnect_unregistered.
  - intros now'. by apply disconnect_unregistered.
  - intros s Hs Hyoung. by apply tick_keeps_session.
Qed.

Lemma tick_evicts_silently_witness :
  let srv1 := Server.tick 40000 Sample.server2 in
  Server.sent srv1 = Server.sent Sample.server2
  ∧ PlayerManager.getConnection "c2" (Server.playerManager srv1) = None
  ∧ Server.onClose 40001 "c2" srv1 = srv1.
Proof.
  destruct (tick_evicts_silently 40000 "c2" Sample.server2
              (ConnectedPlayer.mk 2 "s1" "bob" "Bob" 11))
    as (H1 & H2 & H3 & _).
  - vm_compute. reflexivity.
  - vm_compute. reflexivity.
  - split; [exact H1|]. split; [exact H2|]. exact (H3 40001%Z).
Defined.

(** X15. Heartbeats do not keep a session alive. A heartbeat is always
    acknowledged to the sender and changes no session, so the session's
    last activity is not refreshed: a sweep more than 15 minutes after the
    last change to the session deletes it although a connection joined to
    it has sent a heartbeat within the last 30 seconds, and that connection
    stays registered for the session that no longer exists. *)
Theorem heartbeat_does_not_refresh_session (t now : Z) (c : string)
    (ws : WebSocket.t) (srv : Server.t) (p : ConnectedPlayer.t)
    (s : GameSession.t) :
  PlayerManager.getConnection c (Server.playerManager srv) = Some p →
  SessionManager.getSession (ConnectedPlayer.sessionId p)
    (Server.sessionManager srv) = Some s →
  (now - GameSession.lastActivity s > SessionManager.defaultMaxAge)%Z →
  (now - t ≤ PlayerManager.defaultMaxAge)%Z →
  let srv1 := Server.handleHeartbeat t c ws srv in
  let srv2 := Server.tick now srv1 in
  Server.sessionManager srv1 = Server.sessionManager srv
  ∧ Server.sent srv1
    = Server.sent srv
        ++ [(ws, ServerResponse.mk ServerResponse.heartbeat_ack None None None
                   t)]
  ∧ SessionManager.getSession (ConnectedPlayer.sessionId p)
      (Server.sessionManager srv2) = None
  ∧ PlayerManager.getConnection c (Server.playerManager srv2)
    = Some (ConnectedPlayer.mk (ConnectedPlayer.ws p)
              (ConnectedPlayer.sessionId p) (ConnectedPlayer.userId p)
              (ConnectedPlayer.userName p) t).
Proof.
  intros Hc Hs Hold Hfresh srv1 srv2. split_and!; [done|done| |].
  - apply (tick_drops_session now srv1 _ s); [exact Hs|done].
  - subst srv2. destruct (tick_fields now srv1) as (_ & -> & _).
    apply sweep_keeps_fresh; [|done]. subst srv1.
    unfold Server.handleHeartbeat, Server.send, PlayerManager.updateHeartbeat.
    cbn [Server.playerManager]. unfold PlayerManager.getConnection in *.
    rewrite Hc. cbn [snd PlayerManager.connections].
    by rewrite lookup_insert_eq.
Qed.

Lemma heartbeat_does_not_refresh_session_witness :
  let srv2 :=
    Server.tick 1000000 (Server.handleHeartbeat 990000 "c1" 1 Sample.server2) in
  SessionManager.getSession "s1" (Server.sessionManager srv2) = None
  ∧ PlayerManager.getConnection "c1" (Server.playerManager srv2)
    = Some (ConnectedPlayer.mk 1 "s1" "alice" "Alice" 990000).
Proof.
  destruct (heartbeat_does_not_refresh_session 990000 1000000 "c1" 1
              Sample.server2 (ConnectedPlayer.mk 1 "s1" "alice" "Alice" 10)
              (default (GameSession.mk "" "" "" "" [] None
                          (GameSettings.mk false false false false
                             GameSettings.everyone GameSettings.everyone)
                          [] 0 0 0)
                 (SessionManager.getSession "s1"
                    (Server.sessionManager Sample.server2))))
    as (_ & _ & H3 & H4).
  - vm_compute. reflexivity.
  - vm_compute. reflexivity.
  - vm_compute. reflexivity.
  - vm_compute. discriminate.
  - split; [exact H3|exact H4].
Defined.

(* ================================================================== *)
(** * Properties of the router *)
(* ================================================================== *)

(** ** Joining an existing session *)

Lemma broadcastToSession_sent (sessionId : string)
    (message : ServerResponse.t) (excludeConnectionId : option string)
    (srv : Server.t) :
  Server.broadcastToSession sessionId message excludeConnectionId srv
  = Server.mk (Server.sessionManager srv) (Server.playerManager srv)
      (Server.readyState srv)
      (Server.sent srv
         ++ ((λ player, (ConnectedPlayer.ws player, message)) <$>
             filter (λ player,
                       Server.excluded excludeConnectionId player
                         (Server.playerManager srv) = false
                       ∧ WebSocket.is_open
                           (Server.readyState srv (ConnectedPlayer.ws player))
                         = true)
                    (PlayerManager.getConnectionsBySession sessionId
                       (Server.playerManager srv)))).
Proof.
  unfold Server.broadcastToSession.
  generalize (PlayerManager.getConnectionsBySession sessionId
                (Server.playerManager srv)).
  intros l. destruct srv as [sm pm rs log].
  cbn [Server.sessionManager Server.playerManager Server.readyState
       Server.sent].
  revert log. induction l as [|player l IH]; intros log; cbn [foldl].
  - by rewrite app_nil_r.
  - assert (Server.broadcastStep message excludeConnectionId
              (Server.mk sm pm rs log) player
            = Server.mk sm pm rs
                (if Server.excluded excludeConnectionId player pm then log
                 else if WebSocket.is_open (rs (ConnectedPlayer.ws player))
                      then log ++ [(ConnectedPlayer.ws player, message)]
                      else log)) as ->.
    { unfold Server.broadcastStep, Server.send.
      cbn [Server.sessionManager Server.playerManager Server.readyState
           Server.sent].
      destruct (Server.excluded _ _ _); [done|].
      by destruct (WebSocket.is_open _). }
    rewrite IH, filter_cons.
    destruct (Server.excluded excludeConnectionId player pm) eqn:Hex.
    + rewrite decide_False; [done|]. by intros [? _].
    + destruct (WebSocket.is_open (rs (ConnectedPlayer.ws player))) eqn:Hopen.
      * rewrite decide_True by done. by rewrite fmap_cons, <- app_assoc.
      * rewrite decide_False; [done|]. by intros [_ ?].
Qed.

Lemma received_filter (Q : ConnectedPlayer.t → Prop)
    `{!∀ p, Decision (Q p)} (sessionId : string) (message : ServerResponse.t)
    (pm : PlayerManager.t) (c : string) (p : ConnectedPlayer.t) :
  (∀ c1 c2 p1 p2,
     PlayerManager.getConnection c1 pm = Some p1 →
     PlayerManager.getConnection c2 pm = Some p2 →
     ConnectedPlayer.ws p1 = ConnectedPlayer.ws p2 → c1 = c2) →
  PlayerManager.getConnection c pm = Some p →
  Server.received (ConnectedPlayer.ws p)
    ((λ player, (ConnectedPlayer.ws player, message)) <$>
     filter Q (PlayerManager.getConnectionsBySession sessionId pm))
  = if decide (Q p ∧ ConnectedPlayer.sessionId p = sessionId)
    then [message] else [].
Proof.
  intros Hinj Hp. rewrite received_fmap.
  unfold PlayerManager.getConnectionsBySession.
  rewrite !list_filter_filter.
  rewrite (list_filter_iff _
             (λ x, (Q x ∧ ConnectedPlayer.sessionId x = sessionId)
                   ∧ ConnectedPlayer.ws x = ConnectedPlayer.ws p))
    by (intros x; tauto).
  rewrite <- list_filter_filter.
  rewrite (filter_unique ConnectedPlayer.ws).
  - rewrite filter_cons, filter_nil. by case_decide.
  - by apply registry_sockets_NoDup.
  - apply (list_elem_of_fmap_2 snd _ (c, p)). by apply elem_of_map_to_list.
Qed.

Lemma addPlayerToSession_find (now : Z) (sid : string) (player : Player.t)
    (sessions : SessionManager.t) (s : GameSession.t) :
  sessions !! sid = Some s →
  ∃ s',
    SessionManager.addPlayerToSession now sid player sessions
      = (true, <[sid := s']> sessions)
    ∧ snd <$> list_find (λ p, Player.id p = Player.id player)
                (GameSession.players s')
      = Some (Player.with_isOnline true player)
    ∧ GameSession.currentVote s' = GameSession.currentVote s
    ∧ GameSession.history s' = GameSession.history s
    ∧ GameSession.lastActivity s' = now
    ∧ (∀ q, Player.id q ≠ Player.id player →
         q ∈ GameSession.players s' ↔ q ∈ GameSession.players s).
Proof.
  intros Hs. unfold SessionManager.addPlayerToSession. rewrite Hs.
  eexists. split; [reflexivity|].
  cbn [GameSession.players GameSession.currentVote GameSession.history
       GameSession.lastActivity].
  split_and!; try done.
  - destruct (list_find _ (GameSession.players s)) as [[i old]|] eqn:Hfind.
    + by erewrite list_find_insert_here.
    + by erewrite list_find_snoc_here.
  - intros q Hq.
    destruct (list_find _ (GameSession.players s)) as [[i old]|] eqn:Hfind.
    + apply list_find_Some in Hfind as (Hi & Hold & _). split.
      * intros [->|(j & Hj & Hin)]%elem_of_list_insert_inv; [done|].
        by eapply list_elem_of_lookup_2.
      * intros (j & Hj)%list_elem_of_lookup. apply list_elem_of_lookup.
        exists j. rewrite list_lookup_insert_ne; [done|].
        intros <-. congruence.
    + rewrite elem_of_app, list_elem_of_singleton. split; [|by left].
      by intros [?| ->].
Qed.

(** X16. A join that names an existing session. The connection is
    registered for the session; the participant is put on the roster with
    [isOnline] set, named by the user name of the join, with no vote and no
    voted mark, even on a re-join in the middle of a round, whose votes and
    history stay as they are. The joining socket is sent the [joined]
    snapshot of the session taken after the roster change, which is the
    first thing sent, and it is sent nothing else: the PLAYER_JOINED notice
    that follows goes once to every other open connection of the session
    and carries the participant's new roster record. Sockets are assumed
    distinct per connection and the connection id non-empty. *)
Theorem handleJoin_success (now : Z) (connectionId : string)
    (ws : WebSocket.t) (message : WebSocketMessage.t) (srv : Server.t)
    (sessionId userId userName : string) (s : GameSession.t) :
  WebSocketMessage.sessionId message = Some sessionId →
  WebSocketMessage.userId message = Some userId →
  WebSocketMessage.userName message = Some userName →
  sessionId ≠ "" → userId ≠ "" → userName ≠ "" → connectionId ≠ "" →
  SessionManager.getSession sessionId (Server.sessionManager srv) = Some s →
  let pm1 :=
    PlayerManager.addConnection now connectionId ws sessionId userId userName
      (Server.playerManager srv) in
  (∀ c1 c2 p1 p2,
     PlayerManager.getConnection c1 pm1 = Some p1 →
     PlayerManager.getConnection c2 pm1 = Some p2 →
     ConnectedPlayer.ws p1 = ConnectedPlayer.ws p2 → c1 = c2) →
  let srv' := Server.handleJoin now connectionId ws message srv in
  let player := Player.mk userId userName None None None (Some true) in
  let notice :=
    Server.syncEvent now (SyncEvent.PLAYER_JOINED (Some player)) in
  ∃ s' new,
    Server.sessionManager srv'
    = (SessionManager.addPlayerToSession now sessionId player
         (Server.sessionManager srv)).2
    ∧ SessionManager.getSession sessionId (Server.sessionManager srv')
      = Some s'
    ∧ player ∈ GameSession.players s'
    ∧ (∀ q, Player.id q ≠ userId →
         q ∈ GameSession.players s' ↔ q ∈ GameSession.players s)
    ∧ GameSession.currentVote s' = GameSession.currentVote s
    ∧ GameSession.history s' = GameSession.history s
    ∧ Server.playerManager srv' = pm1
    ∧ Server.sent srv'
      = Server.sent srv
          ++ (ws, ServerResponse.mk ServerResponse.joined None None (Some s')
                    now) :: new
    ∧ Server.received ws new = []
    ∧ (∀ c p,
         c ≠ connectionId →
         PlayerManager.getConnection c (Server.playerManager srv) = Some p →
         Server.received (ConnectedPlayer.ws p) new
         = if decide (ConnectedPlayer.sessionId p = sessionId)
           then if WebSocket.is_open
                     (Server.readyState srv (ConnectedPlayer.ws p))
                then [notice] else []
           else []).
Proof.
  intros Hsid Huid Hname Hsid' Huid' Hname' Hc Hs pm1 Hinj srv' player notice.
  subst srv'. unfold Server.handleJoin. rewrite Hsid, Huid, Hname.
  assert (∀ x, x ≠ "" → Js.truthy_str (Some x) = true) as Htruthy.
  { intros x Hx. unfold Js.truthy_str. by destruct x. }
  rewrite !Htruthy by done. cbn [negb orb Server.sessionManager].
  rewrite Hs. unfold SessionManager.getSession in Hs.
  destruct (addPlayerToSession_find now sessionId player _ _ Hs)
    as (s' & Hadd & Hfind & Hround & Hhist & _ & Hothers).
  fold player. rewrite Hadd.
  cbn [Server.sessionManager Server.playerManager Server.readyState
       Server.sent].
  unfold SessionManager.getSession. rewrite lookup_insert_eq.
  cbn [mbind option_bind]. change (Player.id player) with userId in Hfind.
  change (Player.with_isOnline true player) with player in Hfind.
  rewrite Hfind.
  fold pm1 notice. rewrite broadcastToSession_sent.
  cbn [Server.sessionManager Server.playerManager Server.readyState
       Server.sent Server.send snd].
  assert (PlayerManager.getConnection connectionId pm1
          = Some (ConnectedPlayer.mk ws sessionId userId userName now))
    as Hjoiner by apply lookup_insert_eq.
  assert (∀ p, Server.excluded (Some connectionId) p pm1
               = bool_decide (ConnectedPlayer.ws p = ws)) as Hex.
  { intros p. unfold Server.excluded. rewrite Htruthy by done.
    cbn [mbind option_bind andb]. by rewrite Hjoiner. }
  eexists s', _. split_and!.
  - done.
  - apply lookup_insert_eq.
  - destruct (list_find _ (GameSession.players s')) as [[i q]|] eqn:Hq;
      [|done].
    apply list_find_Some in Hq as (Hi & _). cbn in Hfind.
    assert (q = player) as -> by congruence.
    by eapply list_elem_of_lookup_2.
  - exact Hothers.
  - done.
  - done.
  - done.
  - rewrite <- app_assoc. reflexivity.
  - erewrite (received_filter _ _ _ pm1 connectionId
                (ConnectedPlayer.mk ws sessionId userId userName now));
      [|done..].
    rewrite decide_False; [done|]. intros [[Hn _] _].
    rewrite Hex in Hn. cbn [ConnectedPlayer.ws] in Hn.
    by rewrite bool_decide_true in Hn.
  - intros c p Hne Hp.
    assert (PlayerManager.getConnection c pm1 = Some p) as Hp1.
    { unfold PlayerManager.getConnection, pm1, PlayerManager.addConnection.
      cbn [PlayerManager.connections]. by rewrite lookup_insert_ne. }
    erewrite (received_filter _ _ _ pm1 c p); [|done..].
    assert (ConnectedPlayer.ws p ≠ ws) as Hws.
    { intros Heq. apply Hne. eapply Hinj; [exact Hp1|exact Hjoiner|done]. }
    destruct (decide (ConnectedPlayer.sessionId p = sessionId)) as [Hsame|Hd];
      [|rewrite decide_False; [done|]; by intros [_ ?]].
    destruct (WebSocket.is_open _) eqn:Hopen.
    + rewrite decide_True; [done|]. split_and!; [|done..].
      rewrite Hex. by apply bool_decide_eq_false.
    + rewrite decide_False; [done|]. by intros [[_ ?] _].
Qed.

Lemma handleJoin_success_witness :
  ∃ s' new,
    Server.sent
      (Server.handleJoin 20 "c3" 3 (Sample.joinMessage "s1" "carol" "Carol")
         Sample.server2)
    = Server.sent Sample.server2
        ++ (3, ServerResponse.mk ServerResponse.joined None None (Some s') 20)
           :: new
    ∧ Server.received 3 new = []
    ∧ Server.received 1 new
      = [Server.syncEvent 20
           (SyncEvent.PLAYER_JOINED
              (Some (Player.mk "carol" "Carol" None None None (Some true))))].
Proof.
  edestruct (handleJoin_success 20 "c3" 3
               (Sample.joinMessage "s1" "carol" "Carol") Sample.server2
               "s1" "carol" "Carol")
    as (s' & new & _ & _ & _ & _ & _ & _ & _ & Hsent & Hself & Hothers).
  - reflexivity.
  - reflexivity.
  - reflexivity.
  - discriminate.
  - discriminate.
  - discriminate.
  - discriminate.
  - vm_compute. reflexivity.
  - apply registry_sockets_distinct. vm_compute. reflexivity.
  - exists s', new. split; [exact Hsent|]. split; [exact Hself|].
    etransitivity;
      [apply (Hothers "c1" (ConnectedPlayer.mk 1 "s1" "alice" "Alice" 10))|].
    + discriminate.
    + vm_compute. reflexivity.
    + vm_compute. reflexivity.
Defined.

(** ** Frames that change nothing *)

(** X17. Before it has joined, a connection can change nothing but by a
    join. A [sync_event] or a [leave] from a connection that is not
    registered is dropped without any answer; a [heartbeat] is acknowledged
    and a frame of unknown type is answered with an error, to the sending
    socket only. In all four cases the sessions, the registry and the
    sockets are as before. *)
Theorem handleMessage_before_join (uuid : string) (now : Z)
    (connectionId : string) (ws : WebSocket.t) (message : WebSocketMessage.t)
    (srv : Server.t) :
  PlayerManager.getConnection connectionId (Server.playerManager srv) = None →
  WebSocketMessage.kind message ≠ WebSocketMessage.join →
  let srv' := Server.handleMessage uuid now connectionId ws message srv in
  Server.sessionManager srv' = Server.sessionManager srv
  ∧ Server.playerManager srv' = Server.playerManager srv
  ∧ Server.readyState srv' = Server.readyState srv
  ∧ Server.sent srv'
    = Server.sent srv
        ++ match WebSocketMessage.kind message with
           | WebSocketMessage.heartbeat =>
               [(ws, ServerResponse.mk ServerResponse.heartbeat_ack None None
                       None now)]
           | WebSocketMessage.unknown =>
               [(ws, ServerResponse.mk ServerResponse.error
                       (Some "Unknown message type") None None now)]
           | _ => []
           end.
Proof.
  intros Hc Hkind srv'. subst srv'. unfold Server.handleMessage.
  destruct (WebSocketMessage.kind message); [done|..].
  - unfold Server.handleLeave. rewrite disconnect_unregistered by done.
    by rewrite app_nil_r.
  - unfold Server.handleSyncEvent. rewrite Hc. by rewrite app_nil_r.
  - unfold Server.handleHeartbeat, PlayerManager.updateHeartbeat, Server.send.
    unfold PlayerManager.getConnection in Hc. by rewrite Hc.
  - done.
Qed.

Lemma handleMessage_before_join_witness :
  Server.handleMessage "u" 20 "c9" 9
    (Sample.eventMessage (SyncEvent.VOTE_SUBMITTED "alice" (Js.VNum 1)))
    Sample.server2
  = Sample.server2.
Proof.
  destruct (handleMessage_before_join "u" 20 "c9" 9
              (Sample.eventMessage (SyncEvent.VOTE_SUBMITTED "alice" (Js.VNum 1)))
              Sample.server2) as (H1 & H2 & H3 & H4).
  - vm_compute. reflexivity.
  - discriminate.
  - cbn [WebSocketMessage.kind Sample.eventMessage] in H4.
    rewrite app_nil_r in H4.
    destruct (Server.handleMessage _ _ _ _ _ _) as [sm pm rs log].
    cbn [Server.sessionManager Server.playerManager Server.readyState
         Server.sent] in H1, H2, H3, H4.
    rewrite H1, H2, H3, H4. reflexivity.
Defined.

(** X18. A frame the router rejects is answered with one error, sent to
    the socket it came on, and has no other effect, whether or not the
    connection has joined: a frame that cannot be parsed, a frame of
    unknown type, and a join in which the session id, the user id or the
    user name is missing or empty. In particular such a join does not
    register the connection. *)
Theorem rejected_frames (now : Z) (ws : WebSocket.t) (srv : Server.t)
    (i : Server.input) :
  i = Server.Malformed now ws
  ∨ (∃ uuid connectionId message,
       i = Server.Message uuid now connectionId ws message
       ∧ (WebSocketMessage.kind message = WebSocketMessage.unknown
          ∨ WebSocketMessage.kind message = WebSocketMessage.join
            ∧ (Js.truthy_str (WebSocketMessage.sessionId message) = false
               ∨ Js.truthy_str (WebSocketMessage.userId message) = false
               ∨ Js.truthy_str (WebSocketMessage.userName message) = false)))
  →
  ∃ text,
    Server.react srv i
    = Server.mk (Server.sessionManager srv) (Server.playerManager srv)
        (Server.readyState srv)
        (Server.sent srv
           ++ [(ws, ServerResponse.mk ServerResponse.error (Some text) None
                      None now)]).
Proof.
  intros [->|(uuid & c & message & -> & [Hkind|[Hkind Hmissing]])];
    cbn [Server.react]; [by eexists|..];
    unfold Server.handleMessage; rewrite Hkind; [by eexists|].
  unfold Server.handleJoin.
  destruct (WebSocketMessage.sessionId message) as [sessionId|];
    [|by eexists].
  destruct (WebSocketMessage.userId message) as [userId|]; [|by eexists].
  destruct (WebSocketMessage.userName message) as [userName|]; [|by eexists].
  destruct Hmissing as [-> |[-> | ->]]; cbn [negb orb];
    rewrite ?orb_true_r; by eexists.
Qed.

Lemma rejected_frames_witness :
  ∃ text,
    Server.react Sample.server0
      (Server.Message "u" 20 "c9" 9 (Sample.joinMessage "s1" "" "Zoe"))
    = Server.mk Sample.joined PlayerManager.empty (λ _, WebSocket.OPEN)
        [(9, ServerResponse.mk ServerResponse.error (Some text) None None 20)].
Proof.
  apply (rejected_frames 20 9 Sample.server0). right.
  exists "u", "c9", (Sample.joinMessage "s1" "" "Zoe").
  split; [reflexivity|]. right. split; [reflexivity|].
  right. left. reflexivity.
Defined.

(** ** The session a domain event acts on *)

Lemma applyEvent_frame (uuid : string) (now : Z) (sid : string)
    (event : SyncEvent.t) (sessions : SessionManager.t) :
  dom (Server.applyEvent uuid now sid event sessions) = dom sessions
  ∧ ∀ k, k ≠ sid →
      Server.applyEvent uuid now sid event sessions !! k = sessions !! k.
Proof.
  destruct event; cbn [Server.applyEvent]; try done;
    unfold SessionManager.removePlayerFromSession,
      SessionManager.updatePlayerVote, SessionManager.startVoting,
      SessionManager.revealVotes, SessionManager.updateSessionSettings;
    (destruct (sessions !! sid) as [s|] eqn:Hs; [|done]);
    try (destruct (GameSession.currentVote s) as [r|]; [|done]);
    cbn [snd]; by eapply insert_frame.
Qed.

(** X19. A domain event acts on the session its connection joined and on
    no other: the session is the one the registry holds for the sending
    connection, whatever session id the frame carries; every other session
    is left as it was, and no event creates or deletes a session. The
    identity of the sender is not consulted beyond that: a vote is
    recorded in the round under the participant id of the event's payload,
    so any joined connection casts or overwrites the vote of any
    participant id in its session. The one id under which a round records
    nothing is ["__proto__"]. *)
Theorem handleSyncEvent_scope (uuid : string) (now : Z)
    (connectionId : string) (message : WebSocketMessage.t) (srv : Server.t)
    (sender : ConnectedPlayer.t) (event : SyncEvent.t) :
  PlayerManager.getConnection connectionId (Server.playerManager srv)
    = Some sender →
  WebSocketMessage.event message = Some event →
  let sid := ConnectedPlayer.sessionId sender in
  let srv' := Server.handleSyncEvent uuid now connectionId message srv in
  Server.sessionManager srv'
  = Server.applyEvent uuid now sid event (Server.sessionManager srv)
  ∧ Server.playerManager srv' = Server.playerManager srv
  ∧ dom (Server.sessionManager srv') = dom (Server.sessionManager srv)
  ∧ (∀ k, k ≠ sid →
       SessionManager.getSession k (Server.sessionManager srv')
       = SessionManager.getSession k (Server.sessionManager srv))
  ∧ (∀ pid vote s r,
       event = SyncEvent.VOTE_SUBMITTED pid vote →
       SessionManager.getSession sid (Server.sessionManager srv) = Some s →
       GameSession.currentVote s = Some r →
       ∃ s' r',
         SessionManager.getSession sid (Server.sessionManager srv') = Some s'
         ∧ GameSession.currentVote s' = Some r'
         ∧ (pid ≠ "__proto__" →
              Js.prop_get pid (VotingRound.votes r') = Some vote)
         ∧ (pid = "__proto__" →
              Js.prop_get pid (VotingRound.votes r) = None →
              VotingRound.votes r' = VotingRound.votes r)
         ∧ ∀ k, k ≠ pid →
             Js.prop_get k (VotingRound.votes r')
             = Js.prop_get k (VotingRound.votes r)).
Proof.
  intros Hsender Hevent sid srv'.
  assert (Server.sessionManager srv'
          = Server.applyEvent uuid now sid event (Server.sessionManager srv))
    as Hsm.
  { subst srv'. unfold Server.handleSyncEvent. rewrite Hsender, Hevent.
    by rewrite broadcastToSession_sessionManager. }
  rewrite Hsm. unfold SessionManager.getSession.
  split_and!; [done| |apply applyEvent_frame|apply applyEvent_frame|].
  - subst srv'. unfold Server.handleSyncEvent. rewrite Hsender, Hevent.
    by rewrite broadcastToSession_playerManager.
  - intros pid vote s r -> Hs Hr. cbn [Server.applyEvent].
    unfold SessionManager.updatePlayerVote. rewrite Hs, Hr. cbn [snd].
    rewrite lookup_insert_eq. eexists _, _. split; [reflexivity|].
    cbn [GameSession.currentVote]. split; [reflexivity|].
    cbn [VotingRound.votes]. split_and!.
    + intros Hpid. apply prop_get_set_eq. by left.
    + intros -> Hnone. by apply prop_set_proto.
    + intros k Hk. by apply prop_get_set_ne.
Qed.

Lemma handleSyncEvent_scope_witness :
  ∃ s' r',
    SessionManager.getSession "s1"
      (Server.sessionManager
         (Server.handleSyncEvent "u" 13 "c1"
            (Sample.eventMessage (SyncEvent.VOTE_SUBMITTED "bob" (Js.VNum 8)))
            Sample.server2)) = Some s'
    ∧ GameSession.currentVote s' = Some r'
    ∧ Js.prop_get "bob" (VotingRound.votes r') = Some (Js.VNum 8).
Proof.
  destruct (handleSyncEvent_scope "u" 13 "c1"
              (Sample.eventMessage
                 (SyncEvent.VOTE_SUBMITTED "bob" (Js.VNum 8)))
              Sample.server2 (ConnectedPlayer.mk 1 "s1" "alice" "Alice" 10)
              (SyncEvent.VOTE_SUBMITTED "bob" (Js.VNum 8)))
    as (_ & _ & _ & _ & Hvote).
  - vm_compute. reflexivity.
  - reflexivity.
  - edestruct (Hvote "bob" (Js.VNum 8)) as (s' & r' & H1 & H2 & H3 & _).
    + reflexivity.
    + vm_compute. reflexivity.
    + vm_compute. reflexivity.
    + exists s', r'. split; [exact H1|]. split; [exact H2|].
      apply H3. discriminate.
Defined.

(** ** Leaving and closing *)

Lemma received_unregistered (Q : ConnectedPlayer.t → Prop)
    `{!∀ p, Decision (Q p)} (sessionId : string) (message : ServerResponse.t)
    (pm : PlayerManager.t) (w : WebSocket.t) :
  (∀ c p, PlayerManager.getConnection c pm = Some p →
          ConnectedPlayer.ws p ≠ w) →
  Server.received w
    ((λ player, (ConnectedPlayer.ws player, message)) <$>
     filter Q (PlayerManager.getConnectionsBySession sessionId pm))
  = [].
Proof.
  intros Hw. rewrite received_fmap, filter_none; [done|].
  intros p [_ Hp]%list_elem_of_filter.
  apply getConnectionsBySession_elem in Hp as (c & Hc & _). by eapply Hw.
Qed.

(** X20. A leave, and the close of a socket, of a registered connection.
    The connection is unregistered and the other connections stay. Every
    roster record with the participant id of the connection is removed
    from its session, whatever other connections are registered for that
    participant. The notice (PLAYER_LEFT for a leave, PLAYER_DISCONNECTED
    for a close) goes once to every remaining open connection of the
    session and to no one else; the socket that left gets nothing. A leave
    or close that follows for the same connection does nothing, so a leave
    followed by the close of its socket is announced once. Sockets are
    assumed distinct per connection. *)
Theorem disconnect_spec (notice : string → SyncEvent.t) (now : Z)
    (connectionId : string) (srv : Server.t) (p : ConnectedPlayer.t) :
  PlayerManager.getConnection connectionId (Server.playerManager srv)
    = Some p →
  (∀ c1 c2 p1 p2,
     PlayerManager.getConnection c1 (Server.playerManager srv) = Some p1 →
     PlayerManager.getConnection c2 (Server.playerManager srv) = Some p2 →
     ConnectedPlayer.ws p1 = ConnectedPlayer.ws p2 → c1 = c2) →
  let srv' := Server.disconnect notice now connectionId srv in
  let message :=
    Server.syncEvent now (notice (ConnectedPlayer.userId p)) in
  PlayerManager.getConnection connectionId (Server.playerManager srv') = None
  ∧ (∀ c, c ≠ connectionId →
       PlayerManager.getConnection c (Server.playerManager srv')
       = PlayerManager.getConnection c (Server.playerManager srv))
  ∧ Server.sessionManager srv'
    = (SessionManager.removePlayerFromSession now
         (ConnectedPlayer.sessionId p) (ConnectedPlayer.userId p)
         (Server.sessionManager srv)).2
  ∧ (∀ s' q,
       SessionManager.getSession (ConnectedPlayer.sessionId p)
         (Server.sessionManager srv') = Some s' →
       q ∈ GameSession.players s' → Player.id q ≠ ConnectedPlayer.userId p)
  ∧ (∃ new,
       Server.sent srv' = Server.sent srv ++ new
       ∧ Server.received (ConnectedPlayer.ws p) new = []
       ∧ ∀ c p',
           c ≠ connectionId →
           PlayerManager.getConnection c (Server.playerManager srv)
             = Some p' →
           Server.received (ConnectedPlayer.ws p') new
           = if decide (ConnectedPlayer.sessionId p'
                          = ConnectedPlayer.sessionId p)
             then if WebSocket.is_open
                       (Server.readyState srv (ConnectedPlayer.ws p'))
                  then [message] else []
             else [])
  ∧ (∀ notice' now',
       Server.disconnect notice' now' connectionId srv' = srv').
Proof.
  intros Hp Hinj srv' message.
  pose proof Hp as Hp0. unfold PlayerManager.getConnection in Hp0.
  assert (srv'
          = Server.broadcastToSession (ConnectedPlayer.sessionId p) message
              None
              (Server.mk
                 (SessionManager.removePlayerFromSession now
                    (ConnectedPlayer.sessionId p) (ConnectedPlayer.userId p)
                    (Server.sessionManager srv)).2
                 (PlayerManager.mk
                    (delete connectionId
                       (PlayerManager.connections (Server.playerManager srv)))
                    (delete (PlayerManager.userKey
                               (ConnectedPlayer.sessionId p)
                               (ConnectedPlayer.userId p))
                       (PlayerManager.userToConnection
                          (Server.playerManager srv))))
                 (Server.readyState srv) (Server.sent srv))) as Hsrv'.
  { subst srv'. unfold Server.disconnect, PlayerManager.removeConnection.
    by rewrite Hp0. }
  clearbody srv'. subst srv'.
  set (pm' := PlayerManager.mk _ _).
  assert (∀ c, PlayerManager.getConnection c pm'
               = if decide (c = connectionId) then None
                 else PlayerManager.getConnection c (Server.playerManager srv))
    as Hpm'.
  { intros c. unfold PlayerManager.getConnection, pm'.
    cbn [PlayerManager.connections]. case_decide as Hc.
    - rewrite Hc. apply lookup_delete_eq.
    - by apply lookup_delete_ne. }
  assert (PlayerManager.getConnection connectionId pm' = None) as Hgone.
  { rewrite Hpm'. by rewrite decide_True. }
  rewrite broadcastToSession_sent.
  cbn [Server.sessionManager Server.playerManager Server.readyState
       Server.sent].
  split_and!.
  - done.
  - intros c Hc. rewrite Hpm'. by rewrite decide_False.
  - done.
  - intros s' q. unfold SessionManager.removePlayerFromSession,
      SessionManager.getSession.
    destruct (Server.sessionManager srv !! ConnectedPlayer.sessionId p)
      as [s|] eqn:Hs; cbn [snd]; [|by rewrite Hs].
    rewrite lookup_insert_eq. intros [= <-]. cbn [GameSession.players].
    by intros [? _]%list_elem_of_filter.
  - eexists. split; [reflexivity|].
    assert (∀ c1 c2 p1 p2,
              PlayerManager.getConnection c1 pm' = Some p1 →
              PlayerManager.getConnection c2 pm' = Some p2 →
              ConnectedPlayer.ws p1 = ConnectedPlayer.ws p2 → c1 = c2)
      as Hinj'.
    { intros c1 c2 p1 p2. rewrite !Hpm'. do 2 case_decide; try done.
      apply Hinj. }
    split.
    + apply received_unregistered. intros c p'. rewrite Hpm'.
      case_decide as Hc; [done|]. intros Hp' Hws. apply Hc.
      by eapply Hinj.
    + intros c p' Hc Hp'.
      erewrite (received_filter _ _ _ pm' c p'); [|done|].
      * destruct (decide (ConnectedPlayer.sessionId p'
                            = ConnectedPlayer.sessionId p)) as [Hs|Hs];
          [|rewrite decide_False; [done|]; by intros [_ ?]].
        destruct (WebSocket.is_open _) eqn:Hopen.
        -- by rewrite decide_True.
        -- rewrite decide_False; [done|]. by intros [[_ ?] _].
      * rewrite Hpm'. by rewrite decide_False.
  - intros notice' now'. by apply disconnect_unregistered.
Qed.

Lemma disconnect_spec_witness :
  let srv' := Server.handleLeave 20 "c2" Sample.server2 in
  PlayerManager.getConnection "c2" (Server.playerManager srv') = None
  ∧ Server.onClose 21 "c2" srv' = srv'.
Proof.
  destruct (disconnect_spec SyncEvent.PLAYER_LEFT 20 "c2" Sample.server2
              (ConnectedPlayer.mk 2 "s1" "bob" "Bob" 11))
    as (H1 & _ & _ & _ & _ & H6).
  - vm_compute. reflexivity.
  - apply registry_sockets_distinct. vm_compute. reflexivity.
  - split; [exact H1|]. exact (H6 SyncEvent.PLAYER_DISCONNECTED 21%Z).
Defined.

(** ** The online flag *)

Section online.

Local Abbreviation online :=
  (λ sessions : SessionManager.t,
     ∀ k s, sessions !! k = Some s →
       Forall (λ p, Player.isOnline p = Some true) (GameSession.players s)).

Lemma online_insert (sid : string) (s' : GameSession.t)
    (sessions : SessionManager.t) :
  online sessions →
  Forall (λ p, Player.isOnline p = Some true) (GameSession.players s') →
  online (<[sid := s']> sessions).
Proof.
  intros Hon Hs' k s [[<- <-]|[Hk Hs]]%lookup_insert_Some; [done|].
  by eapply Hon.
Qed.

Lemma online_applyEvent (uuid : string) (now : Z) (sid : string)
    (event : SyncEvent.t) (sessions : SessionManager.t) :
  online sessions → online (Server.applyEvent uuid now sid event sessions).
Proof.
  intros Hon.
  destruct event; cbn [Server.applyEvent]; try done;
    unfold SessionManager.removePlayerFromSession,
      SessionManager.updatePlayerVote, SessionManager.startVoting,
      SessionManager.revealVotes, SessionManager.updateSessionSettings;
    (destruct (sessions !! sid) as [s|] eqn:Hs; [|done]);
    try (destruct (GameSession.currentVote s) as [r|]; [|done]);
    cbn [snd]; apply online_insert; try done;
    cbn [GameSession.players]; specialize (Hon sid s Hs).
  - apply Forall_forall. intros q [_ Hq]%list_elem_of_filter.
    by eapply Forall_forall in Hon.
  - destruct (list_find _ (GameSession.players s)) as [[i q]|] eqn:Hfind;
      [|done].
    apply list_find_Some in Hfind as (Hi & _).
    apply Forall_insert; [done|]. cbn [SessionManager.castVote Player.isOnline].
    eapply Forall_forall in Hon; [exact Hon|].
    by eapply list_elem_of_lookup_2.
  - change (map SessionManager.clearVote (GameSession.players s))
      with (SessionManager.clearVote <$> GameSession.players s).
    apply Forall_fmap. eapply Forall_impl; [exact Hon|]. by intros q.
  - done.
  - done.
Qed.

Lemma online_react (srv : Server.t) (i : Server.input) :
  online (Server.sessionManager srv) →
  online (Server.sessionManager (Server.react srv i)).
Proof.
  intros Hon.
  assert (∀ notice now c,
            online (Server.sessionManager
                      (Server.disconnect notice now c srv))) as Hdis.
  { intros notice now c. unfold Server.disconnect.
    destruct (PlayerManager.removeConnection _ _) as [[player|] pm]; [|done].
    rewrite broadcastToSession_sessionManager. cbn [Server.sessionManager].
    apply (online_applyEvent "" now (ConnectedPlayer.sessionId player)
             (SyncEvent.PLAYER_LEFT (ConnectedPlayer.userId player)) _ Hon). }
  destruct i as [uuid now c ws message|now ws|now c|now
                |uuid now name fid fname|ws st];
    cbn [Server.react]; try done.
  - unfold Server.handleMessage.
    destruct (WebSocketMessage.kind message); try done.
    + unfold Server.handleJoin.
      destruct (WebSocketMessage.sessionId message) as [sessionId|]; [|done].
      destruct (WebSocketMessage.userId message) as [userId|]; [|done].
      destruct (WebSocketMessage.userName message) as [userName|]; [|done].
      destruct (_ || _); [done|]. cbn [Server.sessionManager].
      unfold SessionManager.getSession, SessionManager.addPlayerToSession.
      destruct (Server.sessionManager srv !! sessionId) as [s|] eqn:Hs;
        [|done].
      rewrite broadcastToSession_sessionManager.
      cbn [Server.sessionManager Server.send]. apply online_insert; [done|].
      cbn [GameSession.players Player.id]. specialize (Hon sessionId s Hs).
      destruct (list_find _ (GameSession.players s)) as [[i q]|].
      * by apply Forall_insert.
      * apply Forall_app. split; [done|]. by apply Forall_singleton.
    + apply Hdis.
    + unfold Server.handleSyncEvent.
      destruct (PlayerManager.getConnection _ _) as [player|]; [|done].
      destruct (WebSocketMessage.event message) as [event|]; [|done].
      rewrite broadcastToSession_sessionManager. cbn [Server.sessionManager].
      by apply online_applyEvent.
  - apply Hdis.
  - destruct (tick_fields now srv) as (-> & _). rewrite cleanup_is_filter.
    intros k s [Hs _]%map_lookup_filter_Some. by eapply Hon.
  - unfold Server.postSessions.
    destruct name as [name|]; [|done]. destruct fid as [fid|]; [|done].
    destruct fname as [fname|]; [|done]. destruct (_ || _); [done|].
    cbn [snd Server.sessionManager SessionManager.createSession].
    apply online_insert; [done|]. cbn [GameSession.players].
    by apply Forall_singleton.
Qed.

(** X21. The router never holds a roster record that is not online. In
    every state the process reaches from its start, every roster record of
    every session has [isOnline] set: a participant who leaves or whose
    socket closes is taken off the roster, never kept and flagged. So the
    [playerCount] that GET /sessions reports is the length of the roster. *)
Theorem reachable_rosters_online (readyState : WebSocket.t → WebSocket.state)
    (inputs : list Server.input) :
  let srv := Server.run inputs (Server.initial readyState) in
  (∀ sid s p,
     SessionManager.getSession sid (Server.sessionManager srv) = Some s →
     p ∈ GameSession.players s → Player.isOnline p = Some true)
  ∧ Server.getSessions srv
    = (λ s, Server.mkSummary (GameSession.id s) (GameSession.name s)
              (length (GameSession.players s)) (GameSession.lastActivity s))
      <$> SessionManager.getAllSessions (Server.sessionManager srv).
Proof.
  intros srv.
  assert (online (Server.sessionManager srv)) as Hon.
  { subst srv. unfold Server.run.
    assert (online (Server.sessionManager (Server.initial readyState)))
      as Hinit.
    { intros k s Hs.
      change ((∅ : gmap string GameSession.t) !! k = Some s) in Hs.
      by rewrite lookup_empty in Hs. }
    revert Hinit. generalize (Server.initial readyState).
    induction inputs as [|i inputs IH]; intros srv Hon; [done|].
    cbn [foldl]. apply IH. by apply online_react. }
  split.
  - intros sid s p Hs Hp. specialize (Hon sid s Hs).
    by eapply Forall_forall in Hon.
  - unfold Server.getSessions, SessionManager.getAllSessions.
    apply Forall_fmap_ext, Forall_forall. intros s Hs. f_equal.
    apply list_elem_of_fmap in Hs as ([k s0] & -> & Hin%elem_of_map_to_list).
    specialize (Hon k s0 Hin). cbn [snd].
    induction (GameSession.players s0) as [|q l IH]; [done|].
    apply Forall_cons in Hon as [Hq Hl]. rewrite filter_cons.
    rewrite decide_True by done. cbn [length]. by rewrite IH.
Qed.

End online.


(* ================================================================== *)
(** * Properties of the client *)
(* ================================================================== *)

(** ** The store's event handler against the registry *)

Lemma mapPlayer_absent (pid : string) (f : Player.t → Player.t)
    (l : list Player.t) :
  (∀ p, p ∈ l → Player.id p ≠ pid) → Store.mapPlayer pid f l = l.
Proof.
  unfold Store.mapPlayer. induction l as [|a l IH]; intros Hl; [done|].
  cbn [map]. rewrite decide_False by (apply Hl; left).
  rewrite IH; [done|]. intros p Hp. apply Hl. by right.
Qed.

Lemma mapPlayer_unique (pid : string) (f : Player.t → Player.t)
    (l : list Player.t) :
  NoDup (Player.id <$> l) →
  Store.mapPlayer pid f l
  = match list_find (λ p, Player.id p = pid) l with
    | Some (i, p) => <[i := f p]> l
    | None => l
    end.
Proof.
  induction l as [|a l IH]; [done|].
  rewrite fmap_cons. intros [Ha Hl]%NoDup_cons.
  change (Store.mapPlayer pid f (a :: l))
    with ((if decide (Player.id a = pid) then f a else a)
            :: Store.mapPlayer pid f l).
  cbn [list_find]. destruct (decide (Player.id a = pid)) as [Hpid|Hpid].
  - cbn. rewrite mapPlayer_absent; [done|].
    intros p Hp Heq. apply Ha. rewrite Hpid, <- Heq.
    by apply list_elem_of_fmap_2.
  - rewrite IH by done.
    destruct (list_find _ l) as [[i p]|]; by cbn.
Qed.

Lemma inStep_refl (s : GameSession.t) : Store.inStep s s.
Proof.
  unfold Store.inStep. split_and!; try done.
  - induction (GameSession.players s); constructor; [|done].
    by unfold Store.samePlayer.
  - destruct (GameSession.currentVote s); constructor.
    by unfold Store.sameRound.
Qed.

Lemma mapPlayer_samePlayer (pid : string) (f : Player.t → Player.t)
    (client server : list Player.t) :
  (∀ p q, Store.samePlayer p q → Store.samePlayer (f p) (f q)) →
  Forall2 Store.samePlayer client server →
  Forall2 Store.samePlayer (Store.mapPlayer pid f client)
    (Store.mapPlayer pid f server).
Proof.
  intros Hf Hsame. unfold Store.mapPlayer.
  change (Forall2 Store.samePlayer
            ((λ p, if decide (Player.id p = pid) then f p else p) <$> client)
            ((λ p, if decide (Player.id p = pid) then f p else p) <$> server)).
  apply Forall2_fmap. eapply Forall2_impl; [exact Hsame|].
  intros p q Hpq. cbn. destruct Hpq as (Hid & Hrest).
  rewrite Hid. case_decide; [apply Hf|]; by split.
Qed.

(** X22. The store's event handler keeps the client's copy of a session in
    step with the registry. When the copy and the session of the registry
    agree on id, name, facilitator, voting system and settings, on the
    roster record by record and on the current round, they agree on them
    again after the store has handled an event and the registry has
    applied it, each with the round id it draws and its own clock: for a
    vote under an id other than ["__proto__"] on a session with a current
    round, for the start of a round, for a settings update, and for the
    reveal of a round that holds a numeric vote. The roster ids of the
    registry's session are assumed distinct. The histories are not
    compared. The store handles the event the registry applied: what the
    JSON encoding of the relay does to a payload is not part of the
    statement. *)
Theorem onEvent_replicates_server (uuid uuid' : string) (now now' : Z)
    (sid : string) (event : SyncEvent.t) (sessions : SessionManager.t)
    (client server : GameSession.t) :
  sessions !! sid = Some server →
  Store.inStep client server →
  SessionManager.rosterUnique server →
  match event with
  | SyncEvent.VOTE_SUBMITTED pid _ =>
      is_Some (GameSession.currentVote server) ∧ pid ≠ "__proto__"
  | SyncEvent.VOTES_REVEALED =>
      ∃ r, GameSession.currentVote server = Some r
           ∧ Js.numbers (Js.values (VotingRound.votes r)) ≠ []
  | SyncEvent.VOTING_STARTED _ | SyncEvent.SETTINGS_UPDATED _ _ _ _ => True
  | _ => False
  end →
  ∃ client' server',
    Store.onEvent uuid' now' event (Some client) = Some (Some client')
    ∧ Server.applyEvent uuid now sid event sessions !! sid = Some server'
    ∧ Store.inStep client' server'.
Proof.
  intros Hs (Hid & Hname & Hfac & Hsys & Hset & Hplayers & Hround) Hunique
    Hevent.
  destruct event as [| |pid vote|issueName| | | | |settings fac name sys| |];
    try done; cbn [Store.onEvent Server.applyEvent Store.startVoting].
  - destruct Hevent as [[r Hr] Hpid].
    unfold SessionManager.updatePlayerVote. rewrite Hs, Hr. cbn [snd].
    rewrite lookup_insert_eq. eexists _, _.
    split; [reflexivity|]. split; [reflexivity|].
    rewrite Hr in Hround. inversion Hround as [rc r0 Hsame Hrc|]; subst.
    unfold Store.inStep.
    cbn [GameSession.id GameSession.name GameSession.facilitator
         GameSession.votingSystem GameSession.players GameSession.currentVote
         GameSession.settings].
    split_and!; try done.
    + rewrite <- (mapPlayer_unique pid (SessionManager.castVote vote))
        by done.
      apply mapPlayer_samePlayer; [|done].
      intros p q (? & ? & ? & ? & ?). by split_and!.
    + constructor. destruct Hsame as (? & Hvotes & ? & ? & ?).
      unfold Store.sameRound.
      cbn [VotingRound.issueName VotingRound.votes VotingRound.isRevealed
           VotingRound.average VotingRound.hasAgreement].
      split_and!; try done. rewrite Hvotes.
      symmetry. apply prop_set_define. by left.
  - unfold SessionManager.startVoting. rewrite Hs. cbn [snd].
    rewrite lookup_insert_eq. eexists _, _.
    split; [reflexivity|]. split; [reflexivity|].
    unfold Store.inStep.
    cbn [GameSession.id GameSession.name GameSession.facilitator
         GameSession.votingSystem GameSession.players GameSession.currentVote
         GameSession.settings].
    split_and!; try done.
    + change (Forall2 Store.samePlayer
                (SessionManager.clearVote <$> GameSession.players client)
                (SessionManager.clearVote <$> GameSession.players server)).
      apply Forall2_fmap. eapply Forall2_impl; [exact Hplayers|].
      intros p q (? & ? & ? & ? & ?). by split_and!.
    + constructor. by unfold Store.sameRound.
  - destruct Hevent as (r & Hr & Hnum).
    unfold SessionManager.revealVotes. rewrite Hs, Hr. cbn [snd].
    rewrite lookup_insert_eq.
    rewrite Hr in Hround. inversion Hround as [rc r0 Hsame Hrc|]; subst.
    destruct Hsame as (? & Hvotes & ? & ? & ?).
    unfold Store.revealVotes. rewrite <- Hrc. eexists _, _.
    split; [reflexivity|]. split; [reflexivity|].
    unfold Store.inStep.
    cbn [GameSession.id GameSession.name GameSession.facilitator
         GameSession.votingSystem GameSession.players GameSession.currentVote
         GameSession.settings].
    split_and!; try done. constructor.
    unfold Store.sameRound, Store.calculateResults, SessionManager.revealed,
      SessionManager.numericVotes.
    cbn [mbind option_bind]. rewrite <- Hrc. rewrite Hvotes.
    destruct (Js.numbers (Js.values (VotingRound.votes r))) as [|x0 xs];
      [done|].
    cbn [VotingRound.issueName VotingRound.votes VotingRound.isRevealed
         VotingRound.average VotingRound.hasAgreement Store.average
         Store.hasAgreement].
    split_and!; try done.
  - unfold SessionManager.updateSessionSettings. rewrite Hs. cbn [snd].
    rewrite lookup_insert_eq. eexists _, _.
    split; [reflexivity|]. split; [reflexivity|].
    unfold Store.inStep.
    cbn [GameSession.id GameSession.name GameSession.facilitator
         GameSession.votingSystem GameSession.players GameSession.currentVote
         GameSession.settings].
    rewrite Hname, Hfac, Hsys, Hset. by split_and!.
Qed.

Lemma onEvent_replicates_server_witness :
  ∃ client' server',
    Store.onEvent "u" 9 (SyncEvent.VOTE_SUBMITTED "bob" (Js.VNum 8))
      (Sample.voted !! "s1") = Some (Some client')
    ∧ Server.applyEvent "v" 10 "s1"
        (SyncEvent.VOTE_SUBMITTED "bob" (Js.VNum 8)) Sample.voted !! "s1"
      = Some server'
    ∧ Store.inStep client' server'.
Proof.
  edestruct (onEvent_replicates_server "v" "u" 10 9 "s1"
               (SyncEvent.VOTE_SUBMITTED "bob" (Js.VNum 8)) Sample.voted)
    as (client' & server' & Hclient & Hserver & Hstep).
  - vm_compute. reflexivity.
  - apply inStep_refl.
  - unfold SessionManager.rosterUnique. refine (bool_decide_unpack _ _).
    vm_compute. exact I.
  - split; [|discriminate]. eexists. vm_compute. reflexivity.
  - exists client', server'. split; [|by split].
    etransitivity; [|exact Hclient]. vm_compute. reflexivity.
Defined.

Lemma mapPlayer_ids (pid : string) (f : Player.t → Player.t)
    (l : list Player.t) :
  (∀ p, Player.id (f p) = Player.id p) →
  Player.id <$> Store.mapPlayer pid f l = Player.id <$> l.
Proof.
  intros Hf. unfold Store.mapPlayer.
  induction l as [|a l IH]; [done|]. cbn [map]. rewrite !fmap_cons.
  f_equal; [|done]. by case_decide.
Qed.

Lemma mapPlayer_filter (pid : string) (f : Player.t → Player.t)
    (l : list Player.t) :
  (∀ p, Player.id (f p) = Player.id p) →
  filter (λ p, Player.id p ≠ pid) (Store.mapPlayer pid f l)
  = filter (λ p, Player.id p ≠ pid) l.
Proof.
  intros Hf. unfold Store.mapPlayer.
  induction l as [|a l IH]; [done|]. cbn [map]. rewrite !filter_cons.
  destruct (decide (Player.id a = pid)) as [Ha|Ha].
  - rewrite !decide_False; [done|by intros []|]. rewrite Hf. by intros [].
  - rewrite !decide_True by done. by rewrite IH.
Qed.

(** X23. When a participant leaves, the client keeps what the registry
    drops. On PLAYER_LEFT and on PLAYER_DISCONNECTED the store's handler
    keeps the roster's length and ids, marks every record of the
    participant as not online, and leaves the current round, with the
    participant's vote, untouched; the registry removes the records, so
    its roster is the client's without the records of that participant. *)
Theorem onEvent_player_left (uuid : string) (now : Z) (sid pid : string)
    (sessions : SessionManager.t) (s : GameSession.t) :
  sessions !! sid = Some s →
  ∃ client server,
    Store.onEvent uuid now (SyncEvent.PLAYER_LEFT pid) (Some s)
      = Some (Some client)
    ∧ Store.onEvent uuid now (SyncEvent.PLAYER_DISCONNECTED pid) (Some s)
      = Some (Some client)
    ∧ (SessionManager.removePlayerFromSession now sid pid sessions).2 !! sid
      = Some server
    ∧ Player.id <$> GameSession.players client
      = Player.id <$> GameSession.players s
    ∧ (∀ p, p ∈ GameSession.players client →
         if decide (Player.id p = pid) then Player.isOnline p = Some false
         else p ∈ GameSession.players s)
    ∧ GameSession.currentVote client = GameSession.currentVote s
    ∧ GameSession.players server
      = filter (λ p, Player.id p ≠ pid) (GameSession.players client).
Proof.
  intros Hs. eexists _, _. split; [reflexivity|]. split; [reflexivity|].
  unfold SessionManager.removePlayerFromSession. rewrite Hs. cbn [snd].
  rewrite lookup_insert_eq. split; [reflexivity|].
  cbn [Store.with_players GameSession.players GameSession.currentVote].
  split_and!.
  - by apply mapPlayer_ids.
  - intros p. unfold Store.mapPlayer.
    intros (q & -> & Hq)%(list_elem_of_fmap_1 _ (GameSession.players s) p).
    destruct (decide (Player.id q = pid)) as [Hid|Hid].
    + by rewrite decide_True.
    + by rewrite decide_False.
  - done.
  - by rewrite mapPlayer_filter.
Qed.

Lemma onEvent_player_left_witness :
  ∃ client server,
    Store.onEvent "u" 9 (SyncEvent.PLAYER_LEFT "bob") (Sample.voted !! "s1")
      = Some (Some client)
    ∧ (SessionManager.removePlayerFromSession 9 "s1" "bob" Sample.voted).2
        !! "s1" = Some server
    ∧ length (GameSession.players client) = 2
    ∧ length (GameSession.players server) = 1.
Proof.
  edestruct (onEvent_player_left "u" 9 "s1" "bob" Sample.voted)
    as (client & server & H1 & _ & H3 & H4 & _ & _ & H7).
  - vm_compute. reflexivity.
  - exists client, server. split.
    + etransitivity; [|exact H1]. vm_compute. reflexivity.
    + split; [exact H3|]. split.
      * rewrite <- (length_fmap Player.id), H4. vm_compute. reflexivity.
      * vm_compute in H1. injection H1 as <-. rewrite H7.
        vm_compute. reflexivity.
Defined.

(** ** Handling an event twice *)

Lemma mapPlayer_idem (pid : string) (f : Player.t → Player.t)
    (l : list Player.t) :
  (∀ p, Player.id (f p) = Player.id p) → (∀ p, f (f p) = f p) →
  Store.mapPlayer pid f (Store.mapPlayer pid f l) = Store.mapPlayer pid f l.
Proof.
  intros Hid Hf. unfold Store.mapPlayer.
  induction l as [|a l IH]; [done|]. cbn [map]. f_equal; [|done].
  destruct (decide (Player.id a = pid)) as [Ha|Ha].
  - rewrite decide_True by (by rewrite Hid). apply Hf.
  - by rewrite decide_False.
Qed.

(** X24. The router sends every domain event back to the connection it
    came from, so a store handles the events it originated. Handling an
    event a second time changes nothing for a join, a leave, a disconnect,
    a reconnect, a vote, a session update and a settings update: the
    session after the second handling is the session after the first. A
    reveal is not like that: on a session with a current round every
    handling of VOTES_REVEALED adds one entry to the history. *)
Theorem onEvent_twice (uuid uuid' : string) (now now' : Z)
    (event : SyncEvent.t) (session session' : option GameSession.t) :
  Store.onEvent uuid now event session = Some session' →
  (event ≠ SyncEvent.VOTES_REVEALED
   → (∀ issueName, event ≠ SyncEvent.VOTING_STARTED issueName)
   → Store.onEvent uuid' now' event session' = Some session')
  ∧ (∀ s r,
       event = SyncEvent.VOTES_REVEALED → session = Some s →
       GameSession.currentVote s = Some r →
       ∃ s1 s2,
         session' = Some s1
         ∧ Store.onEvent uuid' now' event session' = Some (Some s2)
         ∧ length (GameSession.history s1)
           = S (length (GameSession.history s))
         ∧ length (GameSession.history s2)
           = S (S (length (GameSession.history s)))).
Proof.
  intros Hfirst. split.
  - intros Hreveal Hstart. destruct session as [s|]; cbn in Hfirst;
      [|by injection Hfirst as <-].
    destruct event as [[newPlayer|]|pid|pid vote|issueName| |s0|pid|pid
                      |settings facilitator name votingSystem| |a b c];
      try done; try (by destruct (Hstart issueName));
      cbn [Store.onEvent] in Hfirst.
    + destruct (list_find _ (GameSession.players s)) as [[i q]|] eqn:Hfind;
        injection Hfirst as <-; cbn [Store.onEvent].
      * by rewrite Hfind.
      * cbn [Store.with_players GameSession.players].
        by erewrite list_find_snoc_here.
    + injection Hfirst as <-. cbn [Store.onEvent]. do 2 f_equal.
      unfold Store.with_players. cbn [GameSession.players]. f_equal.
      by apply mapPlayer_idem.
    + injection Hfirst as <-. cbn [Store.onEvent].
      cbn [GameSession.id GameSession.name GameSession.facilitator
           GameSession.votingSystem GameSession.players
           GameSession.currentVote GameSession.settings GameSession.history
           GameSession.createdAt GameSession.lastActivity].
      rewrite mapPlayer_idem by done.
      destruct (GameSession.currentVote s) as [r|]; [|done].
      cbn [VotingRound.id VotingRound.issueName VotingRound.votes
           VotingRound.startTime VotingRound.endTime VotingRound.isRevealed
           VotingRound.average VotingRound.hasAgreement].
      by rewrite prop_define_define.
    + by injection Hfirst as <-.
    + injection Hfirst as <-. cbn [Store.onEvent]. do 2 f_equal.
      unfold Store.with_players. cbn [GameSession.players]. f_equal.
      by apply mapPlayer_idem.
    + injection Hfirst as <-. cbn [Store.onEvent]. do 2 f_equal.
      unfold Store.with_players. cbn [GameSession.players]. f_equal.
      by apply mapPlayer_idem.
    + injection Hfirst as <-. cbn [Store.onEvent].
      cbn [GameSession.id GameSession.name GameSession.facilitator
           GameSession.votingSystem GameSession.players
           GameSession.currentVote GameSession.settings GameSession.history
           GameSession.createdAt GameSession.lastActivity].
      do 2 f_equal.
      assert (∀ new old,
                (if Js.truthy_str new
                 then default (if Js.truthy_str new then default old new
                               else old) new
                 else if Js.truthy_str new then default old new else old)
                = if Js.truthy_str new then default old new else old)
        as Hpick.
      { intros [x|] old; cbn; [by destruct (negb _)|done]. }
      rewrite !Hpick. f_equal. destruct settings as [p|]; [|done].
      apply merge_merge.
    + by injection Hfirst as <-.
    + by injection Hfirst as <-.
  - intros s r -> -> Hr. cbn [Store.onEvent] in Hfirst.
    injection Hfirst as <-. unfold Store.revealVotes. rewrite Hr.
    eexists _, _. split; [reflexivity|].
    cbn [Store.onEvent Store.revealVotes GameSession.currentVote
         GameSession.history].
    split; [reflexivity|].
    split; cbn [GameSession.history]; rewrite !length_app; cbn [length]; lia.
Qed.

Lemma onEvent_twice_witness :
  let e := SyncEvent.VOTE_SUBMITTED "bob" (Js.VNum 8) in
  ∃ session',
    Store.onEvent "u" 9 e (Sample.voted !! "s1") = Some session'
    ∧ Store.onEvent "v" 10 e session' = Some session'.
Proof.
  intros e.
  exists (default None (Store.onEvent "u" 9 e (Sample.voted !! "s1"))).
  assert (Store.onEvent "u" 9 e (Sample.voted !! "s1")
          = Some (default None
                    (Store.onEvent "u" 9 e (Sample.voted !! "s1"))))
    as Hfirst by (vm_compute; reflexivity).
  split; [exact Hfirst|].
  refine (proj1 (onEvent_twice "u" "v" 9 10 _ _ _ Hfirst) _ _).
  - discriminate.
  - intros issueName. discriminate.
Defined.

(** ** Admission to a session on the client *)

Section admission.
Context (toLowerCase : string → string).

Local Abbreviation names :=
  (λ players : list Player.t,
     (λ p, toLowerCase (Player.name p)) <$> players).

Lemma nameExists_spec (name : string) (players : list Player.t) :
  Store.nameExists toLowerCase name players = true
  ↔ toLowerCase name ∈ names players.
Proof.
  unfold Store.nameExists. rewrite existsb_exists, list_elem_of_fmap.
  split.
  - intros (p & Hp%list_elem_of_In & Heq%bool_decide_eq_true). by exists p.
  - intros (p & Heq & Hp). exists p. split; [by apply list_elem_of_In|].
    by apply bool_decide_eq_true.
Qed.

(** X25. Admission on the client, by [joinSession] of the session library
    and by [addPlayer] of the store, whatever [toLowerCase] does. A session
    with ten participants admits no one; otherwise a name that equals the
    name of a participant up to letter case is refused; otherwise the
    participant is appended to the roster, online, under the id drawn. The
    full check comes first. So admission never takes a roster beyond ten
    participants and keeps names distinct up to letter case. *)
Theorem client_admission (playerId name : string) (s : GameSession.t) :
  let join := Store.joinSession toLowerCase playerId s name in
  let add := Store.addPlayer toLowerCase playerId name (Some s) in
  let players := GameSession.players s in
  (10 ≤ length players →
     join = inl "Session is full (maximum 10 players)"
     ∧ add = inl "Session is full (maximum 10 players)")
  ∧ (length players < 10 → toLowerCase name ∈ names players →
       join = inl "A player with this name already exists in the session"
       ∧ add = inl "A player with this name already exists")
  ∧ (length players < 10 → toLowerCase name ∉ names players →
       join
       = inr (Store.with_players
                (players
                   ++ [Player.mk playerId name None (Some true) None
                         (Some true)]) s,
              playerId)
       ∧ add
         = inr (Some (Store.with_players
                        (players
                           ++ [Player.mk playerId name None None None
                                 (Some true)]) s)))
  ∧ (∀ s',
       (∃ id, join = inr (s', id)) ∨ add = inr (Some s') →
       length (GameSession.players s') ≤ 10
       ∧ (NoDup (names players) → NoDup (names (GameSession.players s')))).
Proof.
  intros join add players. subst join add.
  unfold Store.joinSession, Store.addPlayer. fold players.
  destruct (decide (10 ≤ length players)) as [Hfull|Hroom].
  - rewrite !bool_decide_true by done. split_and!; try done; try lia.
    by intros s' [[id ?]|?].
  - rewrite !bool_decide_false by done.
    destruct (Store.nameExists toLowerCase name players) eqn:Hname.
    + apply nameExists_spec in Hname. split_and!; try done.
      by intros s' [[id ?]|?].
    + assert (toLowerCase name ∉ names players) as Hfresh.
      { intros Hin%nameExists_spec. congruence. }
      split_and!; try done.
      intros s' Hs'.
      assert (∃ p, Player.name p = name
                   ∧ GameSession.players s' = players ++ [p])
        as (p & Hp & ->).
      { destruct Hs' as [[id [= <- _]]|[= <-]];
          (eexists; split; [|reflexivity]; reflexivity). }
      split.
      * rewrite length_app. cbn [length]. lia.
      * intros Hnodup. rewrite fmap_app. apply NoDup_app.
        split; [done|]. cbn. rewrite Hp. split; [|apply NoDup_singleton].
        by intros x Hx ->%list_elem_of_singleton.
Qed.

End admission.

(** ** Reconnection *)

Lemma delay_values :
  WebSocketRealTimeSync.delay <$> [1; 2; 3; 4; 5]%Z
  = [5000; 5000; 8000; 16000; 30000]%Z.
Proof. reflexivity. Qed.

Section reconnect.

Local Abbreviation step :=
  (λ (acc : WebSocketRealTimeSync.t * list (Z * Z)) (now : Z),
     let r := WebSocketRealTimeSync.handleReconnection now acc.1 in
     (r.1, acc.2 ++ match r.2 with Some d => [(now, d)] | None => [] end)).

Local Abbreviation schedule := ([5000; 5000; 8000; 16000; 30000]%Z).

Local Abbreviation inv :=
  (λ acc : WebSocketRealTimeSync.t * list (Z * Z),
     (0 ≤ WebSocketRealTimeSync.reconnectAttempts acc.1 ≤ 5)%Z
     ∧ acc.2.*2
       = take (Z.to_nat (WebSocketRealTimeSync.reconnectAttempts acc.1))
              schedule
     ∧ (∀ e, last acc.2 = Some e →
          e.1 = WebSocketRealTimeSync.lastReconnectTime acc.1)
     ∧ (∀ i a b, acc.2 !! i = Some a → acc.2 !! S i = Some b →
          (5000 ≤ b.1 - a.1)%Z)).

Lemma reconnect_step (acc : WebSocketRealTimeSync.t * list (Z * Z))
    (now : Z) :
  inv acc → inv (step acc now).
Proof.
  destruct acc as [[status attempts lastTime] log].
  intros (Hrange & Hlog & Hlast & Hspaced).
  cbn [fst snd WebSocketRealTimeSync.reconnectAttempts
       WebSocketRealTimeSync.lastReconnectTime] in *.
  unfold WebSocketRealTimeSync.handleReconnection.
  cbn [WebSocketRealTimeSync.reconnectAttempts
       WebSocketRealTimeSync.lastReconnectTime].
  unfold WebSocketRealTimeSync.minReconnectInterval,
    WebSocketRealTimeSync.maxReconnectAttempts.
  case_bool_decide as Hsoon;
    [cbn [fst snd]; by rewrite app_nil_r|].
  case_bool_decide as Hmax;
    [cbn [fst snd WebSocketRealTimeSync.reconnectAttempts
          WebSocketRealTimeSync.lastReconnectTime];
     by rewrite app_nil_r|].
  cbn [fst snd WebSocketRealTimeSync.reconnectAttempts
       WebSocketRealTimeSync.lastReconnectTime].
  split_and!.
  - lia.
  - lia.
  - rewrite fmap_app, Hlog. cbn [fmap list_fmap snd].
    assert (attempts = 0 ∨ attempts = 1 ∨ attempts = 2 ∨ attempts = 3
            ∨ attempts = 4)%Z as Hcases by lia.
    by destruct Hcases as [->|[->|[->|[->| ->]]]].
  - intros e. rewrite last_snoc. by intros [= <-].
  - intros i a b Ha Hb.
    destruct (decide (S i < length log)) as [Hi|Hi].
    + rewrite lookup_app_l in Ha, Hb by lia. by eapply Hspaced.
    + assert (S i = length log) as Hlen.
      { apply lookup_lt_Some in Hb. rewrite length_app in Hb.
        cbn [length] in Hb. lia. }
      rewrite lookup_app_l in Ha by lia.
      rewrite lookup_app_r, Hlen, Nat.sub_diag in Hb by lia.
      injection Hb as <-. cbn [fst].
      assert (last log = Some a) as Ha'.
      { rewrite last_lookup. rewrite <- Hlen. exact Ha. }
      rewrite (Hlast a Ha'). lia.
Qed.

(** X26. Reconnection of the client is bounded and paced. After the
    socket has opened, whenever [handleReconnection] is called from then
    on, it schedules at most five reconnections, their timers run 5, 5, 8,
    16 and 30 seconds in this order, and each is scheduled at least five
    seconds after the one before; every other call schedules nothing. *)
Theorem reconnections_bounded (times : list Z)
    (sync : WebSocketRealTimeSync.t) :
  let r :=
    WebSocketRealTimeSync.reconnections times
      (WebSocketRealTimeSync.onopen sync) in
  r.2.*2 `prefix_of` [5000; 5000; 8000; 16000; 30000]%Z
  ∧ length r.2 = Z.to_nat (WebSocketRealTimeSync.reconnectAttempts r.1)
  ∧ length r.2 ≤ 5
  ∧ (∀ i a b, r.2 !! i = Some a → r.2 !! S i = Some b →
       (5000 ≤ b.1 - a.1)%Z).
Proof.
  intros r.
  assert (inv r) as (Hrange & Hlog & _ & Hspaced).
  { subst r. unfold WebSocketRealTimeSync.reconnections.
    assert (inv (WebSocketRealTimeSync.onopen sync, [])) as Hinit.
    { cbn. split_and!; [lia|lia|done|done|]. by intros i a b. }
    revert Hinit.
    generalize (WebSocketRealTimeSync.onopen sync,
                ([] : list (Z * Z))).
    induction times as [|now times IH]; intros acc Hacc; [done|].
    cbn [foldl]. apply IH. by apply reconnect_step. }
  assert (length r.2
          = Z.to_nat (WebSocketRealTimeSync.reconnectAttempts r.1)) as Hlen.
  { rewrite <- (length_fmap snd), Hlog, length_take. cbn [length]. lia. }
  split_and!.
  - rewrite Hlog. apply prefix_take.
  - done.
  - lia.
  - done.
Qed.

End reconnect.
